(** * Modbus register sensor and switches (ilgio/modbus_hplc)

    A shallow embedding of [sensor.py] and [switch.py]: the register
    decoder of [ModbusRegisterSensor.update], the coil switch and the
    bit-addressed register switch.

    - Python values are modelled as the code uses them: ints as [Z],
      floats as IEEE 754 binary64 through [SpecFloat], bytes as lists of
      integers below 256, text as [string]; an expression returns or
      raises ([Py.result]).
    - The library calls of the sources ([struct.unpack], [bytes.decode],
      [format], [str], [re.match], [int], [pow], [np.bitwise_and]) are
      modelled on the inputs the sources give them, with the limits of
      CPython 3.11 and NumPy 2 on 64-bit Linux: texts of ints have at
      most 4300 digits, a format precision is below 2^31, a struct
      format is ASCII, NumPy's default integer has 64 bits.
    - The Modbus hub is an external collaborator: a deterministic
      responder whose reply to a call may depend on everything that
      happened before.  Every call, delay and logged diagnostic of a
      method is appended to a trace.
    - A method runs on the entity and the trace; attributes assigned
      before an exception escapes stay assigned ([Method.M]). *)

From Stdlib Require Import ZArith List String Ascii Bool Lia.
From Stdlib Require Import Floats.SpecFloat.
Import ListNotations.

Local Open Scope string_scope.
Local Open Scope Z_scope.

(** ** Python runtime: exceptions and results *)

Module Py.

(** The exceptions the modelled code can let escape.  [HostLayout] is
    not one of Python's: see [Struct.unpack]. *)
Inductive exn : Type :=
| IndexError
| TypeError
| ValueError
| OverflowError
| AttributeError
| UnicodeDecodeError
| UnicodeEncodeError
| StructError
| SystemError
| HostLayout.

(** Outcome of evaluating an expression: a value or a raised exception. *)
Inductive result (A : Type) : Type :=
| Ret (a : A)
| Raise (e : exn).
Arguments Ret {A} a.
Arguments Raise {A} e.

Definition rbind {A B : Type} (r : result A) (k : A -> result B) : result B :=
  match r with
  | Ret a => k a
  | Raise e => Raise e
  end.

Fixpoint rmapM {A B : Type} (f : A -> result B) (l : list A) : result (list B) :=
  match l with
  | [] => Ret []
  | a :: l' =>
      rbind (f a) (fun b => rbind (rmapM f l') (fun bs => Ret (b :: bs)))
  end.

(** ** Integers and their decimal text *)

Definition digit_char (d : Z) : ascii := ascii_of_N (Z.to_N (48 + d)).

(** Decimal digits of a non-negative integer, most significant first;
    [fuel] bounds the number of digits produced. *)
Fixpoint digits_of (fuel : nat) (n : Z) (acc : string) : string :=
  match fuel with
  | O => acc
  | S fuel' =>
      let acc' := String (digit_char (n mod 10)) acc in
      if n / 10 =? 0 then acc' else digits_of fuel' (n / 10) acc'
  end.

Definition str_nat (n : Z) : string :=
  digits_of (S (Z.to_nat (Z.log2 n))) n "".

(** The decimal text of an int. *)
Definition str_int (z : Z) : string :=
  if z <? 0 then "-" ++ str_nat (- z) else str_nat z.

(** [sys.int_info.default_max_str_digits]: the most digits [str] and
    [int] convert, unless the interpreter is started with another
    limit. *)
Definition int_max_str_digits : Z := 4300.

(** [str(z)] for a Python int: its decimal text, [ValueError] when that
    has more digits than the limit. *)
Definition str_of_int (z : Z) : result string :=
  if Z.abs z <? 10 ^ int_max_str_digits then Ret (str_int z)
  else Raise ValueError.

(** Exactly [p] decimal digits of [n mod 10^p], zero padded on the left. *)
Fixpoint fixed_digits (p : nat) (n : Z) : string :=
  match p with
  | O => ""
  | S p' => fixed_digits p' (n / 10) ++ String (digit_char (n mod 10)) ""
  end.

Definition is_digit (c : ascii) : bool :=
  let n := Z.of_N (N_of_ascii c) in (48 <=? n) && (n <=? 57).

Definition is_ascii (c : ascii) : bool := Z.of_N (N_of_ascii c) <? 128.

Definition is_upper (c : ascii) : bool :=
  let n := Z.of_N (N_of_ascii c) in (65 <=? n) && (n <=? 90).

Definition digit_value (c : ascii) : Z := Z.of_N (N_of_ascii c) - 48.

(** Longest prefix of [s] whose characters satisfy [p], and the rest. *)
Fixpoint span (p : ascii -> bool) (s : string) : string * string :=
  match s with
  | EmptyString => (EmptyString, EmptyString)
  | String c s' =>
      if p c then let (a, b) := span p s' in (String c a, b)
      else (EmptyString, s)
  end.

Definition nonempty (s : string) : bool :=
  match s with EmptyString => false | _ => true end.

(** [s] is empty or starts with a character that fails [p]. *)
Definition starts_outside (p : ascii -> bool) (s : string) : bool :=
  match s with
  | EmptyString => true
  | String c _ => negb (p c)
  end.

(** Every character of [s] satisfies [p]. *)
Fixpoint every (p : ascii -> bool) (s : string) : bool :=
  match s with
  | EmptyString => true
  | String c s' => p c && every p s'
  end.

Fixpoint int_of_digits_acc (s : string) (acc : Z) : Z :=
  match s with
  | EmptyString => acc
  | String c s' => int_of_digits_acc s' (10 * acc + digit_value c)
  end.

(** The number a string of ASCII digits spells. *)
Definition int_of_digits (s : string) : Z := int_of_digits_acc s 0.

(** [int(s)] for a non-empty string of ASCII digits, which is all the
    switch constructor passes to it: the number it spells, [ValueError]
    when it has more digits than the limit (leading zeros count). *)
Definition int (s : string) : result Z :=
  if Z.of_nat (String.length s) <=? int_max_str_digits
  then Ret (int_of_digits s)
  else Raise ValueError.

(** ** Floats

    A Python float is an IEEE 754 binary64 number; [spec_float] with
    precision 53 and maximal exponent 1024 is its specification. *)

Definition prec : Z := 53.
Definition emax : Z := 1024.

Definition float : Type := spec_float.

Definition fmul : float -> float -> float := SFmul prec emax.
Definition fadd : float -> float -> float := SFadd prec emax.

(** [float(z)] for a Python int: correctly rounded, [OverflowError] when
    the magnitude is beyond the largest finite double. *)
Definition float_of_int (z : Z) : result float :=
  match binary_normalize prec emax z 0 false with
  | S754_infinity _ => Raise OverflowError
  | f => Ret f
  end.

(** [int(f)] for a float: truncation towards zero. *)
Definition int_of_float (f : float) : result Z :=
  match f with
  | S754_zero _ => Ret 0
  | S754_infinity _ => Raise OverflowError
  | S754_nan => Raise ValueError
  | S754_finite s m e =>
      let a := if 0 <=? e then Zpos m * 2 ^ e else Zpos m / 2 ^ (- e) in
      Ret (if s then - a else a)
  end.

Definition is_finite (f : float) : bool :=
  match f with
  | S754_zero _ | S754_finite _ _ _ => true
  | S754_infinity _ | S754_nan => false
  end.

(** The integer nearest to [m * 2^e * 10^p], ties to even: the digits
    the ['f'] presentation type prints for a finite double. *)
Definition round_scaled (m : positive) (e : Z) (p : nat) : Z :=
  let num := Zpos m * 10 ^ Z.of_nat p in
  if 0 <=? e then num * 2 ^ e
  else
    let den := 2 ^ (- e) in
    let q := num / den in
    let r := num mod den in
    match 2 * r ?= den with
    | Lt => q
    | Eq => if Z.even q then q else q + 1
    | Gt => q + 1
    end.

Definition sign_text (s : bool) : string := if s then "-" else "".

(** Integer part, and a point followed by [p] digits when [p] is not 0. *)
Definition fixed_body (n : Z) (p : nat) : string :=
  str_nat (n / 10 ^ Z.of_nat p) ++
  match p with
  | O => ""
  | S _ => "." ++ fixed_digits p (n mod 10 ^ Z.of_nat p)
  end.

(** The ['f'] presentation of a float with [p] digits after the point. *)
Definition format_fixed (x : float) (p : nat) : string :=
  match x with
  | S754_nan => "nan"
  | S754_infinity s => sign_text s ++ "inf"
  | S754_zero s => sign_text s ++ fixed_body 0 p
  | S754_finite s m e => sign_text s ++ fixed_body (round_scaled m e p) p
  end.

(** [format(x, ".{p}f")], that is [f"{x:.{p}f}"]: [ValueError] for a
    precision that is not below 2^31. *)
Definition format_f (x : float) (p : nat) : result string :=
  if Z.of_nat p <? 2 ^ 31 then Ret (format_fixed x p)
  else Raise ValueError.

(** ** Numbers in arithmetic: [int] or [float] *)

Inductive num : Type :=
| NInt (z : Z)
| NFloat (f : float).

Definition to_float (a : num) : result float :=
  match a with
  | NInt z => float_of_int z
  | NFloat f => Ret f
  end.

(** [a * b]: exact on two ints, otherwise both operands are converted to
    float first. *)
Definition mul (a b : num) : result num :=
  match a, b with
  | NInt x, NInt y => Ret (NInt (x * y))
  | _, _ =>
      rbind (to_float a) (fun fa =>
      rbind (to_float b) (fun fb => Ret (NFloat (fmul fa fb))))
  end.

(** [a + b], with the same coercion. *)
Definition add (a b : num) : result num :=
  match a, b with
  | NInt x, NInt y => Ret (NInt (x + y))
  | _, _ =>
      rbind (to_float a) (fun fa =>
      rbind (to_float b) (fun fb => Ret (NFloat (fadd fa fb))))
  end.

(** [pow(2, e)]: an int for a non-negative exponent; for a negative one
    both operands are converted to float first and the result is the
    float nearest to [2^e]. *)
Definition pow2 (e : Z) : result num :=
  if e <? 0 then
    rbind (float_of_int e) (fun _ =>
    Ret (NFloat (binary_normalize prec emax 1 e false)))
  else Ret (NInt (2 ^ e)).

(** [int(x)] for a number. *)
Definition int_of_num (x : num) : result Z :=
  match x with
  | NInt z => Ret z
  | NFloat f => int_of_float f
  end.

(** ** Sequences *)

(** [l[i]] with Python's negative indices. *)
Definition index {A : Type} (l : list A) (i : Z) : result A :=
  let len := Z.of_nat (List.length l) in
  let j := if i <? 0 then i + len else i in
  if (0 <=? j) && (j <? len) then
    match nth_error l (Z.to_nat j) with
    | Some a => Ret a
    | None => Raise IndexError
    end
  else Raise IndexError.

(** [sep.join(parts)]. *)
Fixpoint join (sep : string) (parts : list string) : string :=
  match parts with
  | [] => ""
  | [p] => p
  | p :: rest => p ++ sep ++ join sep rest
  end.

(** ** Bytes and text *)

(** A byte is an integer in [0, 256); [bytes] is a list of them. *)
Definition bytes : Type := list Z.

Definition char_of_byte (b : Z) : ascii := ascii_of_N (Z.to_N b).

Fixpoint text_of_bytes (bs : bytes) : string :=
  match bs with
  | [] => ""
  | b :: bs' => String (char_of_byte b) (text_of_bytes bs')
  end.

Definition in_range (lo hi b : Z) : bool := (lo <=? b) && (b <=? hi).

(** Well-formed UTF-8 (the byte sequences the strict decoder accepts). *)
Fixpoint utf8_valid (fuel : nat) (bs : bytes) : bool :=
  match fuel with
  | O => match bs with [] => true | _ => false end
  | S fuel' =>
      match bs with
      | [] => true
      | b0 :: r0 =>
          if in_range 0 127 b0 then utf8_valid fuel' r0
          else
            match r0 with
            | b1 :: r1 =>
                if in_range 194 223 b0 then
                  in_range 128 191 b1 && utf8_valid fuel' r1
                else
                  match r1 with
                  | b2 :: r2 =>
                      let second3 :=
                        if b0 =? 224 then in_range 160 191 b1
                        else if b0 =? 237 then in_range 128 159 b1
                        else in_range 128 191 b1 in
                      if in_range 224 239 b0 then
                        second3 && in_range 128 191 b2 && utf8_valid fuel' r2
                      else
                        match r2 with
                        | b3 :: r3 =>
                            let second4 :=
                              if b0 =? 240 then in_range 144 191 b1
                              else if b0 =? 244 then in_range 128 143 b1
                              else in_range 128 191 b1 in
                            in_range 240 244 b0 && second4 &&
                            in_range 128 191 b2 && in_range 128 191 b3 &&
                            utf8_valid fuel' r3
                        | [] => false
                        end
                  | [] => false
                  end
            | [] => false
            end
      end
  end.

(** [bs.decode()]: the text is kept in its UTF-8 encoding. *)
Definition decode (bs : bytes) : result string :=
  if utf8_valid (List.length bs) bs then Ret (text_of_bytes bs)
  else Raise UnicodeDecodeError.

Definition hex_char (d : Z) : ascii :=
  if d <? 10 then digit_char d else ascii_of_N (Z.to_N (87 + d)).

Definition repr_byte (quote : Z) (b : Z) : string :=
  if (b =? quote) || (b =? 92) then String "\" (String (char_of_byte b) "")
  else if b =? 9 then "\t"
  else if b =? 10 then "\n"
  else if b =? 13 then "\r"
  else if (b <? 32) || (127 <=? b) then
    String "\" (String "x" (String (hex_char (b / 16)) (String (hex_char (b mod 16)) "")))
  else String (char_of_byte b) "".

Definition has_byte (b : Z) (bs : bytes) : bool := existsb (Z.eqb b) bs.

(** [str(bs)] for a bytes object, which is its [repr]. *)
Definition bytes_repr (bs : bytes) : string :=
  let quote := if has_byte 39 bs && negb (has_byte 34 bs) then 34 else 39 in
  "b" ++ String (char_of_byte quote)
    (concat "" (map (repr_byte quote) bs) ++ String (char_of_byte quote) "").

(** ** Values produced by [struct.unpack] *)

Inductive value : Type :=
| VInt (z : Z)
| VBool (b : bool)
| VFloat (f : float)
| VBytes (bs : bytes).

(** [isinstance(v, (float, int))]; a bool is an int. *)
Definition as_number (v : value) : option num :=
  match v with
  | VInt z => Some (NInt z)
  | VBool b => Some (NInt (Z.b2z b))
  | VFloat f => Some (NFloat f)
  | VBytes _ => None
  end.

Section Str.

(** [repr] of a float, the shortest text that reads back as the same
    double.  No property below depends on which text that is, so it is
    left to the runtime. *)
Variable float_repr : float -> string.

(** The text of a value. *)
Definition str (v : value) : string :=
  match v with
  | VInt z => str_int z
  | VBool b => if b then "True" else "False"
  | VFloat f => float_repr f
  | VBytes bs => bytes_repr bs
  end.

(** [str(v)]: the text of the value, within the limit of [str] on an
    int. *)
Definition str_of_value (v : value) : result string :=
  match v with
  | VInt z => str_of_int z
  | _ => Ret (str v)
  end.

End Str.

End Py.

(** ** [struct.unpack] in the standard modes *)

Module Struct.

Import Py.

Inductive byte_order : Type := BigEndian | LittleEndian.

Inductive field : Type :=
| Pad                 (* x *)
| Char                (* c *)
| SInt (size : nat)   (* b h i l q *)
| UInt (size : nat)   (* B H I L Q *)
| Flag                (* ? *)
| Half                (* e *)
| Single              (* f *)
| Double              (* d *)
| Bytes (n : nat)     (* <n>s *)
| Pascal (n : nat).   (* <n>p *)

Definition field_size (f : field) : nat :=
  match f with
  | Pad | Char | Flag => 1
  | SInt n | UInt n => n
  | Half => 2
  | Single => 4
  | Double => 8
  | Bytes n | Pascal n => n
  end.

Definition is_space (c : ascii) : bool :=
  let n := Z.of_N (N_of_ascii c) in (n =? 32) || ((9 <=? n) && (n <=? 13)).

(** The fields one format item [<count><code>] stands for. *)
Definition item_fields (count : option Z) (code : ascii) : option (list field) :=
  let n := Z.to_nat (match count with Some k => k | None => 1 end) in
  let rep f := Some (repeat f n) in
  match code with
  | "x"%char => rep Pad
  | "c"%char => rep Char
  | "b"%char => rep (SInt 1)
  | "B"%char => rep (UInt 1)
  | "?"%char => rep Flag
  | "h"%char => rep (SInt 2)
  | "H"%char => rep (UInt 2)
  | "i"%char | "l"%char => rep (SInt 4)
  | "I"%char | "L"%char => rep (UInt 4)
  | "q"%char => rep (SInt 8)
  | "Q"%char => rep (UInt 8)
  | "e"%char => rep Half
  | "f"%char => rep Single
  | "d"%char => rep Double
  | "s"%char => Some [Bytes n]
  | "p"%char => Some [Pascal n]
  | _ => None
  end.

(** Items of a format after its byte-order character; [count] is the
    repeat count read so far for the next item. *)
Fixpoint parse_items (s : string) (count : option Z) : option (list field) :=
  match s with
  | EmptyString =>
      match count with None => Some [] | Some _ => None end
  | String c s' =>
      if is_digit c then
        parse_items s'
          (Some (10 * (match count with Some k => k | None => 0 end)
                 + digit_value c))
      else if is_space c then
        match count with None => parse_items s' None | Some _ => None end
      else
        match item_fields count c, parse_items s' None with
        | Some fs, Some rest => Some (fs ++ rest)%list
        | _, _ => None
        end
  end.

(** Reading of a format string.  [None] in the second component is a
    malformed format. *)
Inductive format : Type :=
| Standard (order : byte_order) (fields : option (list field))
| Native.

Definition parse (fmt : string) : format :=
  match fmt with
  | String ">"%char s | String "!"%char s => Standard BigEndian (parse_items s None)
  | String "<"%char s => Standard LittleEndian (parse_items s None)
  | _ => Native
  end.

Fixpoint be_int (bs : bytes) (acc : Z) : Z :=
  match bs with
  | [] => acc
  | b :: bs' => be_int bs' (acc * 256 + b)
  end.

Definition signed (size : nat) (u : Z) : Z :=
  let w := 8 * Z.of_nat size in
  if u <? 2 ^ (w - 1) then u else u - 2 ^ w.

(** The double with the value of the IEEE 754 interchange encoding
    [bits], of [ebits] exponent and [mbits] fraction bits. *)
Definition decode_ieee (ebits mbits : Z) (bits : Z) : float :=
  let sign := Z.testbit bits (ebits + mbits) in
  let expf := (bits / 2 ^ mbits) mod 2 ^ ebits in
  let frac := bits mod 2 ^ mbits in
  let bias := 2 ^ (ebits - 1) - 1 in
  if expf =? 2 ^ ebits - 1 then
    if frac =? 0 then S754_infinity sign else S754_nan
  else
    let m := if expf =? 0 then frac else frac + 2 ^ mbits in
    let e := (if expf =? 0 then 1 else expf) - bias - mbits in
    binary_normalize prec emax (if sign then - m else m) e sign.

(** The value of one field from its bytes, most significant first. *)
Definition decode_field (f : field) (bs : bytes) : result (option value) :=
  match f with
  | Pad => Ret None
  | Char => Ret (Some (VBytes bs))
  | SInt n => Ret (Some (VInt (signed n (be_int bs 0))))
  | UInt _ => Ret (Some (VInt (be_int bs 0)))
  | Flag => Ret (Some (VBool (negb (be_int bs 0 =? 0))))
  | Half => Ret (Some (VFloat (decode_ieee 5 10 (be_int bs 0))))
  | Single => Ret (Some (VFloat (decode_ieee 8 23 (be_int bs 0))))
  | Double => Ret (Some (VFloat (decode_ieee 11 52 (be_int bs 0))))
  | Bytes _ => Ret (Some (VBytes bs))
  | Pascal _ =>
      match bs with
      | [] => Raise SystemError
      | len :: body =>
          Ret (Some (VBytes (firstn (Z.to_nat len) body)))
      end
  end.

Definition is_text (f : field) : bool :=
  match f with
  | Char | Bytes _ | Pascal _ | Pad => true
  | _ => false
  end.

Fixpoint decode_fields (order : byte_order) (fs : list field) (data : bytes)
  : result (list value) :=
  match fs with
  | [] => Ret []
  | f :: fs' =>
      let raw := firstn (field_size f) data in
      let bs :=
        match order with
        | BigEndian => raw
        | LittleEndian => if is_text f then raw else rev raw
        end in
      rbind (decode_field f bs) (fun v =>
      rbind (decode_fields order fs' (skipn (field_size f) data)) (fun vs =>
      Ret (match v with Some x => x :: vs | None => vs end)))
  end.

Definition calcsize (fs : list field) : nat :=
  fold_right (fun f n => (field_size f + n)%nat) O fs.

(** [struct.unpack(fmt, data)] for a format in a standard mode.  The
    format is a [str]: it is encoded as ASCII before it is read.  The
    native modes (no byte-order character, ["@"] or ["="]) lay fields out
    by the host ABI; they are outside this model and answer [HostLayout],
    which is not a Python exception. *)
Definition unpack (fmt : string) (data : bytes) : result (list value) :=
  if negb (every is_ascii fmt) then Raise UnicodeEncodeError
  else
    match parse fmt with
    | Native => Raise HostLayout
    | Standard _ None => Raise StructError
    | Standard order (Some fs) =>
        if Nat.eqb (calcsize fs) (List.length data)
        then decode_fields order fs data
        else Raise StructError
    end.

End Struct.

(** ** The Modbus hub

    The transport is an external collaborator.  It is modelled as a
    deterministic responder: the reply to a call is a function of the
    events so far and of the call.  Every call an entity makes is
    appended to the trace. *)

Module Hub.

Inductive call : Type :=
| read_coils (slave : option Z) (address count : Z)
| read_input_registers (slave : option Z) (address count : Z)
| read_holding_registers (slave : option Z) (address count : Z)
| write_coil (slave : option Z) (address : Z) (value : bool)
| write_registers (slave : option Z) (address : Z) (values : Py.num).

(** What a call comes back with: [ConnectionException] is raised by the
    call; [ExceptionResponse] is a returned object that is an instance
    of [ModbusException] or [ExceptionResponse]; the others are returned
    results exposing [.registers], [.bits] or neither. *)
Inductive reply : Type :=
| ConnectionException
| ExceptionResponse
| Registers (registers : list Z)
| Bits (bits : list bool)
| Written.

Inductive event : Type :=
| Called (c : call)
| Slept (seconds : Z)
| LoggedUnexpectedResponse (slave : option Z) (register value : Z).

Definition trace : Type := list event.

Definition t : Type := trace -> call -> reply.

(** [result.registers] *)
Definition registers_of (r : reply) : Py.result (list Z) :=
  match r with
  | Registers l => Py.Ret l
  | _ => Py.Raise Py.AttributeError
  end.

(** [result.bits] *)
Definition bits_of (r : reply) : Py.result (list bool) :=
  match r with
  | Bits l => Py.Ret l
  | _ => Py.Raise Py.AttributeError
  end.

(** A transport failure: a connectivity exception, or an exception
    object in place of a result. *)
Definition transport_failure (r : reply) : Prop :=
  r = ConnectionException \/ r = ExceptionResponse.

End Hub.

(** ** Methods: state of the entity, trace of the world, exceptions

    A method runs on the entity and the trace and ends by returning or
    by raising; assignments made before a raise persist. *)

Module Method.

Import Py.

Section Monad.

Context {S : Type}.

Definition M (A : Type) : Type :=
  S * Hub.trace -> (S * Hub.trace) * result A.

Definition ret {A : Type} (a : A) : M A := fun st => (st, Ret a).

Definition raise {A : Type} (e : exn) : M A := fun st => (st, Raise e).

Definition bind {A B : Type} (m : M A) (k : A -> M B) : M B :=
  fun st =>
    match m st with
    | (st', Ret a) => k a st'
    | (st', Raise e) => (st', Raise e)
    end.

Definition lift {A : Type} (r : result A) : M A := fun st => (st, r).

Definition get : M S := fun st => (st, Ret (fst st)).

Definition modify (f : S -> S) : M unit :=
  fun st => ((f (fst st), snd st), Ret tt).

Definition emit (e : Hub.event) : M unit :=
  fun st => ((fst st, (snd st ++ [e])%list), Ret tt).

(** A call on the hub: recorded, then answered. *)
Definition ask (hub : Hub.t) (c : Hub.call) : M Hub.reply :=
  fun st => ((fst st, (snd st ++ [Hub.Called c])%list), Ret (hub (snd st) c)).

End Monad.

Arguments M S A : clear implicits.

(** What a run leaves behind. *)
Definition entity {S A : Type} (o : (S * Hub.trace) * result A) : S :=
  fst (fst o).
Definition events {S A : Type} (o : (S * Hub.trace) * result A) : Hub.trace :=
  snd (fst o).
Definition outcome {S A : Type} (o : (S * Hub.trace) * result A) : result A :=
  snd o.

End Method.

Declare Scope method_scope.
Delimit Scope method_scope with method.
Notation "x <- m ;; k" := (Method.bind m (fun x => k))
  (at level 61, m at next level, right associativity) : method_scope.
Notation "m ;; k" := (Method.bind m (fun _ => k))
  (at level 61, right associativity) : method_scope.

Declare Scope result_scope.
Delimit Scope result_scope with result.
Notation "x <- m ;; k" := (Py.rbind m (fun x => k))
  (at level 61, m at next level, right associativity) : result_scope.

(** ** Constants of the integration *)

Module Const.

(** Modelled from the spec: [const.py] is not among the sources; the
    register kinds are "holding" and "input" and the data types "int",
    "uint", "float", "string" and "custom". *)
Definition CALL_TYPE_REGISTER_HOLDING : string := "holding".
Definition CALL_TYPE_REGISTER_INPUT : string := "input".
Definition DATA_TYPE_STRING : string := "string".

End Const.

(** ** [sensor.py]: the register sensor *)

Module Sensor.

Import Py Const.

(** The attributes of a sensor.  Scale and offset are an int or a float
    and the precision a non-negative integer, as the schema validates
    them; the bit index is absent or an integer. *)
Record ModbusRegisterSensor : Type := {
  _name : string;
  _slave : option Z;
  _register : Z;
  _register_type : string;
  _unit_of_measurement : option string;
  _count : Z;
  _reverse_order : bool;
  _scale : num;
  _offset : num;
  _precision : nat;
  _structure : string;
  _data_type : string;
  _device_class : option string;
  _value : option string;
  _available : bool;
  _bit : option Z
}.

(** [ModbusRegisterSensor.__init__] *)
Definition __init__ (name : string) (slave : option Z) (register : Z)
    (register_type : string) (unit_of_measurement : option string)
    (count : Z) (reverse_order : bool) (scale offset : num)
    (structure : string) (precision : nat) (data_type : string)
    (device_class : option string) (out : option Z) : ModbusRegisterSensor :=
  {| _name := name;
     _slave := match slave with
               | Some n => if n =? 0 then None else Some n
               | None => None
               end;
     _register := register;
     _register_type := register_type;
     _unit_of_measurement := unit_of_measurement;
     _count := count;
     _reverse_order := reverse_order;
     _scale := scale;
     _offset := offset;
     _precision := precision;
     _structure := structure;
     _data_type := data_type;
     _device_class := device_class;
     _value := None;
     _available := true;
     _bit := out |}.

Definition set_available (b : bool) (self : ModbusRegisterSensor) :=
  {| _name := _name self; _slave := _slave self; _register := _register self;
     _register_type := _register_type self;
     _unit_of_measurement := _unit_of_measurement self;
     _count := _count self; _reverse_order := _reverse_order self;
     _scale := _scale self; _offset := _offset self;
     _precision := _precision self; _structure := _structure self;
     _data_type := _data_type self; _device_class := _device_class self;
     _value := _value self; _available := b; _bit := _bit self |}.

Definition set_value (v : string) (self : ModbusRegisterSensor) :=
  {| _name := _name self; _slave := _slave self; _register := _register self;
     _register_type := _register_type self;
     _unit_of_measurement := _unit_of_measurement self;
     _count := _count self; _reverse_order := _reverse_order self;
     _scale := _scale self; _offset := _offset self;
     _precision := _precision self; _structure := _structure self;
     _data_type := _data_type self; _device_class := _device_class self;
     _value := Some v; _available := _available self; _bit := _bit self |}.

(** The same sensor under another scale, offset, precision, data type
    and structure. *)
Definition reconfigured (scale offset : num) (precision : nat)
    (data_type structure : string) (self : ModbusRegisterSensor) :=
  {| _name := _name self; _slave := _slave self; _register := _register self;
     _register_type := _register_type self;
     _unit_of_measurement := _unit_of_measurement self;
     _count := _count self; _reverse_order := _reverse_order self;
     _scale := scale; _offset := offset;
     _precision := precision; _structure := structure;
     _data_type := data_type; _device_class := _device_class self;
     _value := _value self; _available := _available self;
     _bit := _bit self |}.

(** [x.to_bytes(2, byteorder="big")] *)
Definition to_bytes2 (x : Z) : result bytes :=
  if (0 <=? x) && (x <? 65536) then Ret [x / 256; x mod 256]
  else Raise OverflowError.

(** [format(byte, "08b")] for a byte. *)
Definition format_08b (b : Z) : list ascii :=
  map (fun i => if Z.testbit b i then "1"%char else "0"%char)
      [7; 6; 5; 4; 3; 2; 1; 0].

(** [if self._bit:] holds for an integer other than 0. *)
Definition configured_bit (self : ModbusRegisterSensor) : option Z :=
  match _bit self with
  | Some b => if b =? 0 then None else Some b
  | None => None
  end.

(** The read [update] issues (lines 238-245). *)
Definition read_call (self : ModbusRegisterSensor) : Hub.call :=
  if String.eqb (_register_type self) CALL_TYPE_REGISTER_INPUT
  then Hub.read_input_registers (_slave self) (_register self) (_count self)
  else Hub.read_holding_registers (_slave self) (_register self) (_count self).

(** [if self._reverse_order: registers.reverse()] *)
Definition ordered (self : ModbusRegisterSensor) (registers : list Z)
  : list Z :=
  if _reverse_order self then rev registers else registers.

Section Decode.

Variable float_repr : float -> string.

(** Scale, offset and precision on a single number (lines 284-292). *)
Definition scaled (self : ModbusRegisterSensor) (n : num) : result string :=
  (x <- mul (_scale self) n ;;
   val <- add x (_offset self) ;;
   match val, _precision self with
   | NInt z, O => str_of_int z
   | _, _ => f <- to_float val ;; format_f f (_precision self)
   end)%result.

(** The text [update] stores for the registers read (lines 258-295),
    after the optional reversal. *)
Definition decode_registers (self : ModbusRegisterSensor)
    (registers : list Z) : result string :=
  (words <- rmapM to_bytes2 registers ;;
   let byte_string := List.concat words in
   match configured_bit self with
   | Some bit =>
       let bytes_as_bits := List.concat (map format_08b byte_string) in
       let position := Z.of_nat (List.length bytes_as_bits) - bit in
       val <- index bytes_as_bits position ;;
       Ret (String val "")
   | None =>
       if String.eqb (_data_type self) DATA_TYPE_STRING then
         decode byte_string
       else
         val <- Struct.unpack (_structure self) byte_string ;;
         if (1 <? Z.of_nat (List.length val)) then
           texts <- rmapM (str_of_value float_repr) val ;;
           Ret (join "," texts)
         else
           v <- index val 0 ;;
           match as_number v with
           | Some n => scaled self n
           | None => str_of_value float_repr v
           end
   end)%result.

Variable hub : Hub.t.

(** [ModbusRegisterSensor.update] *)
Definition update : Method.M ModbusRegisterSensor unit :=
  (self <- Method.get ;;
   result <- Method.ask hub (read_call self) ;;
   match result with
   | Hub.ConnectionException => Method.modify (set_available false)
   | Hub.ExceptionResponse => Method.modify (set_available false)
   | _ =>
       registers <- Method.lift (Hub.registers_of result) ;;
       v <- Method.lift (decode_registers self (ordered self registers)) ;;
       Method.modify (set_value v) ;;
       Method.modify (set_available true)
   end)%method.

End Decode.

End Sensor.

(** ** [switch.py]: the coil switch *)

Module CoilSwitch.

Import Py.

Record ModbusCoilSwitch : Type := {
  _name : string;
  _slave : option Z;
  _is_on : option bool;
  _available : bool;
  _coil : Z
}.

(** [ModbusCoilSwitch.__init__] on the validated configuration entry. *)
Definition __init__ (name : string) (slave : option Z) (coil : Z)
  : ModbusCoilSwitch :=
  {| _name := name; _slave := slave; _is_on := None; _available := true;
     _coil := coil |}.

Definition set_available (b : bool) (self : ModbusCoilSwitch) :=
  {| _name := _name self; _slave := _slave self; _is_on := _is_on self;
     _available := b; _coil := _coil self |}.

Definition set_is_on (b : bool) (self : ModbusCoilSwitch) :=
  {| _name := _name self; _slave := _slave self; _is_on := Some b;
     _available := _available self; _coil := _coil self |}.

Section Methods.

Variable hub : Hub.t.

(** [_read_coil] *)
Definition _read_coil (coil : Z) : Method.M ModbusCoilSwitch bool :=
  (self <- Method.get ;;
   result <- Method.ask hub (Hub.read_coils (_slave self) coil 1) ;;
   match result with
   | Hub.ConnectionException =>
       Method.modify (set_available false) ;; Method.ret false
   | Hub.ExceptionResponse =>
       Method.modify (set_available false) ;; Method.ret false
   | _ =>
       Method.modify (set_available true) ;;
       bits <- Method.lift (Hub.bits_of result) ;;
       b <- Method.lift (index bits 0) ;;
       Method.ret (negb (Z.land (Z.b2z b) 1 =? 0))
   end)%method.

(** [_write_coil] *)
Definition _write_coil (coil : Z) (value : bool)
  : Method.M ModbusCoilSwitch unit :=
  (self <- Method.get ;;
   result <- Method.ask hub (Hub.write_coil (_slave self) coil value) ;;
   match result with
   | Hub.ConnectionException => Method.modify (set_available false)
   | _ => Method.modify (set_available true)
   end)%method.

(** [turn_on] *)
Definition turn_on : Method.M ModbusCoilSwitch unit :=
  (self <- Method.get ;;
   _write_coil (_coil self) true ;;
   Method.modify (set_is_on true))%method.

(** [turn_off] *)
Definition turn_off : Method.M ModbusCoilSwitch unit :=
  (self <- Method.get ;;
   _write_coil (_coil self) false ;;
   Method.modify (set_is_on false))%method.

(** [update] *)
Definition update : Method.M ModbusCoilSwitch unit :=
  (self <- Method.get ;;
   b <- _read_coil (_coil self) ;;
   Method.modify (set_is_on b))%method.

End Methods.

End CoilSwitch.

(** ** [switch.py]: the bit-addressed register switch *)

Module RegisterSwitch.

Import Py Const.

(** A validated configuration entry ([REGISTERS_SCHEMA]). *)
Record config : Type := {
  CONF_NAME : string;
  CONF_SLAVE : option Z;
  CONF_REGISTER : string;
  CONF_STATE : string;
  CONF_VERIFY_STATE : bool;
  CONF_VERIFY_REGISTER : option Z;
  CONF_REGISTER_TYPE : string
}.

Record ModbusRegisterSwitch : Type := {
  _name : string;
  _slave : option Z;
  _is_on : option bool;
  _available : bool;
  _register_type : string;
  _register : Z;
  _bit_position : Z;
  _register_read_type : string;
  _register_read : Z;
  _bit_read : Z;
  _command_on : list Z;
  _command_off : list Z;
  _state_on : list Z;
  _state_off : list Z;
  _verify_state : bool;
  _verify_register : Z
}.

(** ["$"] matches at the end and before a final newline. *)
Definition at_end (s : string) : bool :=
  match s with
  | EmptyString => true
  | String c EmptyString => Ascii.eqb c (ascii_of_N 10)
  | _ => false
  end.

(** [re.match(r"^(%[A-Z]+)(\d+)\.(\d+)$", s)]: the three groups.  The
    character classes are disjoint, so the greedy reading is the only
    one.  Text is ASCII here, as the schema's own pattern demands. *)
Definition token_match (s : string) : option (string * string * string) :=
  match s with
  | String "%"%char r0 =>
      let (letters, r1) := span is_upper r0 in
      let (d1, r2) := span is_digit r1 in
      match r2 with
      | String "."%char r3 =>
          let (d2, r4) := span is_digit r3 in
          if nonempty letters && nonempty d1 && nonempty d2 && at_end r4
          then Some (String "%"%char letters, d1, d2)
          else None
      | _ => None
      end
  | _ => None
  end.

(** [ModbusRegisterSwitch.__init__]; a token that does not match raises
    [ValueError], and so does [int] on a digit group beyond its limit. *)
Definition __init__ (cfg : config) : result ModbusRegisterSwitch :=
  match token_match (CONF_REGISTER cfg) with
  | None => Raise ValueError
  | Some (_, g2, g3) =>
      (n2 <- int g2 ;;
       let register := n2 - 1 in
       n3 <- int g3 ;;
       let bit_position := n3 + 1 in
       match token_match (CONF_STATE cfg) with
       | None => Raise ValueError
       | Some (h1, h2, h3) =>
          let register_read_type := h1 in
          register_read <- int h2 ;;
          let register_read :=
            if String.eqb register_read_type "%QX"
            then register_read + 200 else register_read in
          bit_read <- int h3 ;;
          let bit_read := bit_read + 1 in
          Ret {| _name := CONF_NAME cfg;
                 _slave := CONF_SLAVE cfg;
                 _is_on := None;
                 _available := true;
                 _register_type := CONF_REGISTER_TYPE cfg;
                 _register := register;
                 _bit_position := bit_position;
                 _register_read_type := register_read_type;
                 _register_read := register_read;
                 _bit_read := bit_read;
                 _command_on := [bit_position];
                 _command_off := [bit_position];
                 _state_on := [register_read; bit_read; bit_read];
                 _state_off := [register_read; bit_read; 0];
                 _verify_state := CONF_VERIFY_STATE cfg;
                 _verify_register :=
                   match CONF_VERIFY_REGISTER cfg with
                   | Some r => r
                   | None => register
                   end |}
       end)%result
  end.

Definition set_available (b : bool) (self : ModbusRegisterSwitch) :=
  {| _name := _name self; _slave := _slave self; _is_on := _is_on self;
     _available := b; _register_type := _register_type self;
     _register := _register self; _bit_position := _bit_position self;
     _register_read_type := _register_read_type self;
     _register_read := _register_read self; _bit_read := _bit_read self;
     _command_on := _command_on self; _command_off := _command_off self;
     _state_on := _state_on self; _state_off := _state_off self;
     _verify_state := _verify_state self;
     _verify_register := _verify_register self |}.

Definition set_is_on (b : bool) (self : ModbusRegisterSwitch) :=
  {| _name := _name self; _slave := _slave self; _is_on := Some b;
     _available := _available self; _register_type := _register_type self;
     _register := _register self; _bit_position := _bit_position self;
     _register_read_type := _register_read_type self;
     _register_read := _register_read self; _bit_read := _bit_read self;
     _command_on := _command_on self; _command_off := _command_off self;
     _state_on := _state_on self; _state_off := _state_off self;
     _verify_state := _verify_state self;
     _verify_register := _verify_register self |}.

(** The switch with another cached state and availability, the two
    attributes its methods assign. *)
Definition in_state (is_on : option bool) (available : bool)
    (self : ModbusRegisterSwitch) :=
  {| _name := _name self; _slave := _slave self; _is_on := is_on;
     _available := available; _register_type := _register_type self;
     _register := _register self; _bit_position := _bit_position self;
     _register_read_type := _register_read_type self;
     _register_read := _register_read self; _bit_read := _bit_read self;
     _command_on := _command_on self; _command_off := _command_off self;
     _state_on := _state_on self; _state_off := _state_off self;
     _verify_state := _verify_state self;
     _verify_register := _verify_register self |}.

(** [int(pow(2, e))] *)
Definition int_pow2 (e : Z) : result Z := rbind (pow2 e) int_of_num.

(** The values of NumPy's default integer, of 64 bits. *)
Definition int64 (z : Z) : bool := (- 2 ^ 63 <=? z) && (z <? 2 ^ 63).

(** [np.bitwise_and(x, mask)] where [x] is [None] or an int and [mask]
    an int.  With [None] the object loop applies [&], which [None] does
    not support.  Two ints are converted to the default integer, which
    raises [OverflowError] for one outside its range, and the result is
    their bitwise AND in two's complement. *)
Definition bitwise_and (x : option Z) (mask : Z) : result Z :=
  match x with
  | None => Raise TypeError
  | Some r =>
      if int64 r && int64 mask then Ret (Z.land r mask)
      else Raise OverflowError
  end.

Section Methods.

Variable hub : Hub.t.

(** [_zzz_read_register] *)
Definition _zzz_read_register (register_type : string) (register : Z)
  : Method.M ModbusRegisterSwitch (option Z) :=
  (self <- Method.get ;;
   result <- Method.ask hub
     (if String.eqb register_type CALL_TYPE_REGISTER_INPUT
      then Hub.read_input_registers (_slave self) register 1
      else Hub.read_holding_registers (_slave self) register 1) ;;
   match result with
   | Hub.ConnectionException =>
       Method.modify (set_available false) ;; Method.ret None
   | Hub.ExceptionResponse =>
       Method.modify (set_available false) ;; Method.ret None
   | _ =>
       Method.modify (set_available true) ;;
       registers <- Method.lift (Hub.registers_of result) ;;
       r <- Method.lift (index registers 0) ;;
       Method.ret (Some r)
   end)%method.

(** [_read_register] *)
Definition _read_register : Method.M ModbusRegisterSwitch (option Z) :=
  (self <- Method.get ;;
   result <- Method.ask hub
     (if String.eqb (_register_type self) CALL_TYPE_REGISTER_INPUT
      then Hub.read_input_registers (_slave self) (_verify_register self) 1
      else Hub.read_holding_registers (_slave self) (_verify_register self) 1) ;;
   match result with
   | Hub.ConnectionException =>
       Method.modify (set_available false) ;; Method.ret None
   | Hub.ExceptionResponse =>
       Method.modify (set_available false) ;; Method.ret None
   | _ =>
       Method.modify (set_available true) ;;
       registers <- Method.lift (Hub.registers_of result) ;;
       r <- Method.lift (index registers 0) ;;
       Method.ret (Some r)
   end)%method.

(** [_write_register], on the list its two callers pass. *)
Definition _write_register (value : list Z)
  : Method.M ModbusRegisterSwitch unit :=
  (self <- Method.get ;;
   v0 <- Method.lift (index value 0) ;;
   number <- Method.lift (if v0 =? 0 then Ret (NInt 0) else pow2 (v0 - 1)) ;;
   result <- Method.ask hub
     (Hub.write_registers (_slave self) (_register self) number) ;;
   match result with
   | Hub.ConnectionException => Method.modify (set_available false)
   | _ => Method.modify (set_available true)
   end)%method.

(** [update] *)
Definition update : Method.M ModbusRegisterSwitch unit :=
  (self <- Method.get ;;
   if negb (_verify_state self) then Method.ret tt
   else
     address <- Method.lift (index (_state_on self) 0) ;;
     register_value <-
       _zzz_read_register CALL_TYPE_REGISTER_HOLDING address ;;
     bit <- Method.lift (index (_state_on self) 1) ;;
     mask <- Method.lift (int_pow2 (bit - 1)) ;;
     value <- Method.lift (bitwise_and register_value mask) ;;
     on_bit <- Method.lift (index (_state_on self) 2) ;;
     on_mask <- Method.lift (int_pow2 (on_bit - 1)) ;;
     if value =? on_mask then Method.modify (set_is_on true)
     else
       off_bit <- Method.lift (index (_state_off self) 2) ;;
       off_mask <- Method.lift (int_pow2 (off_bit - 1)) ;;
       if value =? off_mask then Method.modify (set_is_on false)
       else
         Method.emit
           (Hub.LoggedUnexpectedResponse (_slave self) (_register self) value)
  )%method.

(** [turn_on] *)
Definition turn_on : Method.M ModbusRegisterSwitch unit :=
  (self <- Method.get ;;
   (if String.eqb (_register_type self) CALL_TYPE_REGISTER_HOLDING then
      _write_register (_command_on self) ;;
      if negb (_verify_state self) then Method.modify (set_is_on true)
      else Method.ret tt
    else Method.ret tt) ;;
   Method.emit (Hub.Slept 1) ;;
   update)%method.

(** [turn_off] *)
Definition turn_off : Method.M ModbusRegisterSwitch unit :=
  (self <- Method.get ;;
   (if String.eqb (_register_type self) CALL_TYPE_REGISTER_HOLDING then
      _write_register (_command_off self) ;;
      if negb (_verify_state self) then Method.modify (set_is_on false)
      else Method.ret tt
    else Method.ret tt) ;;
   Method.emit (Hub.Slept 1) ;;
   update)%method.

End Methods.

End RegisterSwitch.

(** ** Vocabulary of the properties *)

Module Spec.

Import Py.

Definition all_digits (s : string) : bool := every is_digit s.

Definition all_upper (s : string) : bool := every is_upper s.

(** A fixed-point decimal with exactly [p] digits after the decimal
    point: an optional minus sign, one or more digits, and, unless [p]
    is 0, a point and [p] digits. *)
Definition is_fixed_point (p : nat) (s : string) : bool :=
  let body :=
    match s with
    | String c r => if Ascii.eqb c "-" then r else s
    | EmptyString => s
    end in
  let (ip, rest) := span is_digit body in
  nonempty ip &&
  match p, rest with
  | O, EmptyString => true
  | S _, String c fp =>
      Ascii.eqb c "." && all_digits fp && Nat.eqb (String.length fp) p
  | _, _ => false
  end.

(** The integer a sequence of 16-bit words spells, first word most
    significant. *)
Definition be_words (ws : list Z) : Z :=
  fold_left (fun acc w => acc * 65536 + w) ws 0.

(** An unsigned 16-bit register word. *)
Definition word (w : Z) : bool := (0 <=? w) && (w <? 65536).

Definition bit_char (b : bool) : ascii := if b then "1"%char else "0"%char.

(** The sixteen bits of a word as text, most significant first, and the
    bit string of a sequence of words. *)
Definition word_bits (w : Z) : list ascii :=
  map (fun i => bit_char (Z.testbit w i))
      [15; 14; 13; 12; 11; 10; 9; 8; 7; 6; 5; 4; 3; 2; 1; 0].

Definition bit_string (ws : list Z) : list ascii := flat_map word_bits ws.

(** A configuration token [%<letters><digits>.<digits>]. *)
Definition token (letters d1 d2 : string) : string :=
  String "%"%char (letters ++ d1 ++ String "."%char d2).

(** A letter group and a digit group of a token. *)
Definition letters (s : string) : bool := nonempty s && all_upper s.

Definition digits (s : string) : bool := nonempty s && all_digits s.

(** A digit group [int] converts: one within its limit. *)
Definition short (d : string) : Prop :=
  Z.of_nat (String.length d) <= int_max_str_digits.

(** A numeric scalar: an int or a float. *)
Definition numeric (v : value) : option num :=
  match v with
  | VInt z => Some (NInt z)
  | VFloat f => Some (NFloat f)
  | VBool _ | VBytes _ => None
  end.

(** The switch the constructor makes of a configuration whose command
    token has the digit groups [a1] and [b1] and whose state token has
    the area [area] and the digit groups [a2] and [b2]. *)
Definition constructed (cfg : RegisterSwitch.config)
    (a1 b1 area a2 b2 : string) : RegisterSwitch.ModbusRegisterSwitch :=
  let register := int_of_digits a1 - 1 in
  let bit_position := int_of_digits b1 + 1 in
  let register_read :=
    if String.eqb area "%QX" then int_of_digits a2 + 200
    else int_of_digits a2 in
  let bit_read := int_of_digits b2 + 1 in
  {| RegisterSwitch._name := RegisterSwitch.CONF_NAME cfg;
     RegisterSwitch._slave := RegisterSwitch.CONF_SLAVE cfg;
     RegisterSwitch._is_on := None;
     RegisterSwitch._available := true;
     RegisterSwitch._register_type := RegisterSwitch.CONF_REGISTER_TYPE cfg;
     RegisterSwitch._register := register;
     RegisterSwitch._bit_position := bit_position;
     RegisterSwitch._register_read_type := area;
     RegisterSwitch._register_read := register_read;
     RegisterSwitch._bit_read := bit_read;
     RegisterSwitch._command_on := [bit_position];
     RegisterSwitch._command_off := [bit_position];
     RegisterSwitch._state_on := [register_read; bit_read; bit_read];
     RegisterSwitch._state_off := [register_read; bit_read; 0];
     RegisterSwitch._verify_state := RegisterSwitch.CONF_VERIFY_STATE cfg;
     RegisterSwitch._verify_register :=
       match RegisterSwitch.CONF_VERIFY_REGISTER cfg with
       | Some r => r
       | None => register
       end |}.

(** [sw] is the switch the constructor builds from [cfg], at any later
    moment: only the cached state and the availability may have moved. *)
Definition built (cfg : RegisterSwitch.config)
    (sw : RegisterSwitch.ModbusRegisterSwitch) : Prop :=
  exists sw0,
    RegisterSwitch.__init__ cfg = Ret sw0 /\
    sw = RegisterSwitch.in_state (RegisterSwitch._is_on sw)
           (RegisterSwitch._available sw) sw0.

(** The configuration with another register kind and verify-register
    override. *)
Definition with_verification (kind : string) (verify_register : option Z)
    (cfg : RegisterSwitch.config) : RegisterSwitch.config :=
  {| RegisterSwitch.CONF_NAME := RegisterSwitch.CONF_NAME cfg;
     RegisterSwitch.CONF_SLAVE := RegisterSwitch.CONF_SLAVE cfg;
     RegisterSwitch.CONF_REGISTER := RegisterSwitch.CONF_REGISTER cfg;
     RegisterSwitch.CONF_STATE := RegisterSwitch.CONF_STATE cfg;
     RegisterSwitch.CONF_VERIFY_STATE := RegisterSwitch.CONF_VERIFY_STATE cfg;
     RegisterSwitch.CONF_VERIFY_REGISTER := verify_register;
     RegisterSwitch.CONF_REGISTER_TYPE := kind |}.

(** The holding-register read at the status address of a register
    switch. *)
Definition verify_call (sw : RegisterSwitch.ModbusRegisterSwitch) : Hub.call :=
  Hub.read_holding_registers (RegisterSwitch._slave sw)
    (RegisterSwitch._register_read sw) 1.

(** The run of a sensor update that read once, stored [text] and left
    the sensor available. *)
Definition stored (self : Sensor.ModbusRegisterSensor) (t : Hub.trace)
    (text : string)
  : (Sensor.ModbusRegisterSensor * Hub.trace) * result unit :=
  ((Sensor.set_available true (Sensor.set_value text self),
    (t ++ [Hub.Called (Sensor.read_call self)])%list), Ret tt).

End Spec.

(** ** Concrete entities and hubs *)

Module Examples.

Import Py.

(** A hub that answers every call with [r]. *)
Definition answering (r : Hub.reply) : Hub.t := fun _ _ => r.

(** A hub that answers the first call with [r1] and the later ones with
    [r2]. *)
Definition answering_then (r1 r2 : Hub.reply) : Hub.t :=
  fun t _ => match t with [] => r1 | _ => r2 end.

(** None of the runs below prints a float through [repr]; this stands in
    for the runtime's function there. *)
Definition unused_float_repr : float -> string := fun _ => "".

(** One signed register, scale 2, offset 5. *)
Definition int_sensor (precision : nat) : Sensor.ModbusRegisterSensor :=
  Sensor.__init__ "level" None 10 "holding" None 1 false (NInt 2) (NInt 5)
    ">h" precision "int" None None.

(** A single-precision float over two registers, two decimals. *)
Definition float_sensor : Sensor.ModbusRegisterSensor :=
  Sensor.__init__ "flow" None 20 "holding" None 2 false (NInt 1) (NInt 0)
    ">f" 2 "float" None None.

(** Two signed registers read as a custom pair, with a scale, an offset
    and a precision configured. *)
Definition pair_sensor : Sensor.ModbusRegisterSensor :=
  Sensor.__init__ "pair" None 30 "holding" None 2 false (NInt 2) (NInt 5)
    ">hh" 1 "custom" None None.

(** One register with a bit index. *)
Definition bit_sensor (bit : Z) : Sensor.ModbusRegisterSensor :=
  Sensor.__init__ "flag" None 40 "holding" None 1 false (NInt 2) (NInt 5)
    ">h" 1 "int" None (Some bit).

(** A coil switch on coil 3 of unit 1. *)
Definition coil_switch : CoilSwitch.ModbusCoilSwitch :=
  CoilSwitch.__init__ "pump" (Some 1) 3.

(** A register switch commanded at %MX401.5 and verified at %QX4.7. *)
Definition switch_config : RegisterSwitch.config :=
  {| RegisterSwitch.CONF_NAME := "valve";
     RegisterSwitch.CONF_SLAVE := Some 1;
     RegisterSwitch.CONF_REGISTER := "%MX401.5";
     RegisterSwitch.CONF_STATE := "%QX4.7";
     RegisterSwitch.CONF_VERIFY_STATE := true;
     RegisterSwitch.CONF_VERIFY_REGISTER := None;
     RegisterSwitch.CONF_REGISTER_TYPE := "holding" |}.

(** What the constructor makes of it. *)
Definition switch : RegisterSwitch.ModbusRegisterSwitch :=
  {| RegisterSwitch._name := "valve";
     RegisterSwitch._slave := Some 1;
     RegisterSwitch._is_on := None;
     RegisterSwitch._available := true;
     RegisterSwitch._register_type := "holding";
     RegisterSwitch._register := 400;
     RegisterSwitch._bit_position := 6;
     RegisterSwitch._register_read_type := "%QX";
     RegisterSwitch._register_read := 204;
     RegisterSwitch._bit_read := 8;
     RegisterSwitch._command_on := [6];
     RegisterSwitch._command_off := [6];
     RegisterSwitch._state_on := [204; 8; 8];
     RegisterSwitch._state_off := [204; 8; 0];
     RegisterSwitch._verify_state := true;
     RegisterSwitch._verify_register := 400 |}.



(** [n] times the digit 1. *)
Fixpoint ones (n : nat) : string :=
  match n with
  | O => ""
  | S n' => String "1"%char (ones n')
  end.

(** The valve commanded at a register number of 4301 digits. *)
Definition long_config : RegisterSwitch.config :=
  {| RegisterSwitch.CONF_NAME := "valve";
     RegisterSwitch.CONF_SLAVE := Some 1;
     RegisterSwitch.CONF_REGISTER := Spec.token "MX" (ones 4301) "5";
     RegisterSwitch.CONF_STATE := "%QX4.7";
     RegisterSwitch.CONF_VERIFY_STATE := true;
     RegisterSwitch.CONF_VERIFY_REGISTER := None;
     RegisterSwitch.CONF_REGISTER_TYPE := "holding" |}.

(** A hub whose coils hold the last bit written to them (off at first)
    and whose other calls succeed with nothing to report. *)
Fixpoint last_written (t : Hub.trace) (address : Z) (current : bool) : bool :=
  match t with
  | [] => current
  | Hub.Called (Hub.write_coil _ a v) :: t' =>
      last_written t' address (if a =? address then v else current)
  | _ :: t' => last_written t' address current
  end.

Definition echoing : Hub.t :=
  fun t c =>
    match c with
    | Hub.read_coils _ a _ => Hub.Bits [last_written t a false]
    | _ => Hub.Written
    end.

End Examples.

(** ** [sensor.py]: setting the platform up *)

Module SensorSetup.

Import Py Const.

(** Modelled from the spec: [const.py] is not among the sources; the
    data type that takes its structure from the configuration is
    "custom". *)
Definition DATA_TYPE_CUSTOM : string := "custom".

(** A validated entry of the register list ([PLATFORM_SCHEMA]); the
    optional keys may be absent. *)
Record register_entry : Type := {
  CONF_NAME : string;
  CONF_REGISTER : Z;
  CONF_COUNT : Z;
  CONF_DATA_TYPE : string;
  CONF_DEVICE_CLASS : option string;
  CONF_HUB : string;
  CONF_OFFSET : num;
  CONF_PRECISION : nat;
  CONF_REGISTER_TYPE : string;
  CONF_REVERSE_ORDER : bool;
  CONF_SCALE : num;
  CONF_SLAVE : option Z;
  CONF_STRUCTURE : option string;
  CONF_UNIT_OF_MEASUREMENT : option string;
  CONF_BIT : option Z
}.

(** The three errors the set-up logs. *)
Inductive logged : Type :=
| UnableToDetect (name : string)
| StructureError (name : string)
| SizeMismatch (size count : Z).

(** How the set-up ends: it returns [False], or calls [add_entities]
    with the sensors, each with the hub it was given, or an exception
    escapes: a [KeyError] of the hub registry or another one. *)
Inductive ending : Type :=
| ReturnedFalse
| Added (sensors : list (Hub.t * Sensor.ModbusRegisterSensor))
| KeyError (hub_name : string)
| Raised (e : exn).

(** The characters of a format whose fields take one byte and no
    alignment on every host: repeat counts, blanks and the codes
    [x c b B ? s p]. *)
Definition byte_code (c : ascii) : bool :=
  is_digit c || Struct.is_space c ||
  Ascii.eqb c "x" || Ascii.eqb c "c" || Ascii.eqb c "b" || Ascii.eqb c "B" ||
  Ascii.eqb c "?" || Ascii.eqb c "s" || Ascii.eqb c "p".

(** The codes of the native mode alone, [n], [N] and [P], read as a
    code of eight bytes: which one does not matter below, only that it
    is not of one byte. *)
Definition host_code (c : ascii) : ascii :=
  if Ascii.eqb c "n" || Ascii.eqb c "N" || Ascii.eqb c "P" then "q"%char
  else c.

Fixpoint host_codes (s : string) : string :=
  match s with
  | EmptyString => EmptyString
  | String c s' => String (host_code c) (host_codes s')
  end.

Definition total_size (fs : list Struct.field) : Z :=
  fold_right (fun f n => Z.of_nat (Struct.field_size f) + n) 0 fs.

Section Setup.

(** Modelled from the spec: [DEFAULT_STRUCT_FORMAT] of [const.py] is not
    among the sources.  It maps a data type and a register count to a
    format code; [None] stands for a missing key. *)
Variable DEFAULT_STRUCT_FORMAT : string -> Z -> option string.

(** [hass.data[MODBUS_DOMAIN]], the hubs by name. *)
Variable hubs : string -> option Hub.t.

(** The largest size the host's [struct] accepts. *)
Variable ssize_max : Z.

Definition sized (fs : option (list Struct.field)) : result Z :=
  match fs with
  | None => Raise StructError
  | Some fs =>
      if total_size fs <=? ssize_max then Ret (total_size fs)
      else Raise StructError
  end.

(** [struct.calcsize(fmt)].  The format is a [str]: it is encoded as
    ASCII before it is read.  In the native mode the fields of one byte
    take one byte on every host; the other native layouts are left to
    the host, as in [Struct.unpack]. *)
Definition calcsize (fmt : string) : result Z :=
  if negb (every is_ascii fmt) then Raise UnicodeEncodeError
  else
    match Struct.parse fmt with
    | Struct.Standard _ fs => sized fs
    | Struct.Native =>
        match fmt with
        | String "="%char s => sized (Struct.parse_items s None)
        | _ =>
            let s := match fmt with
                     | String "@"%char s => s
                     | _ => fmt
                     end in
            match Struct.parse_items (host_codes s) None with
            | None => Raise StructError
            | Some fs =>
                if every byte_code s then sized (Some fs)
                else Raise HostLayout
            end
        end
    end.

(** The sensor an accepted entry becomes. *)
Definition sensor_of (register : register_entry) (structure : string)
  : Sensor.ModbusRegisterSensor :=
  Sensor.__init__ (CONF_NAME register) (CONF_SLAVE register)
    (CONF_REGISTER register) (CONF_REGISTER_TYPE register)
    (CONF_UNIT_OF_MEASUREMENT register) (CONF_COUNT register)
    (CONF_REVERSE_ORDER register) (CONF_SCALE register)
    (CONF_OFFSET register) structure (CONF_PRECISION register)
    (CONF_DATA_TYPE register) (CONF_DEVICE_CLASS register)
    (CONF_BIT register).

(** What one pass of the loop does with an entry. *)
Inductive step : Type :=
| Append (hub : Hub.t) (sensor : Sensor.ModbusRegisterSensor)
| Continue (log : logged)
| Stop (e : ending).

Definition check_size (register : register_entry) (structure : option string)
  : step :=
  match structure with
  | None => Stop (Raised TypeError)
  | Some fmt =>
      match calcsize fmt with
      | Raise StructError => Continue (StructureError (CONF_NAME register))
      | Raise e => Stop (Raised e)
      | Ret size =>
          if negb (CONF_COUNT register * 2 =? size) then
            Continue (SizeMismatch size (CONF_COUNT register))
          else
            match hubs (CONF_HUB register) with
            | None => Stop (KeyError (CONF_HUB register))
            | Some hub => Append hub (sensor_of register fmt)
            end
      end
  end.

Definition consider (register : register_entry) : step :=
  if String.eqb (CONF_DATA_TYPE register) DATA_TYPE_STRING then
    match str_of_int (CONF_COUNT register * 2) with
    | Ret digits => check_size register (Some (digits ++ "s"))
    | Raise e => Stop (Raised e)
    end
  else if negb (String.eqb (CONF_DATA_TYPE register) DATA_TYPE_CUSTOM) then
    match DEFAULT_STRUCT_FORMAT (CONF_DATA_TYPE register) (CONF_COUNT register) with
    | None => Continue (UnableToDetect (CONF_NAME register))
    | Some code => check_size register (Some (">" ++ code))
    end
  else check_size register (CONF_STRUCTURE register).

Fixpoint loop (registers : list register_entry)
    (sensors : list (Hub.t * Sensor.ModbusRegisterSensor))
    (logs : list logged) : list logged * ending :=
  match registers with
  | [] =>
      (logs, match sensors with [] => ReturnedFalse | _ => Added sensors end)
  | register :: rest =>
      match consider register with
      | Append hub sensor => loop rest (sensors ++ [(hub, sensor)])%list logs
      | Continue log => loop rest sensors (logs ++ [log])%list
      | Stop e => (logs, e)
      end
  end.

(** [setup_platform]: the errors logged and how it ends. *)
Definition setup_platform (registers : list register_entry)
  : list logged * ending :=
  loop registers [] [].

End Setup.

End SensorSetup.

(** ** [switch.py]: setting the platform up *)

Module SwitchSetup.

Import Py.

(** A validated entry of the coil list ([COILS_SCHEMA]). *)
Record coil_entry : Type := {
  COIL : Z;
  COIL_NAME : string;
  COIL_SLAVE : Z;
  COIL_HUB : string
}.

(** The platform configuration: each list may be absent; a register
    entry comes with the name of its hub. *)
Record platform : Type := {
  CONF_COILS : option (list coil_entry);
  CONF_REGISTERS : option (list (string * RegisterSwitch.config))
}.

(** A switch with the hub it was given. *)
Inductive switch : Type :=
| Coil (hub : Hub.t) (entity : CoilSwitch.ModbusCoilSwitch)
| Register (hub : Hub.t) (entity : RegisterSwitch.ModbusRegisterSwitch).

(** How the set-up ends: [async_add_entities] is called with the
    switches, or an exception escapes before it is: a [KeyError] of the
    hub registry, or what a constructor raised. *)
Inductive ending : Type :=
| Added (switches : list switch)
| KeyError (hub_name : string)
| Raised (e : exn).

Section Setup.

(** [hass.data[MODBUS_DOMAIN]], the hubs by name. *)
Variable hubs : string -> option Hub.t.

Fixpoint coil_switches (entries : list coil_entry) (switches : list switch)
  : ending :=
  match entries with
  | [] => Added switches
  | coil :: rest =>
      match hubs (COIL_HUB coil) with
      | None => KeyError (COIL_HUB coil)
      | Some hub =>
          coil_switches rest
            (switches ++
             [Coil hub
                (CoilSwitch.__init__ (COIL_NAME coil) (Some (COIL_SLAVE coil))
                   (COIL coil))])%list
      end
  end.

Fixpoint register_switches (entries : list (string * RegisterSwitch.config))
    (switches : list switch) : ending :=
  match entries with
  | [] => Added switches
  | (hub_name, register) :: rest =>
      match hubs hub_name with
      | None => KeyError hub_name
      | Some hub =>
          match RegisterSwitch.__init__ register with
          | Raise e => Raised e
          | Ret entity =>
              register_switches rest (switches ++ [Register hub entity])%list
          end
      end
  end.

(** [async_setup_platform] *)
Definition async_setup_platform (config : platform) : ending :=
  match
    match CONF_COILS config with
    | Some coils => coil_switches coils []
    | None => Added []
    end
  with
  | Added switches =>
      match CONF_REGISTERS config with
      | Some registers => register_switches registers switches
      | None => Added switches
      end
  | stopped => stopped
  end.

End Setup.

End SwitchSetup.

(** ** Further vocabulary *)

Module Extra.

Import Py Spec.

(** [int(s)] on an optional minus sign and digits. *)
Definition read_int (s : string) : Z :=
  match s with
  | String c r => if Ascii.eqb c "-" then - int_of_digits r else int_of_digits s
  | EmptyString => 0
  end.

Definition newline : string := String (ascii_of_N 10) "".

(** The strings the switch constructor accepts as a token: a token whose
    digit groups [int] converts, or such a token followed by one
    newline. *)
Definition well_formed (s : string) : Prop :=
  exists ls d1 d2,
    letters ls = true /\ digits d1 = true /\ digits d2 = true /\
    short d1 /\ short d2 /\
    (s = token ls d1 d2 \/ s = token ls d1 d2 ++ newline).

(** A hub whose coil reads return the bit last written to the coil. *)
Definition echoes (hub : Hub.t) : Prop :=
  forall t slave address count,
    hub t (Hub.read_coils slave address count)
    = Hub.Bits [Examples.last_written t address false].

(** A call that did not raise a connection exception. *)
Definition connected (r : Hub.reply) : bool :=
  match r with
  | Hub.ConnectionException => false
  | _ => true
  end.

(** The write a register switch commands with. *)
Definition command_call (sw : RegisterSwitch.ModbusRegisterSwitch) : Hub.call :=
  Hub.write_registers (RegisterSwitch._slave sw) (RegisterSwitch._register sw)
    (NInt (2 ^ (RegisterSwitch._bit_position sw - 1))).

Definition is_write (e : Hub.event) : bool :=
  match e with
  | Hub.Called (Hub.write_registers _ _ _) => true
  | Hub.Called (Hub.write_coil _ _ _) => true
  | _ => false
  end.

(** The big-endian integer formats of one, two and four registers:
    whether signed, and the number of registers. *)
Definition int_format (fmt : string) : option (bool * nat) :=
  if String.eqb fmt ">h" then Some (true, 1%nat)
  else if String.eqb fmt ">H" then Some (false, 1%nat)
  else if String.eqb fmt ">i" then Some (true, 2%nat)
  else if String.eqb fmt ">I" then Some (false, 2%nat)
  else if String.eqb fmt ">q" then Some (true, 4%nat)
  else if String.eqb fmt ">Q" then Some (false, 4%nat)
  else None.

(** A register word whose two bytes are ASCII. *)
Definition ascii_word (w : Z) : bool :=
  word w && (w / 256 <? 128) && (w mod 256 <? 128).

(** The two bytes of each word, in order. *)
Definition bytes_of_words (ws : list Z) : bytes :=
  List.concat (map (fun w => [w / 256; w mod 256]) ws).

(** The sensor with another cached value and availability, the two
    attributes [update] assigns. *)
Definition sensor_in_state (value : option string) (available : bool)
    (self : Sensor.ModbusRegisterSensor) : Sensor.ModbusRegisterSensor :=
  {| Sensor._name := Sensor._name self;
     Sensor._slave := Sensor._slave self;
     Sensor._register := Sensor._register self;
     Sensor._register_type := Sensor._register_type self;
     Sensor._unit_of_measurement := Sensor._unit_of_measurement self;
     Sensor._count := Sensor._count self;
     Sensor._reverse_order := Sensor._reverse_order self;
     Sensor._scale := Sensor._scale self;
     Sensor._offset := Sensor._offset self;
     Sensor._precision := Sensor._precision self;
     Sensor._structure := Sensor._structure self;
     Sensor._data_type := Sensor._data_type self;
     Sensor._device_class := Sensor._device_class self;
     Sensor._value := value;
     Sensor._available := available;
     Sensor._bit := Sensor._bit self |}.

(** Every hub a platform configuration names is registered. *)
Definition hubs_known (hubs : string -> option Hub.t)
    (config : SwitchSetup.platform) : Prop :=
  (forall coils coil,
     SwitchSetup.CONF_COILS config = Some coils -> In coil coils ->
     hubs (SwitchSetup.COIL_HUB coil) <> None) /\
  (forall registers entry,
     SwitchSetup.CONF_REGISTERS config = Some registers -> In entry registers ->
     hubs (fst entry) <> None).

(** The switch a coil entry, and a register entry, is set up as. *)
Definition coil_switch_of (hubs : string -> option Hub.t)
    (coil : SwitchSetup.coil_entry) (sw : SwitchSetup.switch) : Prop :=
  exists hub,
    hubs (SwitchSetup.COIL_HUB coil) = Some hub /\
    sw = SwitchSetup.Coil hub
           (CoilSwitch.__init__ (SwitchSetup.COIL_NAME coil)
              (Some (SwitchSetup.COIL_SLAVE coil)) (SwitchSetup.COIL coil)).

Definition register_switch_of (hubs : string -> option Hub.t)
    (entry : string * RegisterSwitch.config) (sw : SwitchSetup.switch) : Prop :=
  exists hub entity,
    hubs (fst entry) = Some hub /\
    RegisterSwitch.__init__ (snd entry) = Ret entity /\
    sw = SwitchSetup.Register hub entity.

(** What holds of a sensor the sensor set-up made from [register]: it
    carries the entry's hub and settings, and its structure has twice
    the size of its register count. *)
Definition accepted (hubs : string -> option Hub.t) (ssize_max : Z)
    (register : SensorSetup.register_entry)
    (made : Hub.t * Sensor.ModbusRegisterSensor) : Prop :=
  hubs (SensorSetup.CONF_HUB register) = Some (fst made) /\
  snd made = SensorSetup.sensor_of register (Sensor._structure (snd made)) /\
  SensorSetup.calcsize ssize_max (Sensor._structure (snd made))
  = Ret (Sensor._count (snd made) * 2).

(** The entries of an optional list. *)
Definition entries {A : Type} (l : option (list A)) : list A :=
  match l with
  | Some l => l
  | None => []
  end.

(** Both tokens of a register entry are well formed. *)
Definition entry_well_formed (register : RegisterSwitch.config) : Prop :=
  well_formed (RegisterSwitch.CONF_REGISTER register) /\
  well_formed (RegisterSwitch.CONF_STATE register).

End Extra.

(** ** Sample configurations for the further runs *)

Module Samples.

Import Py.

(** The valve of [Examples.switch_config], commanded without
    verification, and what the constructor makes of it. *)
Definition unverified_config : RegisterSwitch.config :=
  {| RegisterSwitch.CONF_NAME := "valve";
     RegisterSwitch.CONF_SLAVE := Some 1;
     RegisterSwitch.CONF_REGISTER := "%MX401.5";
     RegisterSwitch.CONF_STATE := "%QX4.7";
     RegisterSwitch.CONF_VERIFY_STATE := false;
     RegisterSwitch.CONF_VERIFY_REGISTER := None;
     RegisterSwitch.CONF_REGISTER_TYPE := "holding" |}.


(** The verified valve on input registers. *)
Definition input_config : RegisterSwitch.config :=
  Spec.with_verification "input" None Examples.switch_config.

Definition input_switch : RegisterSwitch.ModbusRegisterSwitch :=
  {| RegisterSwitch._name := "valve";
     RegisterSwitch._slave := Some 1;
     RegisterSwitch._is_on := None;
     RegisterSwitch._available := true;
     RegisterSwitch._register_type := "input";
     RegisterSwitch._register := 400;
     RegisterSwitch._bit_position := 6;
     RegisterSwitch._register_read_type := "%QX";
     RegisterSwitch._register_read := 204;
     RegisterSwitch._bit_read := 8;
     RegisterSwitch._command_on := [6];
     RegisterSwitch._command_off := [6];
     RegisterSwitch._state_on := [204; 8; 8];
     RegisterSwitch._state_off := [204; 8; 0];
     RegisterSwitch._verify_state := true;
     RegisterSwitch._verify_register := 400 |}.

(** The valve with a command token that lacks its percent sign. *)
Definition malformed_config : RegisterSwitch.config :=
  {| RegisterSwitch.CONF_NAME := "valve";
     RegisterSwitch.CONF_SLAVE := Some 1;
     RegisterSwitch.CONF_REGISTER := "MX401.5";
     RegisterSwitch.CONF_STATE := "%QX4.7";
     RegisterSwitch.CONF_VERIFY_STATE := true;
     RegisterSwitch.CONF_VERIFY_REGISTER := None;
     RegisterSwitch.CONF_REGISTER_TYPE := "holding" |}.

(** Four characters over two registers. *)
Definition text_sensor : Sensor.ModbusRegisterSensor :=
  Sensor.__init__ "label" None 50 "holding" None 2 false (NInt 1) (NInt 0)
    "4s" 0 "string" None None.

(** A registry with the one hub "modbus_hub". *)
Definition registry (hub : Hub.t) : string -> option Hub.t :=
  fun name => if String.eqb name "modbus_hub" then Some hub else None.

(** A table of default formats for the data types "int" and "uint". *)
Definition formats (data_type : string) (count : Z) : option string :=
  if String.eqb data_type "int" then
    if count =? 1 then Some "h"
    else if count =? 2 then Some "i"
    else if count =? 4 then Some "q" else None
  else if String.eqb data_type "uint" then
    if count =? 1 then Some "H"
    else if count =? 2 then Some "I"
    else if count =? 4 then Some "Q" else None
  else None.

(** The largest size of a 64-bit host. *)
Definition ssize_max : Z := 2 ^ 63 - 1.

(** A register entry of the sensor platform: one holding register
    block at address 10, unscaled, with no bit index. *)
Definition entry (name data_type : string) (count : Z)
    (structure : option string) (hub : string) : SensorSetup.register_entry :=
  {| SensorSetup.CONF_NAME := name;
     SensorSetup.CONF_REGISTER := 10;
     SensorSetup.CONF_COUNT := count;
     SensorSetup.CONF_DATA_TYPE := data_type;
     SensorSetup.CONF_DEVICE_CLASS := None;
     SensorSetup.CONF_HUB := hub;
     SensorSetup.CONF_OFFSET := NInt 0;
     SensorSetup.CONF_PRECISION := 0;
     SensorSetup.CONF_REGISTER_TYPE := "holding";
     SensorSetup.CONF_REVERSE_ORDER := false;
     SensorSetup.CONF_SCALE := NInt 1;
     SensorSetup.CONF_SLAVE := None;
     SensorSetup.CONF_STRUCTURE := structure;
     SensorSetup.CONF_UNIT_OF_MEASUREMENT := None;
     SensorSetup.CONF_BIT := None |}.

(** A coil entry of the switch platform. *)
Definition coil (name hub : string) : SwitchSetup.coil_entry :=
  {| SwitchSetup.COIL := 3;
     SwitchSetup.COIL_NAME := name;
     SwitchSetup.COIL_SLAVE := 1;
     SwitchSetup.COIL_HUB := hub |}.

(** A switch platform with one coil and one register switch. *)
Definition switches : SwitchSetup.platform :=
  {| SwitchSetup.CONF_COILS := Some [coil "pump" "modbus_hub"];
     SwitchSetup.CONF_REGISTERS :=
       Some [("modbus_hub", Examples.switch_config)] |}.

(** The same platform with a malformed register entry after the good
    one, and with a register entry of an unknown hub. *)
Definition switches_malformed : SwitchSetup.platform :=
  {| SwitchSetup.CONF_COILS := Some [coil "pump" "modbus_hub"];
     SwitchSetup.CONF_REGISTERS :=
       Some [("modbus_hub", Examples.switch_config);
             ("modbus_hub", malformed_config)] |}.

Definition switches_unknown_hub : SwitchSetup.platform :=
  {| SwitchSetup.CONF_COILS := Some [coil "pump" "modbus_hub"];
     SwitchSetup.CONF_REGISTERS :=
       Some [("modbus_hub", Examples.switch_config);
             ("elsewhere", unverified_config);
             ("modbus_hub", malformed_config)] |}.

End Samples.

(** * Properties *)

(** ** Text and digits *)

Section TextFacts.

Import Py Spec.

Lemma every_app p a b : every p (a ++ b) = every p a && every p b.
Proof.
  induction a as [|c a IH]; simpl; [reflexivity|].
  now rewrite IH, andb_assoc.
Qed.

Lemma span_app p a b :
  every p a = true -> starts_outside p b = true -> span p (a ++ b) = (a, b).
Proof.
  induction a as [|c a IH]; simpl; intros Ha Hb.
  - destruct b as [|c b]; simpl in *; [reflexivity|].
    apply negb_true_iff in Hb. now rewrite Hb.
  - apply andb_true_iff in Ha as [Hc Ha].
    now rewrite Hc, (IH Ha Hb).
Qed.

Lemma span_spec p s a b :
  span p s = (a, b) ->
  s = a ++ b /\ every p a = true /\ starts_outside p b = true.
Proof.
  revert a b. induction s as [|c s IH]; simpl; intros a b E.
  - inversion E; subst. auto.
  - destruct (p c) eqn:Hc.
    + destruct (span p s) as [a' b'] eqn:E'. inversion E; subst.
      destruct (IH _ _ eq_refl) as (-> & Ha & Hb).
      simpl. rewrite Hc, Ha. auto.
    + inversion E; subst. simpl. rewrite Hc. auto.
Qed.

Lemma is_digit_digit_char d : 0 <= d < 10 -> is_digit (digit_char d) = true.
Proof.
  intros H.
  assert (d = 0 \/ d = 1 \/ d = 2 \/ d = 3 \/ d = 4 \/ d = 5 \/ d = 6 \/
          d = 7 \/ d = 8 \/ d = 9) as Hd by lia.
  repeat (destruct Hd as [-> | Hd]; [reflexivity|]). now subst.
Qed.

Lemma is_digit_mod10 n : is_digit (digit_char (n mod 10)) = true.
Proof. apply is_digit_digit_char, Z.mod_pos_bound. lia. Qed.

Lemma digits_of_every fuel n acc :
  every is_digit acc = true -> every is_digit (digits_of fuel n acc) = true.
Proof.
  revert n acc. induction fuel as [|fuel IH]; simpl; intros n acc H; [exact H|].
  assert (every is_digit (String (digit_char (n mod 10)) acc) = true) as H'
    by (simpl; now rewrite is_digit_mod10).
  destruct (n / 10 =? 0); [exact H'|]. now apply IH.
Qed.

Lemma digits_of_nonempty fuel n acc :
  nonempty acc = true \/ fuel <> O -> nonempty (digits_of fuel n acc) = true.
Proof.
  revert n acc. induction fuel as [|fuel IH]; simpl; intros n acc H.
  - destruct H as [H|H]; [exact H|congruence].
  - destruct (n / 10 =? 0); [reflexivity|]. apply IH. now left.
Qed.

Lemma str_nat_digits n : every is_digit (str_nat n) = true.
Proof. now apply digits_of_every. Qed.

Lemma str_nat_nonempty n : nonempty (str_nat n) = true.
Proof. apply digits_of_nonempty. now right. Qed.

Lemma digit_value_digit_char d : 0 <= d < 10 -> digit_value (digit_char d) = d.
Proof.
  intros H.
  assert (d = 0 \/ d = 1 \/ d = 2 \/ d = 3 \/ d = 4 \/ d = 5 \/ d = 6 \/
          d = 7 \/ d = 8 \/ d = 9) as Hd by lia.
  repeat (destruct Hd as [-> | Hd]; [reflexivity|]). now subst.
Qed.

Lemma int_of_digits_acc_shift s : forall acc,
  int_of_digits_acc s acc
  = acc * 10 ^ Z.of_nat (String.length s) + int_of_digits_acc s 0.
Proof.
  induction s as [|c s IH]; cbn [int_of_digits_acc String.length]; intros acc.
  - cbn. lia.
  - rewrite (IH (10 * acc + digit_value c)), (IH (10 * 0 + digit_value c)).
    rewrite Nat2Z.inj_succ, Z.pow_succ_r by lia. lia.
Qed.

Lemma digits_of_read_back fuel : forall n acc,
  0 <= n < 10 ^ Z.of_nat fuel ->
  int_of_digits (digits_of fuel n acc)
  = n * 10 ^ Z.of_nat (String.length acc) + int_of_digits acc.
Proof.
  unfold int_of_digits.
  induction fuel as [|fuel IH]; intros n acc Hn.
  - cbn in Hn. cbn [digits_of]. lia.
  - cbn [digits_of].
    rewrite Nat2Z.inj_succ, Z.pow_succ_r in Hn by lia.
    pose proof (Z.mod_pos_bound n 10 ltac:(lia)) as Hd.
    pose proof (Z.div_mod n 10 ltac:(lia)) as Hdm.
    assert (int_of_digits_acc (String (digit_char (n mod 10)) acc) 0
            = n mod 10 * 10 ^ Z.of_nat (String.length acc)
              + int_of_digits_acc acc 0) as Hhead.
    { cbn [int_of_digits_acc]. rewrite int_of_digits_acc_shift.
      rewrite digit_value_digit_char by lia. lia. }
    destruct (Z.eqb_spec (n / 10) 0) as [E|E].
    + rewrite Hhead. replace (n mod 10) with n by lia. reflexivity.
    + rewrite IH.
      * rewrite Hhead. cbn [String.length].
        rewrite Nat2Z.inj_succ, Z.pow_succ_r by lia. nia.
      * split; [apply Z.div_pos; lia|].
        apply Z.div_lt_upper_bound; lia.
Qed.

(** The decimal text of a non-negative integer reads back as it. *)
Lemma str_nat_read_back n : 0 <= n -> int_of_digits (str_nat n) = n.
Proof.
  intros Hn. unfold str_nat. rewrite digits_of_read_back.
  - cbn. lia.
  - split; [exact Hn|].
    rewrite Nat2Z.inj_succ, Z2Nat.id by apply Z.log2_nonneg.
    destruct (Z.eq_dec n 0) as [->|Hz]; [cbn; lia|].
    pose proof (Z.log2_spec n ltac:(lia)) as [_ Hlt].
    apply Z.lt_le_trans with (2 ^ Z.succ (Z.log2 n)); [exact Hlt|].
    apply Z.pow_le_mono_l. lia.
Qed.

Lemma fixed_digits_every p n : every is_digit (fixed_digits p n) = true.
Proof.
  revert n. induction p as [|p IH]; simpl; intros n; [reflexivity|].
  rewrite every_app, IH. simpl. now rewrite is_digit_mod10.
Qed.

Lemma length_app (a b : string) :
  String.length (a ++ b) = (String.length a + String.length b)%nat.
Proof. induction a as [|c a IH]; simpl; [reflexivity|]. now rewrite IH. Qed.

Lemma fixed_digits_length p n : String.length (fixed_digits p n) = p.
Proof.
  revert n. induction p as [|p IH]; simpl; intros n; [reflexivity|].
  rewrite length_app, IH. simpl. lia.
Qed.

Lemma digit_not_minus c : is_digit c = true -> Ascii.eqb c "-" = false.
Proof.
  intros H. destruct (Ascii.eqb_spec c "-"%char) as [->|]; [discriminate|reflexivity].
Qed.

Lemma fixed_body_shape n p : is_fixed_point p (fixed_body n p) = true.
Proof.
  unfold is_fixed_point, fixed_body.
  pose proof (str_nat_digits (n / 10 ^ Z.of_nat p)) as Hd.
  pose proof (str_nat_nonempty (n / 10 ^ Z.of_nat p)) as Hn.
  destruct (str_nat (n / 10 ^ Z.of_nat p)) as [|c ip] eqn:E; [discriminate|].
  assert (is_digit c = true) as Hc by (simpl in Hd; now apply andb_true_iff in Hd).
  cbn [append]. rewrite (digit_not_minus c Hc).
  change (String c (ip ++ ?r)) with (String c ip ++ r).
  destruct p as [|p].
  - rewrite span_app by (auto). reflexivity.
  - rewrite span_app by (auto). cbn [nonempty andb].
    change ("." ++ ?r) with (String "."%char r). cbv iota beta.
    unfold all_digits. rewrite fixed_digits_every, fixed_digits_length.
    now rewrite Nat.eqb_refl.
Qed.

Lemma signed_fixed_body_shape s n p :
  is_fixed_point p (sign_text s ++ fixed_body n p) = true.
Proof.
  destruct s; [|apply fixed_body_shape].
  pose proof (fixed_body_shape n p) as H.
  unfold is_fixed_point in *. cbn [sign_text append].
  change (Ascii.eqb "-" "-") with true. cbv iota.
  pose proof (str_nat_digits (n / 10 ^ Z.of_nat p)) as Hd.
  pose proof (str_nat_nonempty (n / 10 ^ Z.of_nat p)) as Hn.
  unfold fixed_body in *.
  destruct (str_nat (n / 10 ^ Z.of_nat p)) as [|c ip] eqn:E; [discriminate|].
  assert (is_digit c = true) as Hc by (simpl in Hd; now apply andb_true_iff in Hd).
  cbn [append] in H. now rewrite (digit_not_minus c Hc) in H.
Qed.

(** The ["f"] rendering of a finite double is a fixed-point decimal with
    exactly the requested number of digits after the point. *)
Lemma format_fixed_shape f p :
  is_finite f = true -> is_fixed_point p (format_fixed f p) = true.
Proof.
  destruct f; simpl; intros H; try discriminate; apply signed_fixed_body_shape.
Qed.

End TextFacts.

(** ** Floats: conversion from an int never yields a NaN *)

Section FloatFacts.

Import Py.

Lemma shr_1_nonneg mrs : 0 <= shr_m mrs -> 0 <= shr_m (shr_1 mrs).
Proof.
  destruct mrs as [m r s]. simpl. intros H.
  destruct m as [|q|q]; [simpl; lia| |lia].
  destruct q; simpl; lia.
Qed.

Lemma iter_pos_invariant {A : Type} (P : A -> Prop) (f : A -> A) :
  (forall x, P x -> P (f x)) -> forall n x, P x -> P (iter_pos f n x).
Proof.
  intros Hf. induction n as [n IH|n IH|]; simpl; intros x Hx; auto.
Qed.

Lemma shr_record_of_loc_m m l : shr_m (shr_record_of_loc m l) = m.
Proof. destruct l as [|[]]; reflexivity. Qed.

Lemma shr_fexp_nonneg m e l :
  0 <= m -> 0 <= shr_m (fst (shr_fexp prec emax m e l)).
Proof.
  intros H. unfold shr_fexp, shr.
  destruct (fexp prec emax (Zdigits2 m + e) - e) as [|n|n]; simpl;
    rewrite ?shr_record_of_loc_m; try exact H.
  apply (iter_pos_invariant (fun r => 0 <= shr_m r)).
  - apply shr_1_nonneg.
  - now rewrite shr_record_of_loc_m.
Qed.

Lemma round_nearest_even_nonneg m l : 0 <= m -> 0 <= round_nearest_even m l.
Proof.
  intros H. destruct l as [|[]]; simpl; try lia. destruct (Z.even m); lia.
Qed.

Lemma binary_round_aux_not_nan s m e l :
  0 <= m -> binary_round_aux prec emax s m e l <> S754_nan.
Proof.
  intros H. unfold binary_round_aux.
  pose proof (shr_fexp_nonneg m e l H) as H1.
  destruct (shr_fexp prec emax m e l) as [mrs' e'] eqn:E1. simpl in H1.
  pose proof (shr_fexp_nonneg
                (round_nearest_even (shr_m mrs') (loc_of_shr_record mrs'))
                e' loc_Exact (round_nearest_even_nonneg _ _ H1)) as H2.
  destruct (shr_fexp prec emax _ e' loc_Exact) as [mrs'' e''] eqn:E2.
  simpl in H2. destruct (shr_m mrs'') as [|q|q]; try discriminate.
  - destruct (e'' <=? emax - prec); discriminate.
  - lia.
Qed.

Lemma binary_normalize_not_nan m e s :
  binary_normalize prec emax m e s <> S754_nan.
Proof.
  destruct m as [|q|q]; simpl; try discriminate;
    unfold binary_round;
    destruct (shl_align q e _) as [mz ez];
    apply binary_round_aux_not_nan; lia.
Qed.

(** [float(z)] is a finite double whenever it does not overflow. *)
Lemma float_of_int_finite z f : float_of_int z = Ret f -> is_finite f = true.
Proof.
  unfold float_of_int. intros H.
  pose proof (binary_normalize_not_nan z 0 false) as Hn.
  destruct (binary_normalize prec emax z 0 false); inversion H; subst;
    try reflexivity. congruence.
Qed.

End FloatFacts.

(** ** The sensor's update cycle *)

Section SensorUpdate.

Import Py.
Import Sensor.

Variable float_repr : float -> string.
Variable hub : Hub.t.

Lemma update_failure self t :
  Hub.transport_failure (hub t (read_call self)) ->
  update float_repr hub (self, t)
  = ((set_available false self, (t ++ [Hub.Called (read_call self)])%list),
     Ret tt).
Proof.
  intros [H|H]; unfold update, Method.bind, Method.get, Method.ask; simpl;
    rewrite H; reflexivity.
Qed.

Lemma update_success self t regs v :
  hub t (read_call self) = Hub.Registers regs ->
  decode_registers float_repr self (ordered self regs) = Ret v ->
  update float_repr hub (self, t)
  = ((set_available true (set_value v self),
      (t ++ [Hub.Called (read_call self)])%list), Ret tt).
Proof.
  intros H Hd. unfold update, Method.bind, Method.get, Method.ask; simpl.
  rewrite H. simpl. unfold Method.lift. rewrite Hd. reflexivity.
Qed.

Lemma update_decode_raises self t regs e :
  hub t (read_call self) = Hub.Registers regs ->
  decode_registers float_repr self (ordered self regs) = Raise e ->
  update float_repr hub (self, t)
  = ((self, (t ++ [Hub.Called (read_call self)])%list), Raise e).
Proof.
  intros H Hd. unfold update, Method.bind, Method.get, Method.ask; simpl.
  rewrite H. simpl. unfold Method.lift. rewrite Hd. reflexivity.
Qed.

(** C6. When the read of an update fails (the hub raises a connection
    exception, or returns an exception object), the update returns
    normally with the sensor unavailable and the cached value as it was;
    and when the next update reads registers that decode, the sensor is
    available again and holds the newly decoded value. *)
Theorem sensor_failure_keeps_value_then_recovers self t :
  Hub.transport_failure (hub t (read_call self)) ->
  let after := update float_repr hub (self, t) in
  Method.outcome after = Ret tt /\
  _available (Method.entity after) = false /\
  _value (Method.entity after) = _value self /\
  forall regs v,
    hub (Method.events after) (read_call (Method.entity after))
      = Hub.Registers regs ->
    decode_registers float_repr (Method.entity after)
      (ordered (Method.entity after) regs) = Ret v ->
    let next := update float_repr hub (Method.entity after, Method.events after) in
    Method.outcome next = Ret tt /\
    _available (Method.entity next) = true /\
    _value (Method.entity next) = Some v.
Proof.
  intros Hf after. subst after. rewrite (update_failure _ _ Hf).
  unfold Method.outcome, Method.entity, Method.events. simpl.
  split; [reflexivity|]. split; [reflexivity|]. split; [reflexivity|].
  intros regs v Hr Hd.
  rewrite (update_success _ _ _ _ Hr Hd). simpl. auto.
Qed.

End SensorUpdate.

(** ** Bit extraction *)

Section BitFacts.

Import Py Spec.
Import Sensor.

Lemma to_bytes2_word w :
  word w = true -> to_bytes2 w = Ret [w / 256; w mod 256].
Proof. unfold word, to_bytes2. now intros ->. Qed.

Lemma rmapM_to_bytes2 ws :
  forallb word ws = true ->
  rmapM to_bytes2 ws = Ret (map (fun w => [w / 256; w mod 256]) ws).
Proof.
  induction ws as [|w ws IH]; simpl; intros H; [reflexivity|].
  apply andb_true_iff in H as [Hw Hws].
  now rewrite (to_bytes2_word _ Hw), (IH Hws).
Qed.

Lemma format_08b_pair w :
  (format_08b (w / 256) ++ format_08b (w mod 256))%list = word_bits w.
Proof.
  unfold format_08b, word_bits, bit_char. cbn [map app].
  change 256 with (2 ^ 8).
  rewrite !Z.div_pow2_bits by lia.
  rewrite !Z.mod_pow2_bits_low by lia.
  reflexivity.
Qed.

Lemma bits_of_words ws :
  List.concat (map format_08b
                 (List.concat (map (fun w => [w / 256; w mod 256]) ws)))
  = bit_string ws.
Proof.
  induction ws as [|w ws IH]; [reflexivity|].
  unfold bit_string in *. cbn [map List.concat flat_map app].
  rewrite IH, <- format_08b_pair, <- app_assoc. reflexivity.
Qed.

Lemma bit_string_length ws :
  Z.of_nat (List.length (bit_string ws)) = 16 * Z.of_nat (List.length ws).
Proof.
  induction ws as [|w ws IH]; [reflexivity|].
  cbn [bit_string flat_map]. rewrite List.length_app.
  change (flat_map word_bits ws) with (bit_string ws).
  change (List.length (word_bits w)) with 16%nat.
  cbn [List.length]. lia.
Qed.

Lemma bit_string_app ws w : bit_string (ws ++ [w]) = (bit_string ws ++ word_bits w)%list.
Proof.
  unfold bit_string. rewrite flat_map_app. cbn [flat_map].
  now rewrite app_nil_r.
Qed.

Lemma be_words_snoc ws w : be_words (ws ++ [w]) = be_words ws * 65536 + w.
Proof. unfold be_words. now rewrite fold_left_app. Qed.

Lemma word_bits_nth w i :
  0 <= i < 16 ->
  nth_error (word_bits w) (Z.to_nat (15 - i)) = Some (bit_char (Z.testbit w i)).
Proof.
  intros H.
  assert (i = 0 \/ i = 1 \/ i = 2 \/ i = 3 \/ i = 4 \/ i = 5 \/ i = 6 \/
          i = 7 \/ i = 8 \/ i = 9 \/ i = 10 \/ i = 11 \/ i = 12 \/ i = 13 \/
          i = 14 \/ i = 15) as Hi by lia.
  repeat (destruct Hi as [-> | Hi]; [reflexivity|]). now subst.
Qed.

(** Counting from the right end of the bit string, character [i] is bit
    [i] of the integer the words spell. *)
Lemma bit_string_nth ws : forall i,
  forallb word ws = true ->
  0 <= i < 16 * Z.of_nat (List.length ws) ->
  nth_error (bit_string ws)
            (Z.to_nat (16 * Z.of_nat (List.length ws) - 1 - i))
  = Some (bit_char (Z.testbit (be_words ws) i)).
Proof.
  induction ws as [|w ws IH] using rev_ind; intros i Hw Hi.
  - simpl in Hi. lia.
  - rewrite forallb_app in Hw. apply andb_true_iff in Hw as [Hws Hw].
    simpl in Hw. rewrite andb_true_r in Hw. unfold word in Hw.
    apply andb_true_iff in Hw as [Hw0 Hw1].
    apply Z.leb_le in Hw0. apply Z.ltb_lt in Hw1.
    rewrite List.length_app in *. cbn [List.length] in *.
    rewrite bit_string_app, be_words_snoc.
    pose proof (bit_string_length ws) as HL.
    change 65536 with (2 ^ 16).
    destruct (Z_lt_dec i 16) as [Hlt|Hge].
    + rewrite nth_error_app2 by lia.
      replace (Z.to_nat (16 * Z.of_nat (List.length ws + 1) - 1 - i)
               - List.length (bit_string ws))%nat
        with (Z.to_nat (15 - i)) by lia.
      rewrite word_bits_nth by lia.
      rewrite <- (Z.mod_pow2_bits_low (be_words ws * 2 ^ 16 + w) 16 i) by lia.
      rewrite Z.add_comm, Z.mod_add by lia.
      rewrite Z.mod_small by lia. reflexivity.
    + rewrite nth_error_app1 by lia.
      replace (Z.to_nat (16 * Z.of_nat (List.length ws + 1) - 1 - i))
        with (Z.to_nat (16 * Z.of_nat (List.length ws) - 1 - (i - 16))) by lia.
      rewrite IH by (auto; lia).
      replace i with ((i - 16) + 16) at 2 by lia.
      rewrite <- Z.div_pow2_bits by lia.
      rewrite Z.div_add_l by lia.
      rewrite Z.div_small by lia. now rewrite Z.add_0_r.
Qed.

Lemma index_from_right {A : Type} (l : list A) (b : Z) :
  1 <= b <= Z.of_nat (List.length l) ->
  index l (Z.of_nat (List.length l) - b)
  = match nth_error l (Z.to_nat (Z.of_nat (List.length l) - b)) with
    | Some a => Ret a
    | None => Raise IndexError
    end.
Proof.
  intros H. unfold index.
  destruct (Z.ltb_spec (Z.of_nat (List.length l) - b) 0); [lia|].
  destruct (Z.leb_spec 0 (Z.of_nat (List.length l) - b)); [|lia].
  destruct (Z.ltb_spec (Z.of_nat (List.length l) - b) (Z.of_nat (List.length l)));
    [|lia].
  reflexivity.
Qed.

Section Decode.

Variable float_repr : float -> string.

Lemma decode_bit self ws b :
  configured_bit self = Some b ->
  forallb word ws = true ->
  1 <= b <= 16 * Z.of_nat (List.length ws) ->
  decode_registers float_repr self ws
  = Ret (String (bit_char (Z.testbit (be_words ws) (b - 1))) "").
Proof.
  intros Hb Hw Hr. unfold decode_registers.
  rewrite (rmapM_to_bytes2 _ Hw). cbn [rbind]. rewrite Hb.
  rewrite bits_of_words.
  pose proof (bit_string_length ws) as HL.
  rewrite index_from_right by lia.
  rewrite HL.
  replace (16 * Z.of_nat (List.length ws) - b)
    with (16 * Z.of_nat (List.length ws) - 1 - (b - 1)) by lia.
  rewrite bit_string_nth by (auto; lia). reflexivity.
Qed.

End Decode.

End BitFacts.

(** ** The numbers [struct.unpack] returns *)

Section StructFacts.

Import Py.
Import Struct.

Lemma Forall_firstn {A : Type} (P : A -> Prop) n : forall l,
  Forall P l -> Forall P (firstn n l).
Proof.
  induction n as [|n IH]; intros l H; [constructor|].
  destruct H as [|x l Hx Hl]; [constructor|].
  cbn [firstn]. constructor; [exact Hx|now apply IH].
Qed.

Lemma Forall_skipn {A : Type} (P : A -> Prop) n : forall l,
  Forall P l -> Forall P (skipn n l).
Proof.
  induction n as [|n IH]; intros l H; [exact H|].
  destruct H as [|x l Hx Hl]; [constructor|].
  cbn [skipn]. now apply IH.
Qed.

Lemma be_int_bound bs : forall acc,
  Forall (fun b => 0 <= b < 256) bs ->
  0 <= acc ->
  0 <= be_int bs acc < (acc + 1) * 256 ^ Z.of_nat (List.length bs).
Proof.
  induction bs as [|b bs IH]; intros acc H Hacc.
  - cbn [be_int List.length]. change (256 ^ Z.of_nat 0) with 1. lia.
  - inversion H as [|? ? Hb Hbs]; subst.
    cbn [be_int List.length]. rewrite Nat2Z.inj_succ, Z.pow_succ_r by lia.
    specialize (IH (acc * 256 + b) Hbs ltac:(lia)).
    assert (0 < 256 ^ Z.of_nat (List.length bs))
      by (apply Z.pow_pos_nonneg; lia).
    nia.
Qed.

Lemma be_int_word bs :
  Forall (fun b => 0 <= b < 256) bs ->
  (List.length bs <= 8)%nat ->
  0 <= be_int bs 0 < 2 ^ 64.
Proof.
  intros H Hl. pose proof (be_int_bound bs 0 H ltac:(lia)) as Hb.
  assert (256 ^ Z.of_nat (List.length bs) <= 256 ^ 8)
    by (apply Z.pow_le_mono_r; lia).
  change (256 ^ 8) with (2 ^ 64) in *. lia.
Qed.

Lemma signed_word n u :
  (n <= 8)%nat -> 0 <= u < 2 ^ 64 -> Z.abs (signed n u) < 2 ^ 65.
Proof.
  intros Hn Hu. unfold signed. cbv zeta.
  assert (0 <= 2 ^ (8 * Z.of_nat n) <= 2 ^ 64).
  { split; [apply Z.pow_nonneg; lia|apply Z.pow_le_mono_r; lia]. }
  change (2 ^ 65) with (2 * 2 ^ 64).
  destruct (u <? 2 ^ (8 * Z.of_nat n - 1)); lia.
Qed.

Lemma item_fields_sizes count c fs :
  item_fields count c = Some fs ->
  Forall (fun f => match f with
                   | SInt n | UInt n => (n <= 8)%nat
                   | _ => True
                   end) fs.
Proof.
  unfold item_fields. cbv zeta. intros H.
  destruct c as [[] [] [] [] [] [] [] []]; try discriminate H;
    injection H as <-;
    try (apply Forall_forall; intros f Hf; apply repeat_spec in Hf;
         subst f; lia);
    repeat constructor.
Qed.

Lemma parse_items_sizes s : forall count fs,
  parse_items s count = Some fs ->
  Forall (fun f => match f with
                   | SInt n | UInt n => (n <= 8)%nat
                   | _ => True
                   end) fs.
Proof.
  induction s as [|c s IH]; intros count fs; cbn [parse_items].
  - destruct count; [discriminate|]. intros [= <-]. constructor.
  - destruct (is_digit c); [apply IH|].
    destruct (is_space c).
    + destruct count; [discriminate|apply IH].
    + destruct (item_fields count c) as [fs1|] eqn:E1; [|discriminate].
      destruct (parse_items s None) as [fs2|] eqn:E2; [|discriminate].
      intros [= <-]. apply Forall_app. split.
      * exact (item_fields_sizes _ _ _ E1).
      * exact (IH _ _ E2).
Qed.

Lemma decode_field_word f bs v :
  match f with SInt n | UInt n => (n <= 8)%nat | _ => True end ->
  Forall (fun b => 0 <= b < 256) bs ->
  (List.length bs <= field_size f)%nat ->
  decode_field f bs = Ret (Some v) ->
  match v with VInt z => Z.abs z < 2 ^ 65 | _ => True end.
Proof.
  intros Hf Hb Hl H.
  destruct f; cbn [decode_field field_size] in *;
    try (injection H as <-; exact I); try discriminate H.
  - injection H as <-. apply signed_word; [exact Hf|].
    apply be_int_word; [exact Hb|lia].
  - injection H as <-.
    pose proof (be_int_word bs Hb ltac:(lia)).
    change (2 ^ 65) with (2 * 2 ^ 64). lia.
  - destruct bs; [discriminate|]. injection H as <-. exact I.
Qed.

Lemma decode_fields_words order fs : forall data vals,
  Forall (fun f => match f with
                   | SInt n | UInt n => (n <= 8)%nat
                   | _ => True
                   end) fs ->
  Forall (fun b => 0 <= b < 256) data ->
  decode_fields order fs data = Ret vals ->
  Forall (fun v => match v with VInt z => Z.abs z < 2 ^ 65 | _ => True end)
         vals.
Proof.
  induction fs as [|f fs IH]; intros data vals Hfs Hd; cbn [decode_fields].
  - intros [= <-]. constructor.
  - inversion Hfs as [|? ? Hf Hfs']; subst. cbv zeta.
    set (bs := match order with
               | BigEndian => firstn (field_size f) data
               | LittleEndian =>
                   if is_text f then firstn (field_size f) data
                   else rev (firstn (field_size f) data)
               end).
    assert (Forall (fun b => 0 <= b < 256) bs /\
            (List.length bs <= field_size f)%nat) as [Hbs Hlen].
    { pose proof (Forall_firstn _ (field_size f) _ Hd) as H1.
      pose proof (firstn_le_length (field_size f) data) as H2.
      subst bs. destruct order; [auto|].
      destruct (is_text f); [auto|].
      split; [now apply Forall_rev|now rewrite length_rev]. }
    destruct (decode_field f bs) as [v|e] eqn:Ef; [|discriminate].
    cbn [rbind].
    destruct (decode_fields order fs (skipn (field_size f) data))
      as [vs|e] eqn:Er; [|discriminate].
    cbn [rbind]. intros [= <-].
    pose proof (IH _ _ Hfs' (Forall_skipn _ _ _ Hd) Er) as Hvs.
    destruct v as [x|]; [|exact Hvs].
    constructor; [|exact Hvs].
    exact (decode_field_word _ _ _ Hf Hbs Hlen Ef).
Qed.

(** The ints [struct.unpack] returns have at most 64 bits. *)
Lemma unpack_words fmt data vals :
  Forall (fun b => 0 <= b < 256) data ->
  unpack fmt data = Ret vals ->
  Forall (fun v => match v with VInt z => Z.abs z < 2 ^ 65 | _ => True end)
         vals.
Proof.
  intros Hd. unfold unpack.
  destruct (every is_ascii fmt); cbn [negb]; [|discriminate].
  destruct (parse fmt) as [order [fs|]|] eqn:Ep; try discriminate.
  destruct (Nat.eqb (calcsize fs) (List.length data)); [|discriminate].
  intros H. refine (decode_fields_words _ _ _ _ _ Hd H).
  unfold parse in Ep.
  destruct fmt as [|c s]; [discriminate|].
  destruct c as [[] [] [] [] [] [] [] []]; try discriminate Ep;
    injection Ep as _ Ep; exact (parse_items_sizes _ _ _ Ep).
Qed.

Lemma to_bytes2_bytes x bs :
  Sensor.to_bytes2 x = Ret bs -> Forall (fun b => 0 <= b < 256) bs.
Proof.
  unfold Sensor.to_bytes2.
  destruct ((0 <=? x) && (x <? 65536)) eqn:E; [|discriminate].
  apply andb_true_iff in E as [E1 E2].
  apply Z.leb_le in E1. apply Z.ltb_lt in E2.
  intros [= <-]. repeat constructor.
  - apply Z.div_pos; lia.
  - apply Z.div_lt_upper_bound; lia.
  - apply Z.mod_pos_bound; lia.
  - apply Z.mod_pos_bound; lia.
Qed.

Lemma rmapM_to_bytes2_bytes ws : forall words,
  rmapM Sensor.to_bytes2 ws = Ret words ->
  Forall (fun b => 0 <= b < 256) (List.concat words).
Proof.
  induction ws as [|w ws IH]; intros words; cbn [rmapM].
  - intros [= <-]. constructor.
  - destruct (Sensor.to_bytes2 w) as [bs|] eqn:Ew; [|discriminate].
    cbn [rbind].
    destruct (rmapM Sensor.to_bytes2 ws) as [rest|]; [|discriminate].
    cbn [rbind]. intros [= <-]. cbn [List.concat].
    apply Forall_app. split; [exact (to_bytes2_bytes _ _ Ew)|now apply IH].
Qed.

Lemma str_of_int_small z :
  Z.abs z < 10 ^ int_max_str_digits -> str_of_int z = Ret (str_int z).
Proof.
  intros H. unfold str_of_int.
  destruct (Z.ltb_spec (Z.abs z) (10 ^ int_max_str_digits)); [reflexivity|lia].
Qed.

Lemma str_of_int_large z :
  10 ^ int_max_str_digits <= Z.abs z -> str_of_int z = Raise ValueError.
Proof.
  intros H. unfold str_of_int.
  destruct (Z.ltb_spec (Z.abs z) (10 ^ int_max_str_digits)); [lia|reflexivity].
Qed.

Lemma word_below_limit : 2 ^ 65 < 10 ^ int_max_str_digits.
Proof. apply Z.ltb_lt. vm_compute. reflexivity. Qed.

Lemma rmapM_str_of_value float_repr vals :
  Forall (fun v => match v with VInt z => Z.abs z < 2 ^ 65 | _ => True end)
         vals ->
  rmapM (str_of_value float_repr) vals = Ret (map (str float_repr) vals).
Proof.
  induction 1 as [|v vals Hv _ IH]; [reflexivity|].
  cbn [rmapM map]. rewrite IH.
  destruct v; cbn [str_of_value str rbind]; try reflexivity.
  rewrite str_of_int_small; [reflexivity|].
  pose proof word_below_limit. lia.
Qed.

End StructFacts.

(** ** The decoder *)

Section SensorClaims.

Import Py Spec Const.
Import Sensor.

Variable float_repr : float -> string.

Lemma decode_unpacked self ws words :
  configured_bit self = None ->
  String.eqb (_data_type self) DATA_TYPE_STRING = false ->
  rmapM to_bytes2 ws = Ret words ->
  decode_registers float_repr self ws
  = (val <- Struct.unpack (_structure self) (List.concat words) ;;
     if (1 <? Z.of_nat (List.length val)) then
       texts <- rmapM (str_of_value float_repr) val ;;
       Ret (join "," texts)
     else
       v <- index val 0 ;;
       match as_number v with
       | Some n => scaled self n
       | None => str_of_value float_repr v
       end)%result.
Proof.
  intros Hb Hs Hw. unfold decode_registers.
  rewrite Hw. cbn [rbind]. now rewrite Hb, Hs.
Qed.

Lemma decode_composite self ws words vals :
  configured_bit self = None ->
  String.eqb (_data_type self) DATA_TYPE_STRING = false ->
  rmapM to_bytes2 ws = Ret words ->
  Struct.unpack (_structure self) (List.concat words) = Ret vals ->
  (1 < List.length vals)%nat ->
  decode_registers float_repr self ws
  = Ret (join "," (map (str float_repr) vals)).
Proof.
  intros Hb Hs Hw Hu Hl. rewrite (decode_unpacked _ _ _ Hb Hs Hw), Hu.
  cbn [rbind].
  destruct (Z.ltb_spec 1 (Z.of_nat (List.length vals))); [|lia].
  rewrite rmapM_str_of_value; [reflexivity|].
  exact (unpack_words _ _ _ (rmapM_to_bytes2_bytes _ _ Hw) Hu).
Qed.

Lemma decode_single self ws words v n :
  configured_bit self = None ->
  String.eqb (_data_type self) DATA_TYPE_STRING = false ->
  rmapM to_bytes2 ws = Ret words ->
  Struct.unpack (_structure self) (List.concat words) = Ret [v] ->
  numeric v = Some n ->
  decode_registers float_repr self ws = scaled self n.
Proof.
  intros Hb Hs Hw Hu Hn. rewrite (decode_unpacked _ _ _ Hb Hs Hw), Hu.
  destruct v; inversion Hn; subst; reflexivity.
Qed.

(** C4. With a bit index [b] between 1 and the number of bits read, the
    update stores the one character, "0" or "1", found [b] places from
    the right end of the big-endian bit string of the words, which is
    bit [b - 1] of the integer they spell ([b] = 1 the least significant
    bit, [b] = 16 the most significant bit of a single word); the stored
    text is the same under any scale, offset, precision, data type
    (String too) and structure.  For the word 5 the bit index 1 gives
    "1" and the bit index 16 gives "0". *)
Theorem sensor_bit_index_selects_bit :
  (forall (hub : Hub.t) self t regs b,
     hub t (read_call self) = Hub.Registers regs ->
     configured_bit self = Some b ->
     forallb word regs = true ->
     1 <= b <= 16 * Z.of_nat (List.length regs) ->
     let ws := ordered self regs in
     let c := bit_char (Z.testbit (be_words ws) (b - 1)) in
     nth_error (bit_string ws)
               (Z.to_nat (Z.of_nat (List.length (bit_string ws)) - b))
       = Some c /\
     update float_repr hub (self, t) = stored self t (String c "") /\
     forall scale offset precision data_type structure,
       _value (Method.entity
                 (update float_repr hub
                    (reconfigured scale offset precision data_type structure
                       self, t)))
       = Some (String c "")) /\
  (forall self, configured_bit self = Some 1 ->
     decode_registers float_repr self [5] = Ret "1") /\
  (forall self, configured_bit self = Some 16 ->
     decode_registers float_repr self [5] = Ret "0").
Proof.
  split; [|split].
  - intros hub self t regs b Hr Hb Hw Hrange ws c.
    assert (forallb word ws = true) as Hws.
    { subst ws. unfold ordered. destruct (_reverse_order self); [|exact Hw].
      rewrite forallb_forall in *. intros x Hx. apply Hw.
      now apply in_rev. }
    assert (List.length ws = List.length regs) as Hlen.
    { subst ws. unfold ordered. destruct (_reverse_order self);
        [apply length_rev|reflexivity]. }
    split; [|split].
    + rewrite bit_string_length.
      replace (16 * Z.of_nat (List.length ws) - b)
        with (16 * Z.of_nat (List.length ws) - 1 - (b - 1)) by lia.
      apply bit_string_nth; [exact Hws|lia].
    + apply update_success with (regs := regs); [exact Hr|].
      apply decode_bit; [exact Hb|exact Hws|lia].
    + intros scale offset precision data_type structure.
      rewrite update_success with (regs := regs)
                                  (v := String c ""); [reflexivity|exact Hr|].
      apply decode_bit; [exact Hb|exact Hws|lia].
  - intros self Hb. now rewrite (decode_bit float_repr self [5] 1 Hb).
  - intros self Hb. now rewrite (decode_bit float_repr self [5] 16 Hb).
Qed.

(** C7. When the structure unpacks into more than one scalar, the update
    stores the texts of all of them, in order, joined by commas; the
    stored text is the same under any scale, offset and precision. *)
Theorem sensor_composite_is_joined_unscaled (hub : Hub.t) self t regs words vals :
  hub t (read_call self) = Hub.Registers regs ->
  configured_bit self = None ->
  String.eqb (_data_type self) DATA_TYPE_STRING = false ->
  rmapM to_bytes2 (ordered self regs) = Ret words ->
  Struct.unpack (_structure self) (List.concat words) = Ret vals ->
  (1 < List.length vals)%nat ->
  update float_repr hub (self, t)
  = stored self t (join "," (map (str float_repr) vals)) /\
  forall scale offset precision,
    _value (Method.entity
              (update float_repr hub
                 (reconfigured scale offset precision (_data_type self)
                    (_structure self) self, t)))
    = Some (join "," (map (str float_repr) vals)).
Proof.
  intros Hr Hb Hs Hw Hu Hl. split.
  - apply update_success with (regs := regs); [exact Hr|].
    now apply decode_composite with (words := words).
  - intros scale offset precision.
    rewrite update_success
      with (regs := regs) (v := join "," (map (str float_repr) vals));
      [reflexivity|exact Hr|].
    now apply decode_composite with (words := words).
Qed.

Lemma scaled_result self n val :
  (x <- mul (_scale self) n ;; add x (_offset self))%result = Ret val ->
  scaled self n
  = match val, _precision self with
    | NInt z, O => str_of_int z
    | _, p => (f <- to_float val ;; format_f f p)%result
    end.
Proof.
  unfold scaled. destruct (mul (_scale self) n) as [x|e]; cbn [rbind];
    [|discriminate].
  intros ->. cbn [rbind]. destruct val, (_precision self); reflexivity.
Qed.

Lemma format_fixed_not_finite f p :
  is_finite f = false ->
  format_fixed f p = "inf" \/ format_fixed f p = "-inf" \/
  format_fixed f p = "nan".
Proof. destruct f as [s|[|]| |s m e]; simpl; intros H; try discriminate; auto. Qed.

Lemma format_f_small f p :
  Z.of_nat p < 2 ^ 31 -> format_f f p = Ret (format_fixed f p).
Proof.
  intros H. unfold format_f.
  destruct (Z.ltb_spec (Z.of_nat p) (2 ^ 31)); [reflexivity|lia].
Qed.

Lemma format_f_large f p :
  2 ^ 31 <= Z.of_nat p -> format_f f p = Raise ValueError.
Proof.
  intros H. unfold format_f.
  destruct (Z.ltb_spec (Z.of_nat p) (2 ^ 31)); [lia|reflexivity].
Qed.

(** C1, as the code has it. When the structure unpacks into one int or
    float [v] (no bit index, data type not String) and [scale * v +
    offset] evaluates to [val]: if [val] is an int and the precision is
    0, the update stores the plain decimal text of [val], provided it
    has no more digits than [str] converts; otherwise, for a precision
    below 2^31, it stores the ["f"] rendering of [float(val)] at the
    configured precision, which is a fixed-point decimal with exactly
    that many digits after the point whenever the float is finite
    (always so when [val] is an int), and is "inf", "-inf" or "nan" when
    it is not.  Beyond either limit the update raises [ValueError] and
    stores nothing.  The raw integer 100 with scale 2 and offset 5 gives
    "205" at precision 0 and "205.0" at precision 1. *)
Theorem sensor_single_scalar_rendering :
  (forall (hub : Hub.t) self t regs words v n val,
     hub t (read_call self) = Hub.Registers regs ->
     configured_bit self = None ->
     String.eqb (_data_type self) DATA_TYPE_STRING = false ->
     rmapM to_bytes2 (ordered self regs) = Ret words ->
     Struct.unpack (_structure self) (List.concat words) = Ret [v] ->
     numeric v = Some n ->
     (x <- mul (_scale self) n ;; add x (_offset self))%result = Ret val ->
     let raised :=
       update float_repr hub (self, t)
       = ((self, (t ++ [Hub.Called (read_call self)])%list),
          Raise ValueError) in
     match val, _precision self with
     | NInt z, O =>
         (Z.abs z < 10 ^ int_max_str_digits ->
          update float_repr hub (self, t) = stored self t (str_int z)) /\
         (10 ^ int_max_str_digits <= Z.abs z -> raised)
     | _, p =>
         forall f, to_float val = Ret f ->
           (Z.of_nat p < 2 ^ 31 ->
            update float_repr hub (self, t)
            = stored self t (format_fixed f p) /\
            (is_finite f = true ->
               is_fixed_point p (format_fixed f p) = true) /\
            (is_finite f = false ->
               format_fixed f p = "inf" \/ format_fixed f p = "-inf" \/
               format_fixed f p = "nan") /\
            (forall z, val = NInt z -> is_finite f = true)) /\
           (2 ^ 31 <= Z.of_nat p -> raised)
     end) /\
  update float_repr (Examples.answering (Hub.Registers [100]))
         (Examples.int_sensor 0, [])
  = stored (Examples.int_sensor 0) [] "205" /\
  update float_repr (Examples.answering (Hub.Registers [100]))
         (Examples.int_sensor 1, [])
  = stored (Examples.int_sensor 1) [] "205.0".
Proof.
  split; [|split; vm_compute; reflexivity].
  intros hub self t regs words v n val Hr Hb Hs Hw Hu Hn Hval raised.
  pose proof (decode_single self _ _ _ _ Hb Hs Hw Hu Hn) as Hd.
  rewrite (scaled_result _ _ _ Hval) in Hd.
  assert (forall p f, to_float val = Ret f ->
            decode_registers float_repr self (ordered self regs)
            = (f <- to_float val ;; format_f f p)%result ->
            (Z.of_nat p < 2 ^ 31 ->
             update float_repr hub (self, t)
             = stored self t (format_fixed f p) /\
             (is_finite f = true ->
                is_fixed_point p (format_fixed f p) = true) /\
             (is_finite f = false ->
                format_fixed f p = "inf" \/ format_fixed f p = "-inf" \/
                format_fixed f p = "nan") /\
             (forall z, val = NInt z -> is_finite f = true)) /\
            (2 ^ 31 <= Z.of_nat p -> raised)) as Hfloat.
  { intros p f Hf Hd'. rewrite Hf in Hd'. cbn [rbind] in Hd'. split.
    - intros Hp. rewrite (format_f_small _ _ Hp) in Hd'.
      split; [|split; [|split]].
      + now apply update_success with (regs := regs).
      + apply format_fixed_shape.
      + apply format_fixed_not_finite.
      + intros z ->. simpl in Hf. now apply float_of_int_finite in Hf.
    - intros Hp. rewrite (format_f_large _ _ Hp) in Hd'.
      now apply update_decode_raises with (regs := regs). }
  destruct val as [z|g]; destruct (_precision self) as [|p] eqn:Hp;
    cbv iota beta zeta.
  - split.
    + intros Hz. rewrite (str_of_int_small _ Hz) in Hd.
      now apply update_success with (regs := regs).
    + intros Hz. rewrite (str_of_int_large _ Hz) in Hd.
      now apply update_decode_raises with (regs := regs).
  - intros f Hf. now apply Hfloat.
  - intros f Hf. now apply Hfloat.
  - intros f Hf. now apply Hfloat.
Qed.

End SensorClaims.

(** ** The coil switch *)

Section CoilSwitchClaims.

Import Py.
Import CoilSwitch.

Variable hub : Hub.t.

Lemma write_coil_run self t coil value :
  _write_coil hub coil value (self, t)
  = ((set_available
        (match hub t (Hub.write_coil (_slave self) coil value) with
         | Hub.ConnectionException => false
         | _ => true
         end) self,
      (t ++ [Hub.Called (Hub.write_coil (_slave self) coil value)])%list),
     Ret tt).
Proof.
  unfold _write_coil, Method.bind, Method.get, Method.ask. simpl.
  destruct (hub t _); reflexivity.
Qed.

(** C8. A coil read that succeeds returns the first bit flag, masked
    with 1, and leaves the switch available; when the hub raises a
    connection exception or returns an exception object, the read
    returns [False] without raising and leaves the switch unavailable. *)
Theorem coil_read_returns_bit_or_false self t coil :
  let call := Hub.read_coils (_slave self) coil 1 in
  let after := _read_coil hub coil (self, t) in
  (forall b rest,
     hub t call = Hub.Bits (b :: rest) ->
     Method.outcome after = Ret (negb (Z.land (Z.b2z b) 1 =? 0)) /\
     negb (Z.land (Z.b2z b) 1 =? 0) = b /\
     _available (Method.entity after) = true) /\
  (Hub.transport_failure (hub t call) ->
     Method.outcome after = Ret false /\
     _available (Method.entity after) = false).
Proof.
  intros call after. subst call after.
  unfold _read_coil, Method.bind, Method.get, Method.ask. cbn [fst snd].
  split.
  - intros b rest H. rewrite H. cbn. destruct b; auto.
  - intros [H|H]; rewrite H; cbn; auto.
Qed.

(** C9. [turn_on] leaves the cached state on and [turn_off] leaves it
    off whatever the hub answers to the coil write; in particular after
    a write that failed with a connection exception the switch is
    unavailable and the cached state is nevertheless the commanded one. *)
Theorem coil_turn_sets_state_even_on_failed_write self t :
  let on := turn_on hub (self, t) in
  let off := turn_off hub (self, t) in
  (Method.outcome on = Ret tt /\ _is_on (Method.entity on) = Some true) /\
  (Method.outcome off = Ret tt /\ _is_on (Method.entity off) = Some false) /\
  (hub t (Hub.write_coil (_slave self) (_coil self) true)
     = Hub.ConnectionException ->
   _available (Method.entity on) = false /\
   _is_on (Method.entity on) = Some true) /\
  (hub t (Hub.write_coil (_slave self) (_coil self) false)
     = Hub.ConnectionException ->
   _available (Method.entity off) = false /\
   _is_on (Method.entity off) = Some false).
Proof.
  intros on off. subst on off.
  unfold turn_on, turn_off, Method.bind, Method.get.
  cbn [fst snd]. rewrite !write_coil_run.
  unfold Method.modify, Method.outcome, Method.entity. cbn.
  split; [split; reflexivity|]. split; [split; reflexivity|].
  split; intros H; rewrite H; split; reflexivity.
Qed.

End CoilSwitchClaims.

(** ** Configuration tokens *)

Section TokenFacts.

Import Py Spec.
Import RegisterSwitch.

Lemma is_digit_range c :
  is_digit c = true -> 0 <= digit_value c <= 9.
Proof.
  unfold is_digit, digit_value. cbv zeta. intros H.
  apply andb_true_iff in H as [H1 H2].
  apply Z.leb_le in H1. apply Z.leb_le in H2. lia.
Qed.

Lemma is_digit_not_upper c : is_digit c = true -> is_upper c = false.
Proof.
  unfold is_digit, is_upper. cbv zeta. intros H.
  apply andb_true_iff in H as [H1 H2].
  apply Z.leb_le in H1. apply Z.leb_le in H2.
  apply andb_false_iff. left. apply Z.leb_gt. lia.
Qed.

Lemma int_of_digits_acc_nonneg s : forall acc,
  every is_digit s = true -> 0 <= acc -> 0 <= int_of_digits_acc s acc.
Proof.
  induction s as [|c s IH]; cbn [int_of_digits_acc every];
    intros acc H Hacc; [exact Hacc|].
  apply andb_true_iff in H as [Hc Hs].
  apply IH; [exact Hs|]. pose proof (is_digit_range c Hc). lia.
Qed.

Lemma int_of_digits_nonneg s :
  every is_digit s = true -> 0 <= int_of_digits s.
Proof. intros H. apply int_of_digits_acc_nonneg; [exact H|lia]. Qed.

Lemma span_all p s : every p s = true -> span p s = (s, "").
Proof.
  intros H. induction s as [|c s IH]; simpl in *; [reflexivity|].
  apply andb_true_iff in H as [Hc Hs]. now rewrite Hc, (IH Hs).
Qed.

Lemma letters_parts s :
  letters s = true -> nonempty s = true /\ every is_upper s = true.
Proof. unfold letters, all_upper. intros H. now apply andb_true_iff in H. Qed.

Lemma digits_parts s :
  digits s = true -> nonempty s = true /\ every is_digit s = true.
Proof. unfold digits, all_digits. intros H. now apply andb_true_iff in H. Qed.

(** A well-formed token matches, and its groups are its parts. *)
Lemma token_match_token letters d1 d2 :
  Spec.letters letters = true ->
  digits d1 = true ->
  digits d2 = true ->
  token_match (token letters d1 d2)
  = Some (String "%"%char letters, d1, d2).
Proof.
  intros Hl H1 H2.
  apply letters_parts in Hl as [Hln Hl].
  apply digits_parts in H1 as [H1n H1].
  apply digits_parts in H2 as [H2n H2].
  unfold token_match, token.
  rewrite span_app; [|exact Hl|].
  - rewrite span_app; [|exact H1|reflexivity].
    rewrite (span_all _ _ H2).
    now rewrite Hln, H1n, H2n.
  - destruct d1 as [|c d1]; [discriminate|].
    simpl in H1. apply andb_true_iff in H1 as [Hc _].
    simpl. now rewrite (is_digit_not_upper c Hc).
Qed.

(** The digit groups of a match are digits. *)
Lemma token_match_digits s g1 g2 g3 :
  token_match s = Some (g1, g2, g3) ->
  every is_digit g2 = true /\ every is_digit g3 = true.
Proof.
  unfold token_match.
  destruct s as [|c r0]; [discriminate|].
  destruct (Ascii.eqb_spec c "%"%char) as [->|Hc].
  - destruct (span is_upper r0) as [letters r1].
    destruct (span is_digit r1) as [d1 r2] eqn:E1.
    destruct r2 as [|c2 r3]; [discriminate|].
    destruct (Ascii.eqb_spec c2 "."%char) as [->|Hc2].
    + destruct (span is_digit r3) as [d2 r4] eqn:E2.
      destruct (nonempty letters && nonempty d1 && nonempty d2 && at_end r4);
        [|discriminate].
      intros H. inversion H; subst.
      apply span_spec in E1 as (_ & E1 & _).
      apply span_spec in E2 as (_ & E2 & _). auto.
    + intros H. exfalso.
      destruct c2 as [[] [] [] [] [] [] [] []]; try discriminate H.
      now apply Hc2.
  - intros H. exfalso.
    destruct c as [[] [] [] [] [] [] [] []]; try discriminate H.
    now apply Hc.
Qed.

End TokenFacts.

(** ** The register switch *)

Section RegisterSwitchClaims.

Import Py Spec Const.
Import RegisterSwitch.

Lemma int_short s : short s -> int s = Ret (int_of_digits s).
Proof.
  unfold short, int. intros H.
  destruct (Z.leb_spec (Z.of_nat (String.length s)) int_max_str_digits);
    [reflexivity|lia].
Qed.

Lemma int_long s : ~ short s -> int s = Raise ValueError.
Proof.
  unfold short, int. intros H.
  destruct (Z.leb_spec (Z.of_nat (String.length s)) int_max_str_digits);
    [contradiction|reflexivity].
Qed.

Lemma short_dec s : short s \/ ~ short s.
Proof. unfold short. lia. Qed.

(** The constructor on matching tokens whose digit groups [int]
    converts. *)
Lemma init_accepts cfg g1 a1 b1 area a2 b2 :
  token_match (CONF_REGISTER cfg) = Some (g1, a1, b1) ->
  token_match (CONF_STATE cfg) = Some (area, a2, b2) ->
  short a1 -> short b1 -> short a2 -> short b2 ->
  __init__ cfg = Ret (constructed cfg a1 b1 area a2 b2).
Proof.
  intros Hr Hs H1 H2 H3 H4. unfold __init__. rewrite Hr.
  rewrite (int_short _ H1). cbn [rbind]. rewrite (int_short _ H2).
  cbn [rbind]. rewrite Hs, (int_short _ H3). cbn [rbind].
  rewrite (int_short _ H4). reflexivity.
Qed.

(** The constructor either builds the switch of its tokens' groups or
    raises [ValueError]. *)
Lemma init_outcome cfg :
  (exists g1 a1 b1 area a2 b2,
     token_match (CONF_REGISTER cfg) = Some (g1, a1, b1) /\
     token_match (CONF_STATE cfg) = Some (area, a2, b2) /\
     short a1 /\ short b1 /\ short a2 /\ short b2 /\
     __init__ cfg = Ret (constructed cfg a1 b1 area a2 b2)) \/
  __init__ cfg = Raise ValueError.
Proof.
  destruct (token_match (CONF_REGISTER cfg)) as [[[g1 a1] b1]|] eqn:Er.
  2:{ right. unfold __init__. now rewrite Er. }
  destruct (short_dec a1) as [H1|H1].
  2:{ right. unfold __init__. now rewrite Er, (int_long _ H1). }
  destruct (short_dec b1) as [H2|H2].
  2:{ right. unfold __init__. rewrite Er, (int_short _ H1). cbn [rbind].
      now rewrite (int_long _ H2). }
  destruct (token_match (CONF_STATE cfg)) as [[[area a2] b2]|] eqn:Es.
  2:{ right. unfold __init__.
      rewrite Er, (int_short _ H1). cbn [rbind].
      rewrite (int_short _ H2). cbn [rbind]. now rewrite Es. }
  destruct (short_dec a2) as [H3|H3].
  2:{ right. unfold __init__. rewrite Er, (int_short _ H1). cbn [rbind].
      rewrite (int_short _ H2). cbn [rbind].
      now rewrite Es, (int_long _ H3). }
  destruct (short_dec b2) as [H4|H4].
  2:{ right. unfold __init__. rewrite Er, (int_short _ H1). cbn [rbind].
      rewrite (int_short _ H2). cbn [rbind].
      rewrite Es, (int_short _ H3). cbn [rbind].
      now rewrite (int_long _ H4). }
  left. exists g1, a1, b1, area, a2, b2.
  repeat (split; [assumption || reflexivity|]).
  now apply init_accepts with (g1 := g1).
Qed.

Lemma init_constructed cfg sw :
  __init__ cfg = Ret sw ->
  exists g1 a1 b1 area a2 b2,
    token_match (CONF_REGISTER cfg) = Some (g1, a1, b1) /\
    token_match (CONF_STATE cfg) = Some (area, a2, b2) /\
    short a1 /\ short b1 /\ short a2 /\ short b2 /\
    sw = constructed cfg a1 b1 area a2 b2.
Proof.
  intros H.
  destruct (init_outcome cfg)
    as [(g1 & a1 & b1 & area & a2 & b2 & Hr & Hs & H1 & H2 & H3 & H4 & Hi)
       |Hi]; rewrite Hi in H; [|discriminate].
  injection H as <-. exists g1, a1, b1, area, a2, b2. auto 10.
Qed.

(** C5, as the code has it. For well-formed command and state tokens
    whose digit groups have no more digits than [int] converts, the
    constructor stores the command register as the command token's first
    digit group minus 1, the command bit as its second digit group plus
    1, the status register as the state token's first digit group, plus
    200 exactly when that token's area is %QX, and the status bit as its
    second digit group plus 1.  With a longer digit group the
    constructor raises [ValueError]. *)
Theorem register_switch_init_parses_tokens cfg l1 a1 b1 l2 a2 b2 :
  CONF_REGISTER cfg = token l1 a1 b1 ->
  CONF_STATE cfg = token l2 a2 b2 ->
  letters l1 = true -> digits a1 = true -> digits b1 = true ->
  letters l2 = true -> digits a2 = true -> digits b2 = true ->
  (short a1 /\ short b1 /\ short a2 /\ short b2 ->
   exists sw,
     __init__ cfg = Ret sw /\
     _register sw = int_of_digits a1 - 1 /\
     _bit_position sw = int_of_digits b1 + 1 /\
     _register_read sw
       = (if String.eqb l2 "QX" then int_of_digits a2 + 200
          else int_of_digits a2) /\
     _bit_read sw = int_of_digits b2 + 1 /\
     _command_on sw = [_bit_position sw] /\
     _command_off sw = [_bit_position sw] /\
     _state_on sw = [_register_read sw; _bit_read sw; _bit_read sw] /\
     _state_off sw = [_register_read sw; _bit_read sw; 0]) /\
  (~ (short a1 /\ short b1 /\ short a2 /\ short b2) ->
   __init__ cfg = Raise ValueError).
Proof.
  intros Hr Hs Hl1 Ha1 Hb1 Hl2 Ha2 Hb2.
  pose proof (token_match_token _ _ _ Hl1 Ha1 Hb1) as Hm1.
  pose proof (token_match_token _ _ _ Hl2 Ha2 Hb2) as Hm2.
  rewrite <- Hr in Hm1. rewrite <- Hs in Hm2.
  split.
  - intros (H1 & H2 & H3 & H4).
    exists (constructed cfg a1 b1 (String "%"%char l2) a2 b2).
    split; [now apply init_accepts with (g1 := String "%"%char l1)|].
    cbn. repeat split; reflexivity.
  - intros Hn.
    destruct (init_outcome cfg)
      as [(g1 & x1 & y1 & area & x2 & y2 & Er & Es & H1 & H2 & H3 & H4 & _)
         |Hi]; [|exact Hi].
    rewrite Hm1 in Er. rewrite Hm2 in Es.
    injection Er as _ <- <-. injection Es as _ <- <-.
    exfalso. apply Hn. auto.
Qed.

(** What the constructor guarantees about the lists [update] reads. *)
Lemma init_invariant cfg sw :
  __init__ cfg = Ret sw ->
  _slave sw = CONF_SLAVE cfg /\
  _verify_state sw = CONF_VERIFY_STATE cfg /\
  _state_on sw = [_register_read sw; _bit_read sw; _bit_read sw] /\
  _state_off sw = [_register_read sw; _bit_read sw; 0] /\
  1 <= _bit_read sw /\
  exists area digits bit,
    token_match (CONF_STATE cfg) = Some (area, digits, bit) /\
    _register_read sw
    = (if String.eqb area "%QX" then int_of_digits digits + 200
       else int_of_digits digits).
Proof.
  intros H.
  destruct (init_constructed _ _ H)
    as (g1 & a1 & b1 & area & a2 & b2 & _ & Es & _ & _ & _ & _ & ->).
  cbn.
  pose proof (token_match_digits _ _ _ _ Es) as [_ E3].
  pose proof (int_of_digits_nonneg _ E3).
  repeat split; try reflexivity; try lia.
  exists area, a2, b2. split; [exact Es|reflexivity].
Qed.

Lemma land_pow2 r k :
  0 <= k -> Z.land r (2 ^ k) = if Z.testbit r k then 2 ^ k else 0.
Proof.
  intros Hk. apply Z.bits_inj'. intros n Hn.
  rewrite Z.land_spec, Z.pow2_bits_eqb by lia.
  destruct (Z.eqb_spec k n) as [->|Hne].
  - destruct (Z.testbit r n); cbn [andb].
    + now rewrite Z.pow2_bits_true.
    + now rewrite Z.bits_0.
  - rewrite andb_false_r.
    destruct (Z.testbit r k).
    + now rewrite Z.pow2_bits_false.
    + now rewrite Z.bits_0.
Qed.

Lemma int_pow2_nonneg e : 0 <= e -> int_pow2 e = Ret (2 ^ e).
Proof.
  intros H. unfold int_pow2, pow2.
  destruct (Z.ltb_spec e 0); [lia|reflexivity].
Qed.

Lemma int_pow2_minus_one : int_pow2 (0 - 1) = Ret 0.
Proof. vm_compute. reflexivity. Qed.

(** A power of two fits the default integer up to [2^62]. *)
Lemma int64_pow2 k : 0 <= k -> int64 (2 ^ k) = (k <? 63).
Proof.
  intros Hk. unfold int64.
  assert (0 < 2 ^ k) by (apply Z.pow_pos_nonneg; lia).
  assert (0 < 2 ^ 63) by (apply Z.pow_pos_nonneg; lia).
  destruct (Z.ltb_spec k 63) as [Hlt|Hge].
  - assert (2 ^ k < 2 ^ 63) by (apply Z.pow_lt_mono_r; lia).
    apply andb_true_iff. split; [apply Z.leb_le|apply Z.ltb_lt]; lia.
  - assert (2 ^ 63 <= 2 ^ k) by (apply Z.pow_le_mono_r; lia).
    apply andb_false_iff. right. apply Z.ltb_ge. lia.
Qed.

Variable hub : Hub.t.

Lemma zzz_read_holding_run self t register :
  _zzz_read_register hub CALL_TYPE_REGISTER_HOLDING register (self, t)
  = let call := Hub.read_holding_registers (_slave self) register 1 in
    let t' := (t ++ [Hub.Called call])%list in
    match hub t call with
    | Hub.ConnectionException | Hub.ExceptionResponse =>
        ((set_available false self, t'), Ret None)
    | Hub.Registers [] => ((set_available true self, t'), Raise IndexError)
    | Hub.Registers (r :: _) => ((set_available true self, t'), Ret (Some r))
    | Hub.Bits _ | Hub.Written =>
        ((set_available true self, t'), Raise AttributeError)
    end.
Proof.
  unfold _zzz_read_register, Method.bind, Method.get, Method.ask.
  cbn [fst snd]. change (String.eqb _ _) with false. cbv iota zeta.
  destruct (hub t _) as [| |[|r rest]| |]; reflexivity.
Qed.

(** [update] with verification enabled, for any lists of three in the
    two state fields: one holding-register read at the first element of
    [_state_on], then by the reply. *)
Lemma update_run self t a bm bo a' bm' bf mask on off :
  _verify_state self = true ->
  _state_on self = [a; bm; bo] ->
  _state_off self = [a'; bm'; bf] ->
  int_pow2 (bm - 1) = Ret mask ->
  int_pow2 (bo - 1) = Ret on ->
  int_pow2 (bf - 1) = Ret off ->
  update hub (self, t)
  = let call := Hub.read_holding_registers (_slave self) a 1 in
    let t' := (t ++ [Hub.Called call])%list in
    match hub t call with
    | Hub.ConnectionException | Hub.ExceptionResponse =>
        ((set_available false self, t'), Raise TypeError)
    | Hub.Registers [] => ((set_available true self, t'), Raise IndexError)
    | Hub.Registers (r :: _) =>
        if int64 r && int64 mask then
          let value := Z.land r mask in
          if value =? on then
            ((set_is_on true (set_available true self), t'), Ret tt)
          else if value =? off then
            ((set_is_on false (set_available true self), t'), Ret tt)
          else
            ((set_available true self,
              (t' ++ [Hub.LoggedUnexpectedResponse
                        (_slave self) (_register self) value])%list), Ret tt)
        else ((set_available true self, t'), Raise OverflowError)
    | Hub.Bits _ | Hub.Written =>
        ((set_available true self, t'), Raise AttributeError)
    end.
Proof.
  intros Hv Hon Hoff Hm Ho Hf.
  unfold update. unfold Method.bind at 1. unfold Method.get at 1.
  cbn [fst snd]. rewrite Hv. cbn [negb]. rewrite Hon, Hoff.
  unfold Method.bind, Method.lift.
  change (index [a; bm; bo] 0) with (Ret a).
  change (index [a; bm; bo] 1) with (Ret bm).
  change (index [a; bm; bo] 2) with (Ret bo).
  change (index [a'; bm'; bf] 2) with (Ret bf).
  cbv iota beta. rewrite zzz_read_holding_run. cbv zeta.
  rewrite Hm, Ho, Hf.
  destruct (hub t _) as [| |[|r rest]| |]; try reflexivity.
  cbn [bitwise_and].
  destruct (int64 r && int64 mask); [|reflexivity].
  destruct (Z.land r mask =? on); [reflexivity|].
  destruct (Z.land r mask =? off); reflexivity.
Qed.

Lemma built_invariant cfg sw :
  built cfg sw ->
  _slave sw = CONF_SLAVE cfg /\
  _verify_state sw = CONF_VERIFY_STATE cfg /\
  _state_on sw = [_register_read sw; _bit_read sw; _bit_read sw] /\
  _state_off sw = [_register_read sw; _bit_read sw; 0] /\
  1 <= _bit_read sw /\
  exists area digits bit,
    token_match (CONF_STATE cfg) = Some (area, digits, bit) /\
    _register_read sw
    = (if String.eqb area "%QX" then int_of_digits digits + 200
       else int_of_digits digits).
Proof.
  intros (sw0 & Hi & ->). cbn. now apply init_invariant.
Qed.

(** [update] on a switch the constructor built: the mask is bit
    [_bit_read - 1], so the masked value is one of the two patterns;
    the mask fits the default integer when [_bit_read] is at most 63. *)
Lemma update_constructed cfg sw t :
  built cfg sw ->
  _verify_state sw = true ->
  update hub (sw, t)
  = let t' := (t ++ [Hub.Called (verify_call sw)])%list in
    match hub t (verify_call sw) with
    | Hub.ConnectionException | Hub.ExceptionResponse =>
        ((set_available false sw, t'), Raise TypeError)
    | Hub.Registers [] => ((set_available true sw, t'), Raise IndexError)
    | Hub.Registers (r :: _) =>
        if int64 r && (_bit_read sw <=? 63) then
          ((set_is_on (Z.testbit r (_bit_read sw - 1))
              (set_available true sw), t'), Ret tt)
        else ((set_available true sw, t'), Raise OverflowError)
    | Hub.Bits _ | Hub.Written =>
        ((set_available true sw, t'), Raise AttributeError)
    end.
Proof.
  intros Hi Hv.
  destruct (built_invariant _ _ Hi) as (_ & _ & Hon & Hoff & Hb & _).
  assert (int_pow2 (_bit_read sw - 1) = Ret (2 ^ (_bit_read sw - 1))) as Hm
    by (apply int_pow2_nonneg; lia).
  rewrite (update_run sw t _ _ _ _ _ _ _ _ _ Hv Hon Hoff Hm Hm
             int_pow2_minus_one).
  cbv zeta. unfold verify_call.
  destruct (hub t _) as [| |[|r rest]| |]; try reflexivity.
  rewrite int64_pow2 by lia.
  replace (_bit_read sw - 1 <? 63) with (_bit_read sw <=? 63)
    by (destruct (Z.leb_spec (_bit_read sw) 63),
                 (Z.ltb_spec (_bit_read sw - 1) 63); lia || reflexivity).
  destruct (int64 r && (_bit_read sw <=? 63)); [|reflexivity].
  rewrite land_pow2 by lia.
  assert (0 < 2 ^ (_bit_read sw - 1)) by (apply Z.pow_pos_nonneg; lia).
  destruct (Z.testbit r (_bit_read sw - 1)).
  - now rewrite Z.eqb_refl.
  - destruct (Z.eqb_spec 0 (2 ^ (_bit_read sw - 1))); [lia|reflexivity].
Qed.


(** C3 on the code. With verification enabled, when the read of an
    update fails (connection exception raised, or exception object
    returned) the switch becomes unavailable and its cached state stays
    as it was, but the update does not return: the missing register
    value reaches the bitwise AND and [TypeError] escapes to the caller. *)
Theorem register_switch_update_raises_on_failed_read cfg sw t :
  built cfg sw ->
  _verify_state sw = true ->
  Hub.transport_failure (hub t (verify_call sw)) ->
  let after := update hub (sw, t) in
  Method.outcome after = Raise TypeError /\
  _available (Method.entity after) = false /\
  _is_on (Method.entity after) = _is_on sw.
Proof.
  intros Hi Hv Hf after. subst after.
  rewrite (update_constructed _ _ _ Hi Hv). cbv zeta.
  destruct Hf as [Hf|Hf]; rewrite Hf; auto.
Qed.

Lemma built_with_verification cfg sw kind verify_register sw' :
  built cfg sw ->
  built (with_verification kind verify_register cfg) sw' ->
  verify_call sw' = verify_call sw /\
  _bit_read sw' = _bit_read sw /\
  _verify_state sw' = _verify_state sw.
Proof.
  intros (sw0 & Hi & ->) (sw0' & Hi' & ->).
  destruct (init_constructed _ _ Hi)
    as (g1 & a1 & b1 & area & a2 & b2 & Er & Es & _ & _ & _ & _ & ->).
  destruct (init_constructed _ _ Hi')
    as (g1' & a1' & b1' & area' & a2' & b2' & Er' & Es' & _ & _ & _ & _ & ->).
  cbn in Er', Es'. rewrite Er in Er'. rewrite Es in Es'.
  injection Er' as <- <- <-. injection Es' as <- <- <-. cbn. auto.
Qed.

(** C10. With verification enabled, an update makes exactly one call on
    the hub: a holding-register read of one register at the address
    parsed from the state token, which is [_state_on[0]].  The configured
    register kind and the verify-register override (stored, with the
    command register as default, in [_verify_register]) play no part:
    under any other kind and override the switch makes the same call and
    ends in the same state. *)
Theorem register_switch_verify_read_is_fixed cfg sw t :
  built cfg sw ->
  _verify_state sw = true ->
  (exists area digits bit,
     token_match (CONF_STATE cfg) = Some (area, digits, bit) /\
     let address :=
       if String.eqb area "%QX" then int_of_digits digits + 200
       else int_of_digits digits in
     index (_state_on sw) 0 = Ret address /\
     Method.events (update hub (sw, t))
     = (t ++ [Hub.Called
                (Hub.read_holding_registers (CONF_SLAVE cfg) address 1)])%list)
  /\
  _verify_register sw
  = match CONF_VERIFY_REGISTER cfg with
    | Some r => r
    | None => _register sw
    end /\
  forall kind verify_register sw',
    built (with_verification kind verify_register cfg) sw' ->
    _is_on sw' = _is_on sw ->
    let after := update hub (sw, t) in
    let after' := update hub (sw', t) in
    Method.events after' = Method.events after /\
    Method.outcome after' = Method.outcome after /\
    _is_on (Method.entity after') = _is_on (Method.entity after) /\
    _available (Method.entity after') = _available (Method.entity after).
Proof.
  intros Hi Hv.
  assert (forall o : (ModbusRegisterSwitch * Hub.trace) * result unit,
            o = update hub (sw, t) ->
            Method.events o = (t ++ [Hub.Called (verify_call sw)])%list)
    as Hevents.
  { intros o ->. rewrite (update_constructed _ _ _ Hi Hv). cbv zeta.
    destruct (hub t (verify_call sw)) as [| |[|r rest]| |]; try reflexivity.
    destruct (int64 r && (_bit_read sw <=? 63)); reflexivity. }
  split; [|split].
  - destruct (built_invariant _ _ Hi)
      as (Hs & _ & Hon & _ & _ & area & digits & bit & Hm & Ha).
    exists area, digits, bit. split; [exact Hm|]. cbv zeta.
    rewrite <- Ha, <- Hs. split.
    + rewrite Hon. reflexivity.
    + apply Hevents. reflexivity.
  - destruct Hi as (sw0 & Hi & ->).
    destruct (init_constructed _ _ Hi)
      as (g1 & a1 & b1 & area & a2 & b2 & _ & _ & _ & _ & _ & _ & ->).
    reflexivity.
  - intros kind verify_register sw' Hi' Hon after after'. subst after after'.
    destruct (built_with_verification _ _ _ _ _ Hi Hi') as (Hc & Hb & Hv').
    rewrite Hv in Hv'.
    rewrite (update_constructed _ _ _ Hi Hv).
    rewrite (update_constructed _ _ _ Hi' Hv'). cbv zeta.
    rewrite Hc, Hb.
    destruct (hub t (verify_call sw)) as [| |[|r rest]| |]; cbn; auto.
    destruct (int64 r && (_bit_read sw <=? 63)); cbn; auto.
Qed.

End RegisterSwitchClaims.

(** ** Concrete runs *)

(** Digit groups of a concrete text are within the limit of [int]. *)
Ltac short_groups :=
  unfold Spec.short, Py.int_max_str_digits; cbn [String.length];
  repeat split; lia.

Section Runs.

Import Py Spec Const Examples.

Example constructor_run : RegisterSwitch.__init__ switch_config = Ret switch.
Proof. reflexivity. Qed.

Example malformed_token_run :
  RegisterSwitch.__init__
    {| RegisterSwitch.CONF_NAME := "valve";
       RegisterSwitch.CONF_SLAVE := None;
       RegisterSwitch.CONF_REGISTER := "%MX40";
       RegisterSwitch.CONF_STATE := "%QX4.7";
       RegisterSwitch.CONF_VERIFY_STATE := true;
       RegisterSwitch.CONF_VERIFY_REGISTER := None;
       RegisterSwitch.CONF_REGISTER_TYPE := "holding" |}
  = Raise ValueError.
Proof. reflexivity. Qed.

(** [turn_on] on the register switch: the command write of [2^5] at
    register 400, the settle delay, then the verification read. *)
Example turn_on_run :
  RegisterSwitch.turn_on
    (fun _ c =>
       match c with
       | Hub.write_registers _ _ _ => Hub.Written
       | _ => Hub.Registers [128]
       end) (switch, [])
  = ((RegisterSwitch.in_state (Some true) true switch,
      [Hub.Called (Hub.write_registers (Some 1) 400 (NInt 32));
       Hub.Slept 1;
       Hub.Called (Hub.read_holding_registers (Some 1) 204 1)]), Ret tt).
Proof. vm_compute. reflexivity. Qed.

(** The coil switch against a hub that echoes the last written bit. *)
Example coil_echo_run :
  let after_on := CoilSwitch.turn_on echoing (coil_switch, []) in
  Method.outcome
    (CoilSwitch._read_coil echoing 3
       (Method.entity after_on, Method.events after_on))
  = Ret true.
Proof. vm_compute. reflexivity. Qed.

(** 1.5 as a single-precision float over two registers. *)
Example float_run :
  Sensor.update unused_float_repr (answering (Hub.Registers [16320; 0]))
                (float_sensor, [])
  = stored float_sensor [] "1.50".
Proof. vm_compute. reflexivity. Qed.

(** The String data type decodes the bytes as text, unscaled. *)
Example string_run :
  Sensor.decode_registers unused_float_repr
    (Sensor.reconfigured (NInt 2) (NInt 5) 1 "string" "4s" float_sensor)
    [16706; 17220]
  = Ret "ABCD".
Proof. vm_compute. reflexivity. Qed.

(** Reading [A; B] reversed is reading [B; A]. *)
Example reverse_run :
  Sensor.ordered
    (Sensor.__init__ "r" None 0 "holding" None 2 true (NInt 1) (NInt 0)
       ">i" 0 "int" None None) [1; 2]
  = [2; 1].
Proof. reflexivity. Qed.

(** A bit index beyond the bits read wraps around as a negative index
    does, and one beyond twice the bits raises. *)
Example bit_wrap_run :
  Sensor.decode_registers unused_float_repr (bit_sensor 17) [5] = Ret "1" /\
  Sensor.decode_registers unused_float_repr (bit_sensor 33) [5]
  = Raise IndexError.
Proof. vm_compute. split; reflexivity. Qed.

Lemma sensor_single_scalar_rendering_witness :
  Sensor.update unused_float_repr (answering (Hub.Registers [100]))
                (int_sensor 1, [])
  = stored (int_sensor 1) [] "205.0" /\
  is_fixed_point 1 "205.0" = true.
Proof.
  pose proof (proj1 (sensor_single_scalar_rendering unused_float_repr)
                (answering (Hub.Registers [100])) (int_sensor 1) []
                [100] [[0; 100]] (VInt 100) (NInt 100) (NInt 205)
                eq_refl eq_refl eq_refl eq_refl eq_refl eq_refl eq_refl) as H.
  destruct (proj1 (H _ eq_refl) eq_refl) as (H1 & H2 & _).
  split; [exact H1|exact (H2 eq_refl)].
Defined.

(** Two registers holding the single-precision encoding of infinity:
    the lone scalar is a float, the combined result is not an int, and
    the text stored at precision 2 is "inf", which is neither a
    fixed-point decimal with two digits after the point nor an integer
    text. *)
Lemma sensor_single_scalar_not_always_fixed_point :
  let self := float_sensor in
  let hub := answering (Hub.Registers [32640; 0]) in
  Sensor.configured_bit self = None /\
  String.eqb (Sensor._data_type self) DATA_TYPE_STRING = false /\
  Struct.unpack (Sensor._structure self) [127; 128; 0; 0]
    = Ret [VFloat (S754_infinity false)] /\
  (x <- mul (Sensor._scale self) (NFloat (S754_infinity false)) ;;
   add x (Sensor._offset self))%result = Ret (NFloat (S754_infinity false)) /\
  Sensor.update unused_float_repr hub (self, []) = stored self [] "inf" /\
  is_fixed_point (Sensor._precision self) "inf" = false /\
  is_fixed_point 0 "inf" = false.
Proof. vm_compute. repeat split. Qed.

Lemma sensor_bit_index_selects_bit_witness :
  Sensor.update unused_float_repr (answering (Hub.Registers [5]))
                (bit_sensor 1, [])
  = stored (bit_sensor 1) [] "1" /\
  Sensor.update unused_float_repr (answering (Hub.Registers [5]))
                (bit_sensor 16, [])
  = stored (bit_sensor 16) [] "0".
Proof.
  split.
  - exact (proj1 (proj2 (proj1 (sensor_bit_index_selects_bit unused_float_repr)
             (answering (Hub.Registers [5])) (bit_sensor 1) [] [5] 1
             eq_refl eq_refl eq_refl ltac:(simpl; lia)))).
  - exact (proj1 (proj2 (proj1 (sensor_bit_index_selects_bit unused_float_repr)
             (answering (Hub.Registers [5])) (bit_sensor 16) [] [5] 16
             eq_refl eq_refl eq_refl ltac:(simpl; lia)))).
Defined.

Lemma sensor_failure_keeps_value_then_recovers_witness :
  let hub := answering_then Hub.ConnectionException (Hub.Registers [100]) in
  let self := Sensor.set_value "7" (int_sensor 0) in
  let after := Sensor.update unused_float_repr hub (self, []) in
  let next :=
    Sensor.update unused_float_repr hub
      (Method.entity after, Method.events after) in
  Sensor._available (Method.entity after) = false /\
  Sensor._value (Method.entity after) = Some "7" /\
  Sensor._available (Method.entity next) = true /\
  Sensor._value (Method.entity next) = Some "205".
Proof.
  intros hub self after next.
  destruct (sensor_failure_keeps_value_then_recovers unused_float_repr hub
              self [] (or_introl eq_refl)) as (_ & H1 & H2 & H3).
  destruct (H3 [100] "205" eq_refl eq_refl) as (_ & H4 & H5).
  split; [exact H1|]. split; [exact H2|]. split; [exact H4|exact H5].
Defined.

Lemma sensor_composite_is_joined_unscaled_witness :
  Sensor.update unused_float_repr (answering (Hub.Registers [1; 2]))
                (pair_sensor, [])
  = stored pair_sensor [] "1,2".
Proof.
  exact (proj1 (sensor_composite_is_joined_unscaled unused_float_repr
                  (answering (Hub.Registers [1; 2])) pair_sensor []
                  [1; 2] [[0; 1]; [0; 2]] [VInt 1; VInt 2]
                  eq_refl eq_refl eq_refl eq_refl eq_refl
                  ltac:(simpl; lia))).
Defined.

Lemma coil_read_returns_bit_or_false_witness :
  Method.outcome
    (CoilSwitch._read_coil (answering (Hub.Bits [true])) 3 (coil_switch, []))
  = Ret true /\
  Method.outcome
    (CoilSwitch._read_coil (answering Hub.ConnectionException) 3
       (coil_switch, []))
  = Ret false /\
  CoilSwitch._available
    (Method.entity
       (CoilSwitch._read_coil (answering Hub.ConnectionException) 3
          (coil_switch, [])))
  = false.
Proof.
  destruct (proj1 (coil_read_returns_bit_or_false
                     (answering (Hub.Bits [true])) coil_switch [] 3)
                  true [] eq_refl) as (H1 & _).
  destruct (proj2 (coil_read_returns_bit_or_false
                     (answering Hub.ConnectionException) coil_switch [] 3)
                  (or_introl eq_refl)) as (H2 & H3).
  split; [exact H1|]. split; [exact H2|exact H3].
Defined.

Lemma coil_turn_sets_state_even_on_failed_write_witness :
  let on :=
    CoilSwitch.turn_on (answering Hub.ConnectionException) (coil_switch, []) in
  CoilSwitch._available (Method.entity on) = false /\
  CoilSwitch._is_on (Method.entity on) = Some true.
Proof.
  exact (proj1 (proj2 (proj2 (coil_turn_sets_state_even_on_failed_write
                                (answering Hub.ConnectionException)
                                coil_switch []))) eq_refl).
Defined.

Lemma register_switch_init_parses_tokens_witness :
  exists sw,
    RegisterSwitch.__init__ switch_config = Ret sw /\
    RegisterSwitch._register sw = 400 /\
    RegisterSwitch._bit_position sw = 6 /\
    RegisterSwitch._register_read sw = 204 /\
    RegisterSwitch._bit_read sw = 8 /\
    RegisterSwitch._command_on sw = [RegisterSwitch._bit_position sw] /\
    RegisterSwitch._command_off sw = [RegisterSwitch._bit_position sw] /\
    RegisterSwitch._state_on sw
    = [RegisterSwitch._register_read sw; RegisterSwitch._bit_read sw;
       RegisterSwitch._bit_read sw] /\
    RegisterSwitch._state_off sw
    = [RegisterSwitch._register_read sw; RegisterSwitch._bit_read sw; 0].
Proof.
  refine (proj1 (register_switch_init_parses_tokens switch_config
                   "MX" "401" "5" "QX" "4" "7"
                   eq_refl eq_refl eq_refl eq_refl eq_refl eq_refl eq_refl
                   eq_refl) _).
  short_groups.
Defined.

(** A command token whose register number has 4301 digits is well
    formed, yet the constructor raises [ValueError] on it: [int] does
    not convert that many digits. *)
Lemma register_switch_init_rejects_long_digit_group :
  RegisterSwitch.CONF_REGISTER long_config = token "MX" (ones 4301) "5" /\
  RegisterSwitch.CONF_STATE long_config = token "QX" "4" "7" /\
  letters "MX" = true /\ digits (ones 4301) = true /\ digits "5" = true /\
  letters "QX" = true /\ digits "4" = true /\ digits "7" = true /\
  RegisterSwitch.__init__ long_config = Raise ValueError.
Proof. vm_compute. repeat split. Qed.

Lemma switch_built o a : built switch_config (RegisterSwitch.in_state o a switch).
Proof. exists switch. split; reflexivity. Qed.



Lemma register_switch_update_raises_on_failed_read_witness :
  let on := RegisterSwitch.in_state (Some true) true switch in
  let after :=
    RegisterSwitch.update (answering Hub.ConnectionException) (on, []) in
  Method.outcome after = Raise TypeError /\
  RegisterSwitch._available (Method.entity after) = false /\
  RegisterSwitch._is_on (Method.entity after) = Some true.
Proof.
  exact (register_switch_update_raises_on_failed_read
           (answering Hub.ConnectionException) switch_config
           (RegisterSwitch.in_state (Some true) true switch) []
           (switch_built _ _) eq_refl (or_introl eq_refl)).
Defined.

Lemma register_switch_verify_read_is_fixed_witness :
  let sw' :=
      {| RegisterSwitch._name := "valve";
         RegisterSwitch._slave := Some 1;
         RegisterSwitch._is_on := None;
         RegisterSwitch._available := true;
         RegisterSwitch._register_type := "input";
         RegisterSwitch._register := 400;
         RegisterSwitch._bit_position := 6;
         RegisterSwitch._register_read_type := "%QX";
         RegisterSwitch._register_read := 204;
         RegisterSwitch._bit_read := 8;
         RegisterSwitch._command_on := [6];
         RegisterSwitch._command_off := [6];
         RegisterSwitch._state_on := [204; 8; 8];
         RegisterSwitch._state_off := [204; 8; 0];
         RegisterSwitch._verify_state := true;
         RegisterSwitch._verify_register := 999 |} in
  let hub := answering (Hub.Registers [128]) in
  Method.events (RegisterSwitch.update hub (sw', []))
  = Method.events (RegisterSwitch.update hub (switch, [])) /\
  Method.events (RegisterSwitch.update hub (switch, []))
  = [Hub.Called (Hub.read_holding_registers (Some 1) 204 1)].
Proof.
  intros sw' hub.
  destruct (register_switch_verify_read_is_fixed hub switch_config switch []
              (switch_built None true) eq_refl) as (H1 & _ & H2).
  split.
  - refine (proj1 (H2 "input" (Some 999) sw' _ eq_refl)).
    exists sw'. split; reflexivity.
  - destruct H1 as (area & digits & bit & Hm & _ & He).
    injection Hm as <- <- <-. exact He.
Defined.

End Runs.

(** * Further properties *)

(** ** The coil switch: update and echo *)

Section CoilSwitchMore.

Import Py Extra.
Import CoilSwitch.

Variable hub : Hub.t.

Lemma read_coil_run self t coil :
  _read_coil hub coil (self, t)
  = let call := Hub.read_coils (_slave self) coil 1 in
    let t' := (t ++ [Hub.Called call])%list in
    match hub t call with
    | Hub.ConnectionException | Hub.ExceptionResponse =>
        ((set_available false self, t'), Ret false)
    | Hub.Bits [] => ((set_available true self, t'), Raise IndexError)
    | Hub.Bits (b :: _) => ((set_available true self, t'), Ret b)
    | Hub.Registers _ | Hub.Written =>
        ((set_available true self, t'), Raise AttributeError)
    end.
Proof.
  unfold _read_coil, Method.bind, Method.get, Method.ask. cbn [fst snd].
  cbv zeta. destruct (hub t _) as [| | |[|[] rest]|]; reflexivity.
Qed.

Lemma coil_update_run self t :
  update hub (self, t)
  = let call := Hub.read_coils (_slave self) (_coil self) 1 in
    let t' := (t ++ [Hub.Called call])%list in
    match hub t call with
    | Hub.ConnectionException | Hub.ExceptionResponse =>
        ((set_is_on false (set_available false self), t'), Ret tt)
    | Hub.Bits [] => ((set_available true self, t'), Raise IndexError)
    | Hub.Bits (b :: _) =>
        ((set_is_on b (set_available true self), t'), Ret tt)
    | Hub.Registers _ | Hub.Written =>
        ((set_available true self, t'), Raise AttributeError)
    end.
Proof.
  unfold update, Method.bind, Method.get. cbn [fst snd].
  rewrite read_coil_run. cbv zeta.
  destruct (hub t _) as [| | |[|b rest]|]; reflexivity.
Qed.

(** The coil switch's [update] makes one call on the hub, a read of one
    bit at its coil, and takes the cached state from it: the first bit
    when bits come back, and off when the read fails, in which case the
    switch is also unavailable.  When the reply carries no bit the
    update raises [IndexError] with the cached state as it was and the
    switch marked available. *)
Theorem coil_update_follows_read self t :
  let call := Hub.read_coils (_slave self) (_coil self) 1 in
  let after := update hub (self, t) in
  Method.events after = (t ++ [Hub.Called call])%list /\
  (forall b rest,
     hub t call = Hub.Bits (b :: rest) ->
     Method.outcome after = Ret tt /\
     _is_on (Method.entity after) = Some b /\
     _available (Method.entity after) = true) /\
  (Hub.transport_failure (hub t call) ->
     Method.outcome after = Ret tt /\
     _is_on (Method.entity after) = Some false /\
     _available (Method.entity after) = false) /\
  (hub t call = Hub.Bits [] ->
     Method.outcome after = Raise IndexError /\
     _is_on (Method.entity after) = _is_on self /\
     _available (Method.entity after) = true).
Proof.
  intros call after. subst call after.
  rewrite coil_update_run. cbv zeta.
  split; [|split; [|split]].
  - destruct (hub t _) as [| | |[|b rest]|]; reflexivity.
  - intros b rest H. rewrite H. cbn. auto.
  - intros [H|H]; rewrite H; cbn; auto.
  - intros H. rewrite H. cbn. auto.
Qed.

Lemma last_written_app t : forall e address current,
  Examples.last_written (t ++ [e])%list address current
  = match e with
    | Hub.Called (Hub.write_coil _ a v) =>
        if a =? address then v
        else Examples.last_written t address current
    | _ => Examples.last_written t address current
    end.
Proof.
  induction t as [|x t IH]; intros e address current.
  - cbn. destruct e as [[]| |]; reflexivity.
  - cbn [app Examples.last_written].
    destruct x as [[]| |]; rewrite IH; reflexivity.
Qed.

(** Against a hub that echoes the last bit written to a coil, switching
    on and then updating leaves the switch on and available, and
    switching off and then updating leaves it off and available. *)
Theorem coil_write_then_update_reads_back self t :
  echoes hub ->
  let on := turn_on hub (self, t) in
  let off := turn_off hub (self, t) in
  let on' := update hub (Method.entity on, Method.events on) in
  let off' := update hub (Method.entity off, Method.events off) in
  (Method.outcome on' = Ret tt /\
   _is_on (Method.entity on') = Some true /\
   _available (Method.entity on') = true) /\
  (Method.outcome off' = Ret tt /\
   _is_on (Method.entity off') = Some false /\
   _available (Method.entity off') = true).
Proof.
  intros He on off on' off'. subst on off on' off'.
  unfold turn_on, turn_off. unfold Method.bind, Method.get.
  cbn [fst snd]. rewrite !write_coil_run.
  unfold Method.modify, Method.entity, Method.events. cbn [fst snd].
  rewrite !coil_update_run. cbv zeta.
  cbn [_slave _coil set_is_on set_available].
  rewrite !He, !last_written_app, !Z.eqb_refl. cbn. auto.
Qed.

End CoilSwitchMore.

(** ** Tokens the constructor accepts *)

Section TokenMore.

Import Py Spec Extra.
Import RegisterSwitch.

Lemma append_assoc (a b c : string) : (a ++ b) ++ c = a ++ (b ++ c).
Proof. induction a as [|x a IH]; cbn; [reflexivity|]. now rewrite IH. Qed.

Lemma at_end_cases s : at_end s = true -> s = "" \/ s = newline.
Proof.
  destruct s as [|c [|d s]]; cbn; intros H; try discriminate; auto.
  right. apply Ascii.eqb_eq in H. now subst.
Qed.

Lemma token_match_newline ls d1 d2 :
  letters ls = true -> digits d1 = true -> digits d2 = true ->
  token_match (token ls d1 d2 ++ newline)
  = Some (String "%"%char ls, d1, d2).
Proof.
  intros Hl H1 H2.
  apply letters_parts in Hl as [Hln Hl].
  apply digits_parts in H1 as [H1n H1].
  apply digits_parts in H2 as [H2n H2].
  unfold token_match, token. cbn [append].
  rewrite !append_assoc. cbn [append]. 
  rewrite span_app; [|exact Hl|].
  - rewrite span_app; [|exact H1|reflexivity].
    rewrite span_app; [|exact H2|reflexivity].
    now rewrite Hln, H1n, H2n.
  - destruct d1 as [|c d1]; [discriminate|].
    cbn in H1. apply andb_true_iff in H1 as [Hc _].
    cbn. now rewrite (is_digit_not_upper c Hc).
Qed.

Lemma token_match_sound s g1 g2 g3 :
  token_match s = Some (g1, g2, g3) ->
  exists ls,
    g1 = String "%"%char ls /\
    letters ls = true /\ digits g2 = true /\ digits g3 = true /\
    (s = token ls g2 g3 \/ s = token ls g2 g3 ++ newline).
Proof.
  unfold token_match.
  destruct s as [|c r0]; [discriminate|].
  destruct (Ascii.eqb_spec c "%"%char) as [->|Hc].
  - destruct (span is_upper r0) as [ls r1] eqn:E0.
    destruct (span is_digit r1) as [d1 r2] eqn:E1.
    destruct r2 as [|c2 r3]; [discriminate|].
    destruct (Ascii.eqb_spec c2 "."%char) as [->|Hc2].
    + destruct (span is_digit r3) as [d2 r4] eqn:E2.
      destruct (nonempty ls) eqn:Hn0; [|discriminate].
      destruct (nonempty d1) eqn:Hn1; [|discriminate].
      destruct (nonempty d2) eqn:Hn2; [|discriminate].
      destruct (at_end r4) eqn:He; [|discriminate].
      cbn [andb]. intros H. inversion H; subst; clear H.
      apply span_spec in E0 as (-> & E0 & _).
      apply span_spec in E1 as (-> & E1 & _).
      apply span_spec in E2 as (-> & E2 & _).
      exists ls. unfold letters, digits, all_upper, all_digits.
      rewrite Hn0, Hn1, Hn2, E0, E1, E2.
      repeat (split; [reflexivity|]).
      unfold token. apply at_end_cases in He as [-> | ->].
      * left. f_equal. f_equal. f_equal. f_equal.
        clear. induction g3 as [|x g3 IH]; cbn; [reflexivity|]. now rewrite IH.
      * right. cbn [append]. f_equal.
        rewrite !append_assoc. reflexivity.
    + intros H. exfalso.
      destruct c2 as [[] [] [] [] [] [] [] []]; try discriminate H.
      now apply Hc2.
  - intros H. exfalso.
    destruct c as [[] [] [] [] [] [] [] []]; try discriminate H.
    now apply Hc.
Qed.

Lemma well_formed_matches s :
  well_formed s <->
  exists g1 g2 g3, token_match s = Some (g1, g2, g3) /\ short g2 /\ short g3.
Proof.
  split.
  - intros (ls & d1 & d2 & Hl & H1 & H2 & Hs1 & Hs2 & [-> | ->]).
    + exists (String "%"%char ls), d1, d2.
      split; [now apply token_match_token|auto].
    + exists (String "%"%char ls), d1, d2.
      split; [now apply token_match_newline|auto].
  - intros (g1 & g2 & g3 & H & Hs1 & Hs2).
    apply token_match_sound in H as (ls & _ & Hl & H1 & H2 & Hs).
    exists ls, g2, g3. auto 10.
Qed.

(** The constructor's pattern accepts exactly the tokens: a percent
    sign, one or more upper-case letters, digits, a point and digits,
    optionally followed by one newline; the three groups are the area
    with its percent sign and the two digit runs. *)
Theorem token_match_accepts_exactly_tokens s g1 g2 g3 :
  token_match s = Some (g1, g2, g3) <->
  exists ls,
    g1 = String "%"%char ls /\
    letters ls = true /\ digits g2 = true /\ digits g3 = true /\
    (s = token ls g2 g3 \/ s = token ls g2 g3 ++ newline).
Proof.
  split; [apply token_match_sound|].
  intros (ls & -> & Hl & H1 & H2 & [-> | ->]).
  - now apply token_match_token.
  - now apply token_match_newline.
Qed.

Lemma well_formed_accepted cfg :
  well_formed (CONF_REGISTER cfg) -> well_formed (CONF_STATE cfg) ->
  exists sw, __init__ cfg = Ret sw.
Proof.
  intros Hr Hs.
  apply well_formed_matches in Hr as (g1 & a1 & b1 & Hr & H1 & H2).
  apply well_formed_matches in Hs as (area & a2 & b2 & Hs & H3 & H4).
  eexists. exact (init_accepts _ _ _ _ _ _ _ Hr Hs H1 H2 H3 H4).
Qed.

Lemma register_switch_init_rejects_cases cfg :
  (entry_well_formed cfg /\ exists sw, __init__ cfg = Ret sw) \/
  (~ entry_well_formed cfg /\ __init__ cfg = Raise ValueError).
Proof.
  destruct (init_outcome cfg)
    as [(g1 & a1 & b1 & area & a2 & b2 & Hr & Hs & H1 & H2 & H3 & H4 & Hi)|Hi].
  - left. split; [|eauto].
    split; apply well_formed_matches; eauto 10.
  - right. split; [|exact Hi]. intros [Hr Hs].
    destruct (well_formed_accepted _ Hr Hs) as (sw & Hsw). congruence.
Qed.

(** The constructor succeeds when both tokens are well formed, with
    digit groups [int] converts, and raises [ValueError], and nothing
    else, when either is not. *)
Theorem register_switch_init_rejects_malformed cfg :
  (well_formed (CONF_REGISTER cfg) /\ well_formed (CONF_STATE cfg) ->
   exists sw, __init__ cfg = Ret sw) /\
  (~ well_formed (CONF_REGISTER cfg) \/ ~ well_formed (CONF_STATE cfg) ->
   __init__ cfg = Raise ValueError).
Proof.
  split.
  - intros [Hr Hs]. now apply well_formed_accepted.
  - intros H.
    destruct (register_switch_init_rejects_cases cfg) as [[[Hr Hs] _]|[_ Hi]];
      [|exact Hi].
    destruct H as [H|H]; contradiction.
Qed.

End TokenMore.

(** ** The register switch: commands *)

Section RegisterSwitchMore.

Import Py Spec Const Extra.
Import RegisterSwitch.

Variable hub : Hub.t.

Lemma built_command cfg sw :
  built cfg sw ->
  _command_on sw = [_bit_position sw] /\
  _command_off sw = [_bit_position sw] /\
  1 <= _bit_position sw /\
  exists area digits bit,
    token_match (CONF_REGISTER cfg) = Some (area, digits, bit) /\
    _register sw = int_of_digits digits - 1 /\
    _bit_position sw = int_of_digits bit + 1.
Proof.
  intros (sw0 & Hi & ->).
  destruct (init_constructed _ _ Hi)
    as (g1 & g2 & g3 & area & a2 & b2 & E & _ & _ & _ & _ & _ & ->).
  cbn.
  pose proof (token_match_digits _ _ _ _ E) as [_ E3].
  pose proof (int_of_digits_nonneg _ E3).
  repeat split; try lia. exists g1, g2, g3. auto.
Qed.

Lemma built_in_state cfg sw o a : built cfg sw -> built cfg (in_state o a sw).
Proof. intros (sw0 & Hi & ->). exists sw0. split; [exact Hi|reflexivity]. Qed.

Lemma write_register_run self t v0 :
  1 <= v0 ->
  _write_register hub [v0] (self, t)
  = let call :=
      Hub.write_registers (_slave self) (_register self) (NInt (2 ^ (v0 - 1))) in
    ((set_available (connected (hub t call)) self,
      (t ++ [Hub.Called call])%list), Ret tt).
Proof.
  intros Hv. unfold _write_register, Method.bind, Method.get, Method.lift,
    Method.ask. cbn [fst snd]. change (index [v0] 0) with (Ret v0).
  cbv iota beta.
  destruct (Z.eqb_spec v0 0) as [|_]; [lia|].
  unfold pow2. destruct (Z.ltb_spec (v0 - 1) 0) as [|_]; [lia|].
  cbv iota beta zeta. destruct (hub t _); reflexivity.
Qed.

Lemma update_unverified self t :
  _verify_state self = false -> update hub (self, t) = ((self, t), Ret tt).
Proof.
  intros H. unfold update, Method.bind, Method.get. cbn [fst snd].
  now rewrite H.
Qed.

(** [turn_on] and [turn_off] on a built switch, up to the update they
    end with. *)
Lemma turn_run cfg sw t (on : bool) :
  built cfg sw ->
  (if on then turn_on hub (sw, t) else turn_off hub (sw, t))
  = if String.eqb (_register_type sw) CALL_TYPE_REGISTER_HOLDING then
      let sw1 := set_available (connected (hub t (command_call sw))) sw in
      let sw2 := if _verify_state sw then sw1 else set_is_on on sw1 in
      update hub
        (sw2, (t ++ [Hub.Called (command_call sw)] ++ [Hub.Slept 1])%list)
    else update hub (sw, (t ++ [Hub.Slept 1])%list).
Proof.
  intros Hb. destruct (built_command _ _ Hb) as (Hon & Hoff & Hp & _).
  destruct on; unfold turn_on, turn_off;
    unfold Method.bind at 1 2; unfold Method.get at 1; cbn [fst snd];
    destruct (String.eqb (_register_type sw) CALL_TYPE_REGISTER_HOLDING);
    try (unfold Method.ret, Method.emit; cbn [fst snd]; reflexivity).
  - rewrite Hon. unfold Method.bind at 1. rewrite (write_register_run _ _ _ Hp).
    cbv zeta. unfold command_call.
    destruct (_verify_state sw); cbn [negb];
      unfold Method.ret, Method.modify, Method.emit, Method.bind;
      cbn [fst snd]; rewrite <- app_assoc; reflexivity.
  - rewrite Hoff. unfold Method.bind at 1. rewrite (write_register_run _ _ _ Hp).
    cbv zeta. unfold command_call.
    destruct (_verify_state sw); cbn [negb];
      unfold Method.ret, Method.modify, Method.emit, Method.bind;
      cbn [fst snd]; rewrite <- app_assoc; reflexivity.
Qed.

Lemma update_keeps_built cfg sw t :
  built cfg sw -> built cfg (Method.entity (update hub (sw, t))).
Proof.
  intros Hb. destruct (_verify_state sw) eqn:Hv.
  - rewrite (update_constructed _ _ _ _ Hb Hv). cbv zeta.
    destruct (hub t (verify_call sw)) as [| |[|r rest]| |];
      try destruct (int64 r && (_bit_read sw <=? 63));
      unfold Method.entity; cbn [fst];
      repeat (first [apply (built_in_state cfg _ _ _) | exact Hb]).
  - rewrite (update_unverified _ _ Hv). exact Hb.
Qed.

Lemma update_events cfg sw t :
  built cfg sw ->
  Method.events (update hub (sw, t))
  = if _verify_state sw then (t ++ [Hub.Called (verify_call sw)])%list else t.
Proof.
  intros Hb. destruct (_verify_state sw) eqn:Hv.
  - rewrite (update_constructed _ _ _ _ Hb Hv). cbv zeta.
    destruct (hub t (verify_call sw)) as [| |[|r rest]| |];
      try destruct (int64 r && (_bit_read sw <=? 63)); reflexivity.
  - now rewrite (update_unverified _ _ Hv).
Qed.


(** [turn_off] sends the very command [turn_on] sends (the two command
    lists are the same bit), so both leave the same events behind; with
    verification enabled the two runs are the same altogether. *)
Theorem register_switch_turn_off_repeats_turn_on cfg sw t :
  built cfg sw ->
  Method.events (turn_off hub (sw, t)) = Method.events (turn_on hub (sw, t)) /\
  (_verify_state sw = true -> turn_off hub (sw, t) = turn_on hub (sw, t)).
Proof.
  intros Hb.
  pose proof (turn_run _ _ t true Hb) as Hon.
  pose proof (turn_run _ _ t false Hb) as Hoff.
  cbv iota in Hon, Hoff. rewrite Hon, Hoff. split.
  - destruct (String.eqb (_register_type sw) CALL_TYPE_REGISTER_HOLDING);
      [|reflexivity].
    cbv zeta. destruct (_verify_state sw) eqn:Hv; [reflexivity|].
    rewrite !update_unverified by (cbn; exact Hv). reflexivity.
  - intros Hv. rewrite Hv. reflexivity.
Qed.

(** A switch whose register kind is not the holding one never writes:
    [turn_on] and [turn_off] only wait and then, with verification
    enabled, read the status register. *)
Theorem register_switch_non_holding_never_writes cfg sw t (on : bool) :
  built cfg sw ->
  String.eqb (_register_type sw) CALL_TYPE_REGISTER_HOLDING = false ->
  let after := if on then turn_on hub (sw, t) else turn_off hub (sw, t) in
  Method.events after
  = (t ++ Hub.Slept 1 ::
       (if _verify_state sw then [Hub.Called (verify_call sw)] else []))%list /\
  existsb is_write (Method.events after) = existsb is_write t.
Proof.
  intros Hb Hk after. subst after.
  rewrite (turn_run _ _ _ on Hb). rewrite Hk.
  rewrite (update_events _ _ _ Hb).
  destruct (_verify_state sw).
  - rewrite <- app_assoc. split; [reflexivity|].
    rewrite existsb_app. cbn. now rewrite orb_false_r.
  - split; [reflexivity|]. rewrite existsb_app. cbn. now rewrite orb_false_r.
Qed.

(** The methods of a register switch assign nothing but the cached
    state and the availability: after [update], [turn_on] or [turn_off],
    however they end, the switch is still the one built from its
    configuration. *)
Theorem register_switch_methods_keep_configuration cfg sw t :
  built cfg sw ->
  built cfg (Method.entity (update hub (sw, t))) /\
  built cfg (Method.entity (turn_on hub (sw, t))) /\
  built cfg (Method.entity (turn_off hub (sw, t))).
Proof.
  intros Hb. split; [now apply update_keeps_built|].
  pose proof (turn_run _ _ t true Hb) as Hon.
  pose proof (turn_run _ _ t false Hb) as Hoff.
  cbv iota in Hon, Hoff. rewrite Hon, Hoff.
  split;
    (destruct (String.eqb (_register_type sw) CALL_TYPE_REGISTER_HOLDING);
     [|now apply update_keeps_built]);
    cbv zeta; apply update_keeps_built;
    destruct (_verify_state sw);
    repeat (first [apply (built_in_state cfg _ _ _) | exact Hb]).
Qed.



(** Updating again while the status register holds the same value
    changes nothing: when that value and the status mask fit NumPy's
    default integer (a status bit of at most 63), each of two updates
    in a row returns normally, the cached state after each is the
    status bit of the value, and no diagnostic is logged. *)
Theorem register_switch_update_is_idempotent cfg sw t r rest rest' :
  built cfg sw ->
  _verify_state sw = true ->
  hub t (verify_call sw) = Hub.Registers (r :: rest) ->
  hub (t ++ [Hub.Called (verify_call sw)])%list (verify_call sw)
    = Hub.Registers (r :: rest') ->
  int64 r = true ->
  _bit_read sw <= 63 ->
  let first := update hub (sw, t) in
  let second := update hub (Method.entity first, Method.events first) in
  Method.outcome first = Ret tt /\
  _is_on (Method.entity first) = Some (Z.testbit r (_bit_read sw - 1)) /\
  Method.events first = (t ++ [Hub.Called (verify_call sw)])%list /\
  Method.outcome second = Ret tt /\
  _is_on (Method.entity second) = _is_on (Method.entity first) /\
  Method.events second
  = (t ++ [Hub.Called (verify_call sw); Hub.Called (verify_call sw)])%list.
Proof.
  intros Hb Hv Hr Hr' Hr64 Hbit first second. subst first second.
  rewrite (update_constructed _ _ _ _ Hb Hv). cbv zeta. rewrite Hr, Hr64.
  destruct (Z.leb_spec (_bit_read sw) 63); [|lia]. cbn [andb].
  unfold Method.outcome, Method.events, Method.entity. cbn [fst snd].
  set (sw1 := set_is_on (Z.testbit r (_bit_read sw - 1)) (set_available true sw)).
  assert (built cfg sw1) as Hb1.
  { apply (built_in_state cfg _ _ _). apply (built_in_state cfg _ _ _ Hb). }
  rewrite (update_constructed _ _ _ _ Hb1 Hv). cbv zeta.
  change (verify_call sw1) with (verify_call sw).
  change (_bit_read sw1) with (_bit_read sw). rewrite Hr', Hr64.
  destruct (Z.leb_spec (_bit_read sw) 63); [|lia]. cbn [andb fst snd].
  repeat (split; [reflexivity|]).
  now rewrite <- app_assoc.
Qed.

End RegisterSwitchMore.

(** ** The decoder: integers, text, bounds *)

Section SensorMore.

Import Py Spec Const Extra.
Import Sensor.

Variable float_repr : float -> string.

Lemma be_int_app l1 : forall l2 acc,
  Struct.be_int (l1 ++ l2)%list acc = Struct.be_int l2 (Struct.be_int l1 acc).
Proof.
  induction l1 as [|b l1 IH]; intros l2 acc; cbn [app Struct.be_int];
    [reflexivity|apply IH].
Qed.

Lemma be_int_bytes_of_words ws : forall acc,
  Struct.be_int (bytes_of_words ws) acc
  = fold_left (fun acc w => acc * 65536 + w) ws acc.
Proof.
  unfold bytes_of_words.
  induction ws as [|w ws IH]; intros acc; [reflexivity|].
  cbn [map List.concat fold_left]. rewrite be_int_app, IH.
  f_equal. cbn [Struct.be_int].
  pose proof (Z.div_mod w 256 ltac:(lia)). lia.
Qed.

Lemma bytes_of_words_length ws :
  List.length (bytes_of_words ws) = (2 * List.length ws)%nat.
Proof.
  unfold bytes_of_words. induction ws as [|w ws IH]; [reflexivity|].
  cbn [map List.concat List.length app]. rewrite IH. lia.
Qed.

Lemma rmapM_bytes_of_words ws :
  forallb word ws = true ->
  (words <- rmapM to_bytes2 ws ;; Ret (List.concat words))%result
  = Ret (bytes_of_words ws).
Proof. intros H. now rewrite (rmapM_to_bytes2 _ H). Qed.

Lemma ordered_words self regs :
  forallb word regs = true -> forallb word (ordered self regs) = true.
Proof.
  unfold ordered. destruct (_reverse_order self); [|auto].
  rewrite !forallb_forall. intros H x Hx. apply H. now apply in_rev.
Qed.

Lemma ordered_length self regs :
  List.length (ordered self regs) = List.length regs.
Proof.
  unfold ordered. destruct (_reverse_order self);
    [apply length_rev|reflexivity].
Qed.

(** A format of one field applied to data of that field's size. *)
Lemma unpack_one_field fmt f data :
  every is_ascii fmt = true ->
  Struct.parse fmt = Struct.Standard Struct.BigEndian (Some [f]) ->
  List.length data = Struct.field_size f ->
  Struct.unpack fmt data
  = (v <- Struct.decode_field f data ;;
     Ret (match v with Some x => [x] | None => [] end))%result.
Proof.
  intros Ha Hp Hl. unfold Struct.unpack. rewrite Ha, Hp. cbn [negb].
  cbn [Struct.calcsize fold_right]. rewrite Nat.add_0_r, <- Hl, Nat.eqb_refl.
  cbn [Struct.decode_fields]. rewrite <- Hl, firstn_all.
  destruct (Struct.decode_field f data) as [v|e]; reflexivity.
Qed.

Lemma int_format_cases fmt sgn n :
  int_format fmt = Some (sgn, n) ->
  every is_ascii fmt = true /\
  Struct.parse fmt
  = Struct.Standard Struct.BigEndian
      (Some [if sgn then Struct.SInt (2 * n) else Struct.UInt (2 * n)]).
Proof.
  unfold int_format.
  destruct (String.eqb_spec fmt ">h") as [->|_];
    [intros H; inversion H; split; reflexivity|].
  destruct (String.eqb_spec fmt ">H") as [->|_];
    [intros H; inversion H; split; reflexivity|].
  destruct (String.eqb_spec fmt ">i") as [->|_];
    [intros H; inversion H; split; reflexivity|].
  destruct (String.eqb_spec fmt ">I") as [->|_];
    [intros H; inversion H; split; reflexivity|].
  destruct (String.eqb_spec fmt ">q") as [->|_];
    [intros H; inversion H; split; reflexivity|].
  destruct (String.eqb_spec fmt ">Q") as [->|_];
    [intros H; inversion H; split; reflexivity|].
  discriminate.
Qed.

Lemma unpack_int fmt sgn n ws :
  int_format fmt = Some (sgn, n) ->
  List.length ws = n ->
  Struct.unpack fmt (bytes_of_words ws)
  = Ret [VInt (if sgn then Struct.signed (2 * n) (be_words ws)
               else be_words ws)].
Proof.
  intros Hf Hl. destruct (int_format_cases _ _ _ Hf) as [Ha Hp].
  rewrite (unpack_one_field _ _ _ Ha Hp).
  - destruct sgn; cbn [Struct.decode_field rbind];
      rewrite be_int_bytes_of_words; reflexivity.
  - rewrite bytes_of_words_length, Hl. destruct sgn; reflexivity.
Qed.

Lemma str_int_read_back z : read_int (str_int z) = z.
Proof.
  unfold str_int. destruct (Z.ltb_spec z 0) as [Hneg|Hpos].
  - cbn [append read_int]. change (Ascii.eqb "-" "-") with true. cbv iota.
    rewrite str_nat_read_back by lia. lia.
  - pose proof (str_nat_digits z) as Hd.
    pose proof (str_nat_nonempty z) as Hn.
    pose proof (str_nat_read_back z Hpos) as Hr.
    destruct (str_nat z) as [|c s]; [discriminate|].
    cbn [every] in Hd. apply andb_true_iff in Hd as [Hc _].
    cbn [read_int]. now rewrite (digit_not_minus c Hc).
Qed.

(** With a big-endian integer structure of one, two or four registers,
    integer scale and offset and precision 0, the update stores the
    decimal text of [scale * v + offset], where [v] is the integer the
    words spell, in two's complement for the signed formats, provided
    the text has no more digits than [str] converts; with more digits
    the update raises [ValueError] and the sensor stays as it was.  The
    text reads back as exactly that integer. *)
Theorem sensor_integer_decode_is_exact (hub : Hub.t) self t regs sgn n a b :
  hub t (read_call self) = Hub.Registers regs ->
  configured_bit self = None ->
  String.eqb (_data_type self) DATA_TYPE_STRING = false ->
  int_format (_structure self) = Some (sgn, n) ->
  List.length regs = n ->
  forallb word regs = true ->
  _scale self = NInt a -> _offset self = NInt b -> _precision self = O ->
  let u := be_words (ordered self regs) in
  let v := if sgn then Struct.signed (2 * n) u else u in
  (Z.abs (a * v + b) < 10 ^ int_max_str_digits ->
   update float_repr hub (self, t) = stored self t (str_int (a * v + b))) /\
  (10 ^ int_max_str_digits <= Z.abs (a * v + b) ->
   update float_repr hub (self, t)
   = ((self, (t ++ [Hub.Called (read_call self)])%list), Raise ValueError)) /\
  read_int (str_int (a * v + b)) = a * v + b.
Proof.
  intros Hr Hb Hs Hf Hl Hw Ha Hoff Hp u v. subst u v.
  assert (decode_registers float_repr self (ordered self regs)
          = str_of_int
              (a * (if sgn
                    then Struct.signed (2 * n) (be_words (ordered self regs))
                    else be_words (ordered self regs)) + b)) as Hd.
  { rewrite (decode_single float_repr self _ _
               (VInt (if sgn
                      then Struct.signed (2 * n) (be_words (ordered self regs))
                      else be_words (ordered self regs)))
               (NInt (if sgn
                      then Struct.signed (2 * n) (be_words (ordered self regs))
                      else be_words (ordered self regs)))
               Hb Hs (rmapM_to_bytes2 _ (ordered_words self regs Hw))).
    - unfold scaled. rewrite Ha, Hoff, Hp. reflexivity.
    - apply unpack_int; [exact Hf|]. now rewrite ordered_length.
    - reflexivity. }
  split; [|split; [|apply str_int_read_back]].
  - intros Hz. apply update_success with (regs := regs); [exact Hr|].
    now rewrite Hd, (str_of_int_small _ Hz).
  - intros Hz. apply update_decode_raises with (regs := regs); [exact Hr|].
    now rewrite Hd, (str_of_int_large _ Hz).
Qed.

Lemma utf8_valid_ascii bs : forall fuel,
  forallb (in_range 0 127) bs = true ->
  (List.length bs <= fuel)%nat ->
  utf8_valid fuel bs = true.
Proof.
  induction bs as [|b bs IH]; intros fuel Hb Hf.
  - destruct fuel; reflexivity.
  - destruct fuel as [|fuel]; [cbn in Hf; lia|].
    cbn [forallb] in Hb. apply andb_true_iff in Hb as [Hb0 Hbs].
    cbn [utf8_valid]. rewrite Hb0. apply IH; [exact Hbs|].
    cbn in Hf. lia.
Qed.

Lemma ascii_bytes_of_words ws :
  forallb ascii_word ws = true ->
  forallb word ws = true /\
  forallb (in_range 0 127) (bytes_of_words ws) = true.
Proof.
  unfold bytes_of_words.
  induction ws as [|w ws IH]; [auto|].
  cbn [forallb map List.concat app]. intros H.
  apply andb_true_iff in H as [Hw Hws]. destruct (IH Hws) as [IH1 IH2].
  unfold ascii_word in Hw.
  apply andb_true_iff in Hw as [Hw H2]. apply andb_true_iff in Hw as [Hw H1].
  rewrite Hw, IH1, IH2. split; [reflexivity|].
  unfold word in Hw. apply andb_true_iff in Hw as [Hw0 _].
  apply Z.leb_le in Hw0. apply Z.ltb_lt in H1. apply Z.ltb_lt in H2.
  pose proof (Z.mod_pos_bound w 256 ltac:(lia)).
  pose proof (Z.div_pos w 256 Hw0 ltac:(lia)).
  unfold in_range.
  repeat (rewrite (proj2 (Z.leb_le _ _)) by lia). reflexivity.
Qed.

(** With the String data type and no bit index, registers whose bytes
    are ASCII are stored as the text of those bytes, in order, under any
    structure, scale, offset and precision. *)
Theorem sensor_string_is_stored_verbatim (hub : Hub.t) self t regs :
  hub t (read_call self) = Hub.Registers regs ->
  configured_bit self = None ->
  String.eqb (_data_type self) DATA_TYPE_STRING = true ->
  forallb ascii_word regs = true ->
  let text := text_of_bytes (bytes_of_words (ordered self regs)) in
  update float_repr hub (self, t) = stored self t text /\
  forall scale offset precision structure,
    _value (Method.entity
              (update float_repr hub
                 (reconfigured scale offset precision (_data_type self)
                    structure self, t)))
    = Some text.
Proof.
  intros Hr Hb Hs Ha text. subst text.
  assert (forallb ascii_word (ordered self regs) = true) as Ha'.
  { unfold ordered. destruct (_reverse_order self); [|exact Ha].
    rewrite forallb_forall in *. intros x Hx. apply Ha. now apply in_rev. }
  destruct (ascii_bytes_of_words _ Ha') as [Hw Hbytes].
  assert (forall self', configured_bit self' = None ->
            String.eqb (_data_type self') DATA_TYPE_STRING = true ->
            decode_registers float_repr self' (ordered self regs)
            = Ret (text_of_bytes (bytes_of_words (ordered self regs)))) as Hd.
  { intros self' Hb' Hs'. unfold decode_registers.
    rewrite (rmapM_to_bytes2 _ Hw). cbn [rbind]. rewrite Hb', Hs'.
    fold (bytes_of_words (ordered self regs)).
    unfold decode. now rewrite utf8_valid_ascii. }
  split.
  - apply update_success with (regs := regs); [exact Hr|]. now apply Hd.
  - intros scale offset precision structure.
    rewrite update_success
      with (regs := regs)
           (v := text_of_bytes (bytes_of_words (ordered self regs)));
      [reflexivity|exact Hr|].
    now apply Hd.
Qed.

Lemma decode_bit_general self ws b :
  configured_bit self = Some b ->
  forallb word ws = true ->
  decode_registers float_repr self ws
  = (c <- index (bit_string ws) (16 * Z.of_nat (List.length ws) - b) ;;
     Ret (String c ""))%result.
Proof.
  intros Hb Hw. unfold decode_registers.
  rewrite (rmapM_to_bytes2 _ Hw). cbn [rbind]. rewrite Hb.
  now rewrite bits_of_words, bit_string_length.
Qed.

(** A bit index beyond the bits read is not rejected as such: up to
    twice the number of bits it wraps around and selects bit
    [b - bits - 1]; above that, and below zero, the update raises
    [IndexError] and leaves the sensor as it was. *)
Theorem sensor_bit_index_out_of_range (hub : Hub.t) self t regs b :
  hub t (read_call self) = Hub.Registers regs ->
  configured_bit self = Some b ->
  forallb word regs = true ->
  let ws := ordered self regs in
  let bits := 16 * Z.of_nat (List.length regs) in
  (bits < b <= 2 * bits ->
   update float_repr hub (self, t)
   = stored self t
       (String (bit_char (Z.testbit (be_words ws) (b - bits - 1))) "")) /\
  (b < 0 \/ 2 * bits < b ->
   update float_repr hub (self, t)
   = ((self, (t ++ [Hub.Called (read_call self)])%list), Raise IndexError)).
Proof.
  intros Hr Hb Hw ws bits. subst ws bits.
  pose proof (ordered_words self regs Hw) as Hws.
  pose proof (ordered_length self regs) as Hlen.
  pose proof (decode_bit_general self _ b Hb Hws) as Hd.
  rewrite Hlen in Hd.
  pose proof (bit_string_length (ordered self regs)) as HL. rewrite Hlen in HL.
  split.
  - intros Hrange.
    apply update_success with (regs := regs); [exact Hr|]. rewrite Hd.
    unfold index. rewrite HL.
    destruct (Z.ltb_spec (16 * Z.of_nat (List.length regs) - b) 0); [|lia].
    match goal with |- context [(0 <=? ?j) && (?j <? ?n)] =>
      destruct (Z.leb_spec 0 j); [|lia]; destruct (Z.ltb_spec j n); [|lia]
    end.
    cbn [andb].
    pose proof (bit_string_nth (ordered self regs)
                  (b - 16 * Z.of_nat (List.length regs) - 1) Hws) as Hn.
    rewrite Hlen in Hn.
    replace (16 * Z.of_nat (List.length regs) - 1
             - (b - 16 * Z.of_nat (List.length regs) - 1))
      with (16 * Z.of_nat (List.length regs) - b
            + 16 * Z.of_nat (List.length regs)) in Hn by lia.
    rewrite Hn by lia. reflexivity.
  - intros Hrange.
    apply update_decode_raises with (regs := regs); [exact Hr|]. rewrite Hd.
    unfold index. rewrite HL.
    destruct (Z.ltb_spec (16 * Z.of_nat (List.length regs) - b) 0).
    + match goal with |- context [(0 <=? ?j) && (?j <? ?n)] =>
        destruct (Z.leb_spec 0 j); [lia|]
      end. reflexivity.
    + match goal with |- context [(0 <=? ?j) && (?j <? ?n)] =>
        destruct (Z.leb_spec 0 j); [|lia]; destruct (Z.ltb_spec j n); [lia|]
      end. reflexivity.
Qed.

(** Every update makes exactly one call on the hub and assigns nothing
    but the cached value and the availability.  When it raises, the
    sensor is exactly as before; when it returns, either the read
    failed, the value is the old one and the sensor is unavailable, or a
    value was stored and the sensor is available. *)
Theorem sensor_update_is_atomic (hub : Hub.t) self t :
  let after := update float_repr hub (self, t) in
  Method.events after = (t ++ [Hub.Called (read_call self)])%list /\
  Method.entity after
  = sensor_in_state (_value (Method.entity after))
      (_available (Method.entity after)) self /\
  (forall e, Method.outcome after = Raise e -> Method.entity after = self) /\
  (Method.outcome after = Ret tt ->
   (Hub.transport_failure (hub t (read_call self)) /\
    _available (Method.entity after) = false /\
    _value (Method.entity after) = _value self) \/
   (_available (Method.entity after) = true /\
    exists v, _value (Method.entity after) = Some v)).
Proof.
  intros after. subst after.
  assert (self = sensor_in_state (_value self) (_available self) self) as Heta
    by (destruct self; reflexivity).
  destruct (hub t (read_call self)) as [| |regs|bits|] eqn:Hr.
  - rewrite update_failure by (left; exact Hr).
    unfold Method.events, Method.entity, Method.outcome. cbn [fst snd].
    split; [reflexivity|]. split; [reflexivity|].
    split; [discriminate|]. intros _. left.
    split; [now left|]. split; reflexivity.
  - rewrite update_failure by (right; exact Hr).
    unfold Method.events, Method.entity, Method.outcome. cbn [fst snd].
    split; [reflexivity|]. split; [reflexivity|].
    split; [discriminate|]. intros _. left.
    split; [now right|]. split; reflexivity.
  - destruct (decode_registers float_repr self (ordered self regs))
      as [v|e] eqn:Hd.
    + rewrite (update_success _ _ _ _ _ _ Hr Hd).
      unfold Method.events, Method.entity, Method.outcome. cbn [fst snd].
      split; [reflexivity|]. split; [reflexivity|].
      split; [discriminate|]. intros _. right.
      split; [reflexivity|]. now exists v.
    + rewrite (update_decode_raises _ _ _ _ _ _ Hr Hd).
      unfold Method.events, Method.entity, Method.outcome. cbn [fst snd].
      split; [reflexivity|]. split; [exact Heta|].
      split; [reflexivity|]. discriminate.
  - unfold update, Method.bind, Method.get, Method.ask. cbn [fst snd].
    rewrite Hr. cbn.
    split; [reflexivity|]. split; [exact Heta|].
    split; [reflexivity|]. discriminate.
  - unfold update, Method.bind, Method.get, Method.ask. cbn [fst snd].
    rewrite Hr. cbn.
    split; [reflexivity|]. split; [exact Heta|].
    split; [reflexivity|]. discriminate.
Qed.

(** Degenerate replies are not screened before decoding.  A reply with
    no register at all is stored as the empty text by a String sensor,
    which becomes available, and makes an update with a bit index raise
    [IndexError] and one with an integer structure raise the structure
    error; a register outside 16 bits makes any update raise
    [OverflowError]. *)
Theorem sensor_degenerate_replies (hub : Hub.t) self t :
  let raised e :=
    update float_repr hub (self, t)
    = ((self, (t ++ [Hub.Called (read_call self)])%list), Raise e) in
  (hub t (read_call self) = Hub.Registers [] ->
   (configured_bit self = None ->
    String.eqb (_data_type self) DATA_TYPE_STRING = true ->
    update float_repr hub (self, t) = stored self t "") /\
   (forall b, configured_bit self = Some b -> raised IndexError) /\
   (forall sgn n,
      configured_bit self = None ->
      String.eqb (_data_type self) DATA_TYPE_STRING = false ->
      int_format (_structure self) = Some (sgn, n) ->
      raised StructError)) /\
  (forall regs,
     hub t (read_call self) = Hub.Registers regs ->
     forallb word regs = false ->
     raised OverflowError).
Proof.
  intros raised. subst raised. cbv beta. split.
  - intros Hr.
    assert (ordered self [] = []) as Ho
      by (unfold ordered; destruct (_reverse_order self); reflexivity).
    split; [|split].
    + intros Hb Hs. apply update_success with (regs := []); [exact Hr|].
      rewrite Ho. unfold decode_registers. cbn [rmapM rbind List.concat].
      now rewrite Hb, Hs.
    + intros b Hb. apply update_decode_raises with (regs := []); [exact Hr|].
      rewrite Ho. unfold decode_registers. cbn [rmapM rbind List.concat].
      rewrite Hb. cbn [map List.concat List.length]. unfold index.
      cbn [List.length]. change (Z.of_nat 0) with 0.
      unfold configured_bit in Hb. destruct (_bit self) as [b'|]; [|discriminate].
      destruct (Z.eqb_spec b' 0); [discriminate|]. inversion Hb; subst.
      destruct (Z.ltb_spec (0 - b) 0).
      * match goal with |- context [(0 <=? ?j) && (?j <? ?n)] =>
          destruct (Z.leb_spec 0 j); [lia|]
        end. reflexivity.
      * match goal with |- context [(0 <=? ?j) && (?j <? ?n)] =>
          destruct (Z.leb_spec 0 j); [|lia]; destruct (Z.ltb_spec j n); [lia|]
        end. reflexivity.
    + intros sgn n Hb Hs Hf.
      apply update_decode_raises with (regs := []); [exact Hr|].
      rewrite Ho. unfold decode_registers. cbn [rmapM rbind List.concat].
      rewrite Hb, Hs. unfold Struct.unpack.
      destruct (int_format_cases _ _ _ Hf) as [Ha Hp]. rewrite Ha, Hp.
      cbn [negb]. unfold int_format in Hf.
      repeat match type of Hf with
             | (if ?c then _ else _) = _ => destruct c
             end; inversion Hf; subst; reflexivity.
  - intros regs Hr Hw.
    apply update_decode_raises with (regs := regs); [exact Hr|].
    assert (forallb word (ordered self regs) = false) as Hw'.
    { unfold ordered. destruct (_reverse_order self); [|exact Hw].
      apply not_true_is_false. intros H. rewrite forallb_forall in H.
      assert (forallb word regs = true); [|congruence].
      apply forallb_forall. intros x Hx. apply H. now apply -> in_rev. }
    unfold decode_registers.
    assert (rmapM to_bytes2 (ordered self regs) = Raise OverflowError) as ->;
      [|reflexivity].
    induction (ordered self regs) as [|w ws IH]; [discriminate|].
    cbn [forallb] in Hw'. cbn [rmapM]. unfold to_bytes2 at 1.
    fold (word w). destruct (word w); [|reflexivity].
    cbn [rbind]. rewrite IH by exact Hw'. reflexivity.
Qed.

End SensorMore.

(** ** Setting the switch platform up *)

Section SwitchSetupMore.

Import Py Spec Extra.
Import SwitchSetup.

Variable hubs : string -> option Hub.t.

Lemma coil_switches_known coils : forall acc,
  (forall coil, In coil coils -> hubs (COIL_HUB coil) <> None) ->
  exists made,
    coil_switches hubs coils acc = Added (acc ++ made)%list /\
    Forall2 (coil_switch_of hubs) coils made.
Proof.
  induction coils as [|coil rest IH]; intros acc Hk.
  - exists []. cbn. rewrite app_nil_r. split; [reflexivity|constructor].
  - cbn [coil_switches].
    destruct (hubs (COIL_HUB coil)) as [hub|] eqn:Hh;
      [|exfalso; apply (Hk coil); [now left|exact Hh]].
    destruct (IH (acc ++ [Coil hub
                (CoilSwitch.__init__ (COIL_NAME coil) (Some (COIL_SLAVE coil))
                   (COIL coil))])%list) as (made & -> & Hl).
    { intros c Hc. apply Hk. now right. }
    eexists. rewrite <- app_assoc. split; [reflexivity|].
    constructor; [|exact Hl]. exists hub. now split.
Qed.

Lemma register_switches_known registers : forall acc,
  (forall entry, In entry registers -> hubs (fst entry) <> None) ->
  (Forall (fun entry => entry_well_formed (snd entry)) registers ->
   exists made,
     register_switches hubs registers acc = Added (acc ++ made)%list /\
     Forall2 (register_switch_of hubs) registers made) /\
  (~ Forall (fun entry => entry_well_formed (snd entry)) registers ->
   register_switches hubs registers acc = Raised ValueError).
Proof.
  induction registers as [|[hub_name register] rest IH]; intros acc Hk.
  - split.
    + intros _. exists []. cbn. rewrite app_nil_r.
      split; [reflexivity|constructor].
    + intros H. exfalso. apply H. constructor.
  - cbn [register_switches].
    destruct (hubs hub_name) as [hub|] eqn:Hh;
      [|exfalso; apply (Hk (hub_name, register)); [now left|exact Hh]].
    assert (forall entry, In entry rest -> hubs (fst entry) <> None) as Hk'
      by (intros e He; apply Hk; now right).
    pose proof (register_switch_init_rejects_cases register) as Hinit.
    destruct (RegisterSwitch.__init__ register) as [entity|e] eqn:Hi.
    + destruct Hinit as [(Hwf & _)|(_ & Habs)]; [|discriminate].
      destruct (IH (acc ++ [Register hub entity])%list Hk') as [IH1 IH2].
      split.
      * intros HF. inversion HF; subst.
        destruct (IH1 H2) as (made & -> & Hl).
        eexists. rewrite <- app_assoc. split; [reflexivity|].
        constructor; [|exact Hl]. exists hub, entity. cbn. auto.
      * intros HF. apply IH2. intros HF'. apply HF. now constructor.
    + destruct Hinit as [(_ & sw & Hsw)|(Hnwf & Herr)]; [discriminate|].
      inversion Herr; subst. split; [|reflexivity].
      intros HF. inversion HF; subst. contradiction.
Qed.

(** Setting the platform up is all or nothing.  When every named hub is
    registered: if the tokens of every register entry are well formed,
    the switches added are one fresh coil switch per coil entry, in
    order, followed by one constructed register switch per register
    entry, in order; if some register entry has a malformed token,
    [ValueError] escapes and no switch is added, the coil switches
    included. *)
Theorem switch_setup_is_all_or_nothing config :
  hubs_known hubs config ->
  let coils := entries (CONF_COILS config) in
  let registers := entries (CONF_REGISTERS config) in
  (Forall (fun entry => entry_well_formed (snd entry)) registers ->
   exists coil_made register_made,
     async_setup_platform hubs config
     = Added (coil_made ++ register_made)%list /\
     Forall2 (coil_switch_of hubs) coils coil_made /\
     Forall2 (register_switch_of hubs) registers register_made) /\
  (~ Forall (fun entry => entry_well_formed (snd entry)) registers ->
   async_setup_platform hubs config = Raised ValueError).
Proof.
  intros [Hc Hr] coils registers. subst coils registers.
  unfold async_setup_platform.
  assert (exists made,
            match CONF_COILS config with
            | Some coils => coil_switches hubs coils []
            | None => Added []
            end = Added made /\
            Forall2 (coil_switch_of hubs) (entries (CONF_COILS config)) made)
    as (made & -> & Hl).
  { destruct (CONF_COILS config) as [coils|] eqn:E.
    - destruct (coil_switches_known coils [] (fun c => Hc coils c eq_refl))
        as (made & H & Hl).
      exists made. now split.
    - exists []. split; [reflexivity|constructor]. }
  destruct (CONF_REGISTERS config) as [registers|] eqn:E; cbn [entries].
  - destruct (register_switches_known registers made
                (fun e => Hr registers e eq_refl)) as [H1 H2].
    split; [|exact H2].
    intros HF. destruct (H1 HF) as (more & -> & Hm).
    exists made, more. auto.
  - split.
    + intros _. exists made, []. rewrite app_nil_r.
      split; [reflexivity|]. split; [exact Hl|constructor].
    + intros H. exfalso. apply H. constructor.
Qed.

(** A register entry that names a hub which is not registered stops
    the set-up with a [KeyError] for that name, when the hubs of the
    coil entries and of the register entries before it are registered
    and those register entries are well formed; nothing is added. *)
Theorem switch_setup_unknown_hub config known entry later :
  (forall coil, In coil (entries (CONF_COILS config)) ->
                hubs (COIL_HUB coil) <> None) ->
  CONF_REGISTERS config = Some (known ++ entry :: later)%list ->
  (forall e, In e known -> hubs (fst e) <> None) ->
  Forall (fun e => entry_well_formed (snd e)) known ->
  hubs (fst entry) = None ->
  async_setup_platform hubs config = KeyError (fst entry).
Proof.
  intros Hc Hr Hk Hw Hu. unfold async_setup_platform.
  assert (exists made,
            match CONF_COILS config with
            | Some coils => coil_switches hubs coils []
            | None => Added []
            end = Added made) as (made & ->).
  { destruct (CONF_COILS config) as [coils|]; [|now exists []].
    destruct (coil_switches_known coils [] Hc) as (made & H & _).
    now exists made. }
  rewrite Hr. clear Hc Hr. revert made.
  induction known as [|[hub_name register] known IH]; intros acc.
  - cbn [app register_switches]. destruct entry as [n c]. cbn in Hu.
    now rewrite Hu.
  - cbn [app register_switches].
    destruct (hubs hub_name) as [hub|] eqn:Hh;
      [|exfalso; apply (Hk (hub_name, register)); [now left|exact Hh]].
    inversion Hw; subst.
    destruct (register_switch_init_rejects_cases register)
      as [(_ & sw & ->)|(Hn & _)]; [|contradiction].
    apply IH; [intros e He; apply Hk; now right|assumption].
Qed.

End SwitchSetupMore.

(** ** Setting the sensor platform up *)

Section SensorSetupMore.

Import Py Spec Const Extra.
Import SensorSetup.

Variable table : string -> Z -> option string.
Variable hubs : string -> option Hub.t.
Variable ssize_max : Z.

Lemma check_size_append register structure hub sensor :
  check_size hubs ssize_max register structure = Append hub sensor ->
  accepted hubs ssize_max register (hub, sensor).
Proof.
  unfold check_size. destruct structure as [fmt|]; [|discriminate].
  destruct (calcsize ssize_max fmt) as [size|[]] eqn:Hc; try discriminate.
  destruct (Z.eqb_spec (CONF_COUNT register * 2) size) as [He|];
    [|discriminate].
  cbn [negb]. destruct (hubs (CONF_HUB register)) as [h|] eqn:Hh;
    [|discriminate].
  intros H. inversion H; subst. unfold accepted. cbn.
  now rewrite Hc, Hh.
Qed.

Lemma check_size_stop register structure e :
  check_size hubs ssize_max register structure = Stop e ->
  match e with
  | KeyError _ | Raised _ => True
  | _ => False
  end.
Proof.
  unfold check_size. destruct structure as [fmt|];
    [|intros H; inversion H; exact I].
  destruct (calcsize ssize_max fmt) as [size|[]];
    try (intros H; inversion H; exact I); try discriminate.
  destruct (negb _); [discriminate|].
  destruct (hubs _); [discriminate|]. intros H; inversion H; exact I.
Qed.

Lemma consider_append register hub sensor :
  consider table hubs ssize_max register = Append hub sensor ->
  accepted hubs ssize_max register (hub, sensor).
Proof.
  unfold consider.
  destruct (String.eqb (CONF_DATA_TYPE register) DATA_TYPE_STRING);
    [destruct (str_of_int _); [apply check_size_append|discriminate]|].
  destruct (String.eqb (CONF_DATA_TYPE register) DATA_TYPE_CUSTOM);
    cbn [negb]; [apply check_size_append|].
  destruct (table _ _); [apply check_size_append|discriminate].
Qed.

Lemma consider_stop register e :
  consider table hubs ssize_max register = Stop e ->
  match e with
  | KeyError _ | Raised _ => True
  | _ => False
  end.
Proof.
  unfold consider.
  destruct (String.eqb (CONF_DATA_TYPE register) DATA_TYPE_STRING);
    [destruct (str_of_int _);
       [apply check_size_stop|intros H; inversion H; exact I]|].
  destruct (String.eqb (CONF_DATA_TYPE register) DATA_TYPE_CUSTOM);
    cbn [negb]; [apply check_size_stop|].
  destruct (table _ _); [apply check_size_stop|discriminate].
Qed.

Lemma loop_invariant registers : forall sensors logs logs' ending,
  loop table hubs ssize_max registers sensors logs = (logs', ending) ->
  match ending with
  | ReturnedFalse => sensors = []
  | Added made =>
      made <> [] /\
      exists more,
        made = (sensors ++ more)%list /\
        Forall (fun m => exists register,
                           In register registers /\
                           accepted hubs ssize_max register m) more
  | KeyError _ | Raised _ => True
  end.
Proof.
  induction registers as [|register rest IH]; intros sensors logs logs' ending.
  - cbn [loop]. intros H. inversion H; subst; clear H.
    destruct sensors as [|s sensors]; [reflexivity|].
    split; [discriminate|]. exists []. rewrite app_nil_r.
    split; [reflexivity|constructor].
  - cbn [loop].
    destruct (consider table hubs ssize_max register)
      as [hub sensor|log|e] eqn:Hc.
    + intros H. apply IH in H. destruct ending as [|made| |]; auto.
      * destruct sensors; discriminate.
      * destruct H as (Hne & more & -> & HF). split; [exact Hne|].
        exists ((hub, sensor) :: more). rewrite <- app_assoc.
        split; [reflexivity|]. constructor.
        -- exists register. split; [now left|]. now apply consider_append.
        -- eapply Forall_impl; [|exact HF].
           intros m (r & Hr & Ha). exists r. split; [now right|exact Ha].
    + intros H. apply IH in H. destruct ending as [|made| |]; auto.
      destruct H as (Hne & more & -> & HF). split; [exact Hne|].
      exists more. split; [reflexivity|].
      eapply Forall_impl; [|exact HF].
      intros m (r & Hr & Ha). exists r. split; [now right|exact Ha].
    + intros H. inversion H; subst. apply consider_stop in Hc.
      destruct ending; try exact I; contradiction.
Qed.

(** Whatever the register list, the set-up returns [False] only when it
    has constructed no sensor, and otherwise adds a non-empty list in
    which every sensor comes from an entry of the list, carries that
    entry's hub and settings, and has a structure whose size is twice
    its register count. *)
Theorem sensor_setup_adds_only_sized_sensors registers logs ending :
  setup_platform table hubs ssize_max registers = (logs, ending) ->
  match ending with
  | ReturnedFalse =>
      forall register, In register registers ->
        forall hub sensor,
          consider table hubs ssize_max register <> Append hub sensor
  | Added made =>
      made <> [] /\
      Forall (fun m => exists register,
                         In register registers /\
                         accepted hubs ssize_max register m) made
  | KeyError _ | Raised _ => True
  end.
Proof.
  intros H. pose proof (loop_invariant _ _ _ _ _ H) as Hinv.
  destruct ending as [|made| |]; auto.
  - clear Hinv. unfold setup_platform in H. revert H.
    generalize (@nil logged) as acc.
    assert (forall rs sensors acc,
              loop table hubs ssize_max rs sensors acc = (logs, ReturnedFalse) ->
              sensors = [] /\
              forall register, In register rs ->
                forall hub sensor,
                  consider table hubs ssize_max register <> Append hub sensor)
      as Hgen.
    { induction rs as [|r rs IH]; intros sensors acc.
      - cbn [loop]. intros H. split; [|intros ? []].
        destruct sensors; [reflexivity|inversion H].
      - cbn [loop].
        destruct (consider table hubs ssize_max r) as [h s|log|e] eqn:Hc.
        + intros H. apply IH in H as [Hs _]. destruct sensors; discriminate.
        + intros H. apply IH in H as [Hs Hr]. split; [exact Hs|].
          intros register [<-|Hin] hub sensor; [congruence|now apply Hr].
        + intros H. inversion H; subst. apply consider_stop in Hc.
          contradiction. }
    intros acc H. now apply (Hgen registers [] acc).
  - destruct Hinv as (Hne & more & -> & HF). split; [exact Hne|exact HF].
Qed.

Lemma host_codes_bytes s : every byte_code s = true -> host_codes s = s.
Proof.
  induction s as [|c s IH]; cbn [every host_codes]; [reflexivity|].
  intros H. apply andb_true_iff in H as [Hc Hs]. rewrite (IH Hs). f_equal.
  unfold host_code.
  destruct (Ascii.eqb_spec c "n") as [->|]; [discriminate|].
  destruct (Ascii.eqb_spec c "N") as [->|]; [discriminate|].
  destruct (Ascii.eqb_spec c "P") as [->|]; [discriminate|]. reflexivity.
Qed.

Lemma every_digit_byte_code s :
  every is_digit s = true -> every byte_code s = true.
Proof.
  induction s as [|c s IH]; cbn [every]; [reflexivity|].
  intros H. apply andb_true_iff in H as [Hc Hs].
  rewrite (IH Hs). unfold byte_code. now rewrite Hc.
Qed.

Lemma every_digit_ascii s :
  every is_digit s = true -> every is_ascii s = true.
Proof.
  induction s as [|c s IH]; cbn [every]; [reflexivity|].
  intros H. apply andb_true_iff in H as [Hc Hs].
  rewrite (IH Hs), andb_true_r. revert Hc. unfold is_digit, is_ascii.
  cbv zeta. intros Hc. apply andb_true_iff in Hc as [_ Hc].
  apply Z.leb_le in Hc. apply Z.ltb_lt. lia.
Qed.

Lemma parse_items_digits ds r : forall count,
  every is_digit ds = true ->
  Struct.parse_items (ds ++ r) (Some count)
  = Struct.parse_items r (Some (int_of_digits_acc ds count)).
Proof.
  induction ds as [|d ds IH]; intros count H; [reflexivity|].
  cbn [every] in H. apply andb_true_iff in H as [Hd Hds].
  cbn [append Struct.parse_items int_of_digits_acc]. rewrite Hd.
  now apply IH.
Qed.

(** The size of a format that is a repeat count and [s]. *)
Lemma calcsize_count_s d ds :
  is_digit d = true -> every is_digit ds = true ->
  0 <= int_of_digits (String d ds) <= ssize_max ->
  calcsize ssize_max (String d ds ++ "s")
  = Ret (int_of_digits (String d ds)).
Proof.
  intros Hd Hds Hn.
  assert (every byte_code (String d ds ++ "s") = true) as Hb.
  { cbn [append every]. rewrite every_app. cbn [every].
    rewrite (every_digit_byte_code _ Hds). unfold byte_code at 1.
    rewrite Hd. reflexivity. }
  assert (Struct.parse_items (String d ds ++ "s") None
          = Some [Struct.Bytes (Z.to_nat (int_of_digits (String d ds)))])
    as Hp.
  { cbn [append Struct.parse_items]. rewrite Hd.
    rewrite parse_items_digits by exact Hds. reflexivity. }
  assert (every is_ascii (String d ds ++ "s") = true) as Hascii.
  { rewrite every_app.
    rewrite (every_digit_ascii (String d ds)); [reflexivity|].
    cbn [every]. now rewrite Hd, Hds. }
  unfold calcsize. rewrite Hascii. cbn [negb].
  assert (Struct.parse (String d ds ++ "s") = Struct.Native
          /\ Ascii.eqb d "=" = false /\ Ascii.eqb d "@" = false)
    as (Hnat & Heq & Hat).
  { cbn [append]. revert Hd. clear.
    destruct d as [[] [] [] [] [] [] [] []]; intros Hd;
      try discriminate Hd; repeat split. }
  rewrite Hnat. cbn [append] in *.
  assert (forall (A : Type) (x y z : A),
            match String d (ds ++ "s") with
            | String "="%char s0 => x
            | String "@"%char s0 => y
            | _ => z
            end = z) as Hm.
  { intros A x y z. revert Heq Hat. clear.
    destruct d as [[] [] [] [] [] [] [] []]; intros H1 H2;
      try discriminate H1; try discriminate H2; reflexivity. }
  revert Hd Heq Hat Hb Hp Hn. clear Hnat Hm Hascii.
  destruct d as [[] [] [] [] [] [] [] []]; intros Hd Heq Hat Hb Hp Hn;
    try discriminate Hd;
    cbv beta iota zeta;
    rewrite (host_codes_bytes _ Hb), Hp, Hb;
    unfold sized, total_size; cbn [fold_right Struct.field_size];
    rewrite Z2Nat.id, Z.add_0_r by lia;
    match goal with
    | |- context [?a <=? ssize_max] => destruct (Z.leb_spec a ssize_max)
    end;
    try reflexivity; lia.
Qed.

(** An entry of the String data type is never rejected: with a
    register count from 0 up to half the largest size, twice which
    [str] converts, and a registered hub, it is accepted with the
    structure "<2*count>s". *)
Theorem sensor_setup_accepts_string_entries register hub :
  String.eqb (CONF_DATA_TYPE register) DATA_TYPE_STRING = true ->
  0 <= CONF_COUNT register * 2 <= ssize_max ->
  CONF_COUNT register * 2 < 10 ^ int_max_str_digits ->
  hubs (CONF_HUB register) = Some hub ->
  let structure := str_int (CONF_COUNT register * 2) ++ "s" in
  consider table hubs ssize_max register
  = Append hub (sensor_of register structure) /\
  calcsize ssize_max structure = Ret (CONF_COUNT register * 2) /\
  forall earlier later logs ending,
    setup_platform table hubs ssize_max (earlier ++ register :: later)%list
    = (logs, ending) ->
    match ending with
    | ReturnedFalse => False
    | Added made => In (hub, sensor_of register structure) made
    | KeyError _ | Raised _ => True
    end.
Proof.
  intros Hs Hc Hlim Hh structure. subst structure.
  assert (calcsize ssize_max (str_int (CONF_COUNT register * 2) ++ "s")
          = Ret (CONF_COUNT register * 2)) as Hsize.
  { unfold str_int. destruct (Z.ltb_spec (CONF_COUNT register * 2) 0); [lia|].
    pose proof (str_nat_digits (CONF_COUNT register * 2)) as Hd.
    pose proof (str_nat_nonempty (CONF_COUNT register * 2)) as Hn.
    pose proof (str_nat_read_back (CONF_COUNT register * 2) ltac:(lia)) as Hr.
    destruct (str_nat (CONF_COUNT register * 2)) as [|d ds]; [discriminate|].
    cbn [every] in Hd. apply andb_true_iff in Hd as [Hd Hds].
    rewrite calcsize_count_s; [now rewrite Hr|exact Hd|exact Hds|].
    rewrite Hr. lia. }
  assert (consider table hubs ssize_max register
          = Append hub
              (sensor_of register (str_int (CONF_COUNT register * 2) ++ "s")))
    as Hcons.
  { unfold consider. rewrite Hs.
    rewrite str_of_int_small by (rewrite Z.abs_eq; lia).
    unfold check_size. rewrite Hsize.
    rewrite Z.eqb_refl. cbn [negb]. now rewrite Hh. }
  split; [exact Hcons|]. split; [exact Hsize|].
  intros earlier later logs ending. unfold setup_platform.
  generalize (@nil (Hub.t * Sensor.ModbusRegisterSensor)) as sensors.
  generalize (@nil logged) as acc.
  induction earlier as [|e earlier IH]; intros acc sensors.
  - cbn [app loop]. rewrite Hcons. intros H.
    apply loop_invariant in H. destruct ending as [|made| |]; auto.
    + destruct sensors; discriminate.
    + destruct H as (_ & more & -> & _).
      apply in_or_app. left. apply in_or_app. right. now left.
  - cbn [app loop].
    destruct (consider table hubs ssize_max e) as [h s|log|stop] eqn:He.
    + apply IH.
    + apply IH.
    + intros H. inversion H; subst. apply consider_stop in He.
      destruct ending; try exact I; contradiction.
Qed.

Lemma loop_ending_logs registers : forall sensors logs logs',
  snd (loop table hubs ssize_max registers sensors logs)
  = snd (loop table hubs ssize_max registers sensors logs').
Proof.
  induction registers as [|r rs IH]; intros sensors logs logs';
    cbn [loop]; [reflexivity|].
  destruct (consider table hubs ssize_max r); [apply IH|apply IH|reflexivity].
Qed.

Lemma loop_logs_extend registers : forall sensors logs logs' ending,
  loop table hubs ssize_max registers sensors logs = (logs', ending) ->
  exists more, logs' = (logs ++ more)%list.
Proof.
  induction registers as [|r rs IH]; intros sensors logs logs' ending;
    cbn [loop].
  - intros H. inversion H; subst. exists []. now rewrite app_nil_r.
  - destruct (consider table hubs ssize_max r) as [h s|log|e].
    + apply IH.
    + intros H. apply IH in H as (more & ->).
      exists (log :: more). now rewrite <- app_assoc.
    + intros H. inversion H; subst. exists []. now rewrite app_nil_r.
Qed.

(** A custom entry whose structure is malformed, or whose size is not
    twice the register count, is skipped: the set-up ends as it would
    without the entry, and, unless an exception stops it, the error is
    among those logged. *)
Theorem sensor_setup_skips_bad_structure register fmt log earlier later :
  String.eqb (CONF_DATA_TYPE register) DATA_TYPE_STRING = false ->
  String.eqb (CONF_DATA_TYPE register) DATA_TYPE_CUSTOM = true ->
  CONF_STRUCTURE register = Some fmt ->
  (calcsize ssize_max fmt = Raise StructError /\
   log = StructureError (CONF_NAME register)) \/
  (exists size,
     calcsize ssize_max fmt = Ret size /\
     size <> CONF_COUNT register * 2 /\
     log = SizeMismatch size (CONF_COUNT register)) ->
  let with_it :=
    setup_platform table hubs ssize_max (earlier ++ register :: later)%list in
  let without :=
    setup_platform table hubs ssize_max (earlier ++ later)%list in
  snd with_it = snd without /\
  match snd with_it with
  | ReturnedFalse | Added _ => In log (fst with_it)
  | KeyError _ | Raised _ => True
  end.
Proof.
  intros Hs Hcu Hst Hbad with_it without. subst with_it without.
  assert (consider table hubs ssize_max register = Continue log) as Hc.
  { unfold consider. rewrite Hs, Hcu. cbn [negb]. rewrite Hst.
    unfold check_size.
    destruct Hbad as [(-> & ->)|(size & -> & Hne & ->)]; [reflexivity|].
    destruct (Z.eqb_spec (CONF_COUNT register * 2) size); [congruence|].
    reflexivity. }
  unfold setup_platform.
  generalize (@nil (Hub.t * Sensor.ModbusRegisterSensor)) as sensors.
  generalize (@nil logged) as acc.
  induction earlier as [|e earlier IH]; intros acc sensors.
  - cbn [app loop]. rewrite Hc. split; [apply loop_ending_logs|].
    destruct (loop table hubs ssize_max later sensors (acc ++ [log])%list)
      as [logs ending] eqn:Hl.
    cbn [fst snd]. apply loop_logs_extend in Hl as (more & ->).
    assert (In log ((acc ++ [log]) ++ more)%list)
      by (apply in_or_app; left; apply in_or_app; right; now left).
    destruct ending; auto.
  - cbn [app loop].
    destruct (consider table hubs ssize_max e) as [h s|l|stop] eqn:He.
    + apply IH.
    + apply IH.
    + cbn [fst snd]. split; [reflexivity|].
      apply consider_stop in He. destruct stop; try exact I; contradiction.
Qed.

(** A custom entry that has no structure stops the set-up: whatever
    the other entries are, the set-up never gets to return or to add a
    sensor, those accepted before the entry included. *)
Theorem sensor_setup_custom_needs_structure register earlier later :
  String.eqb (CONF_DATA_TYPE register) DATA_TYPE_STRING = false ->
  String.eqb (CONF_DATA_TYPE register) DATA_TYPE_CUSTOM = true ->
  CONF_STRUCTURE register = None ->
  match
    snd (setup_platform table hubs ssize_max (earlier ++ register :: later)%list)
  with
  | ReturnedFalse | Added _ => False
  | KeyError _ | Raised _ => True
  end.
Proof.
  intros Hs Hcu Hst.
  assert (consider table hubs ssize_max register = Stop (Raised TypeError))
    as Hc.
  { unfold consider. rewrite Hs, Hcu. cbn [negb]. now rewrite Hst. }
  unfold setup_platform.
  generalize (@nil (Hub.t * Sensor.ModbusRegisterSensor)) as sensors.
  generalize (@nil logged) as acc.
  induction earlier as [|e earlier IH]; intros acc sensors.
  - cbn [app loop]. rewrite Hc. exact I.
  - cbn [app loop].
    destruct (consider table hubs ssize_max e) as [h s|l|stop] eqn:He.
    + apply IH.
    + apply IH.
    + cbn [snd]. apply consider_stop in He.
      destruct stop; try exact I; contradiction.
Qed.

End SensorSetupMore.

(** * Further runs *)

Section MoreRuns.

Import Py Spec Const Extra Examples Samples.

Lemma constructed_built cfg sw :
  RegisterSwitch.__init__ cfg = Ret sw -> built cfg sw.
Proof. intros H. exists sw. split; [exact H|]. now destruct sw. Qed.

Lemma coil_update_follows_read_witness :
  let run reply := CoilSwitch.update (answering reply) (coil_switch, []) in
  Method.events (run (Hub.Bits [true]))
  = [Hub.Called (Hub.read_coils (Some 1) 3 1)] /\
  CoilSwitch._is_on (Method.entity (run (Hub.Bits [true]))) = Some true /\
  (Method.outcome (run Hub.ExceptionResponse) = Ret tt /\
   CoilSwitch._is_on (Method.entity (run Hub.ExceptionResponse)) = Some false /\
   CoilSwitch._available (Method.entity (run Hub.ExceptionResponse)) = false) /\
  Method.outcome (run (Hub.Bits [])) = Raise IndexError.
Proof.
  intros run.
  destruct (coil_update_follows_read (answering (Hub.Bits [true]))
              coil_switch []) as (He & Hb & _).
  destruct (coil_update_follows_read (answering Hub.ExceptionResponse)
              coil_switch []) as (_ & _ & Hf & _).
  destruct (coil_update_follows_read (answering (Hub.Bits []))
              coil_switch []) as (_ & _ & _ & Hn).
  split; [exact He|]. split; [exact (proj1 (proj2 (Hb true [] eq_refl)))|].
  split; [exact (Hf (or_intror eq_refl))|exact (proj1 (Hn eq_refl))].
Defined.

Lemma coil_write_then_update_reads_back_witness :
  let on := CoilSwitch.turn_on echoing (coil_switch, []) in
  let off := CoilSwitch.turn_off echoing (coil_switch, []) in
  CoilSwitch._is_on
    (Method.entity
       (CoilSwitch.update echoing (Method.entity on, Method.events on)))
  = Some true /\
  CoilSwitch._is_on
    (Method.entity
       (CoilSwitch.update echoing (Method.entity off, Method.events off)))
  = Some false.
Proof.
  intros on off.
  destruct (coil_write_then_update_reads_back echoing coil_switch []
              (fun _ _ _ _ => eq_refl)) as ((_ & Hon & _) & (_ & Hoff & _)).
  exact (conj Hon Hoff).
Defined.

Lemma token_match_accepts_exactly_tokens_witness :
  RegisterSwitch.token_match "%MX401.5" = Some ("%MX", "401", "5") /\
  RegisterSwitch.token_match ("%QX4.7" ++ newline) = Some ("%QX", "4", "7").
Proof.
  split.
  - refine (proj2 (token_match_accepts_exactly_tokens _ _ _ _) _).
    exists "MX". repeat (split; [reflexivity|]). left. reflexivity.
  - refine (proj2 (token_match_accepts_exactly_tokens _ _ _ _) _).
    exists "QX". repeat (split; [reflexivity|]). right. reflexivity.
Defined.

Lemma register_switch_init_rejects_malformed_witness :
  (exists sw, RegisterSwitch.__init__ switch_config = Ret sw) /\
  RegisterSwitch.__init__ malformed_config = Raise ValueError.
Proof.
  split.
  - refine (proj1 (register_switch_init_rejects_malformed switch_config) _).
    split.
    + exists "MX", "401", "5".
      repeat (split; [reflexivity || short_groups|]). left. reflexivity.
    + exists "QX", "4", "7".
      repeat (split; [reflexivity || short_groups|]). left. reflexivity.
  - refine (proj2 (register_switch_init_rejects_malformed malformed_config) _).
    left. intros (ls & d1 & d2 & _ & _ & _ & _ & _ & [H | H]); discriminate H.
Defined.


Lemma register_switch_turn_off_repeats_turn_on_witness :
  let hub := answering (Hub.Registers [128]) in
  RegisterSwitch.turn_off hub (switch, [])
  = RegisterSwitch.turn_on hub (switch, []).
Proof.
  exact (proj2 (register_switch_turn_off_repeats_turn_on
                  (answering (Hub.Registers [128])) switch_config switch []
                  (switch_built None true)) eq_refl).
Defined.

Lemma register_switch_non_holding_never_writes_witness :
  Method.events
    (RegisterSwitch.turn_on (answering (Hub.Registers [128]))
       (input_switch, []))
  = [Hub.Slept 1; Hub.Called (Hub.read_holding_registers (Some 1) 204 1)].
Proof.
  exact (proj1 (register_switch_non_holding_never_writes
                  (answering (Hub.Registers [128])) input_config input_switch
                  [] true
                  (constructed_built input_config input_switch eq_refl)
                  eq_refl)).
Defined.

Lemma register_switch_methods_keep_configuration_witness :
  built switch_config
    (Method.entity
       (RegisterSwitch.update (answering (Hub.Registers [128])) (switch, []))).
Proof.
  exact (proj1 (register_switch_methods_keep_configuration
                  (answering (Hub.Registers [128])) switch_config switch []
                  (switch_built None true))).
Defined.



Lemma register_switch_update_is_idempotent_witness :
  let hub := answering (Hub.Registers [128]) in
  let first := RegisterSwitch.update hub (switch, []) in
  let second :=
    RegisterSwitch.update hub (Method.entity first, Method.events first) in
  RegisterSwitch._is_on (Method.entity second) = Some true.
Proof.
  intros hub first second.
  destruct (register_switch_update_is_idempotent hub switch_config switch []
              128 [] [] (switch_built None true) eq_refl eq_refl eq_refl
              eq_refl ltac:(cbn; lia))
    as (_ & H1 & _ & _ & H2 & _).
  exact (eq_trans H2 H1).
Defined.

Lemma sensor_integer_decode_is_exact_witness :
  Sensor.update unused_float_repr (answering (Hub.Registers [65535]))
    (int_sensor 0, [])
  = stored (int_sensor 0) [] "3" /\
  read_int "3" = 3.
Proof.
  destruct (sensor_integer_decode_is_exact unused_float_repr
              (answering (Hub.Registers [65535])) (int_sensor 0) [] [65535]
              true 1%nat 2 5 eq_refl eq_refl eq_refl eq_refl eq_refl eq_refl
              eq_refl eq_refl eq_refl) as (H1 & _ & H2).
  split; [|exact H2]. apply H1. apply Z.ltb_lt. vm_compute. reflexivity.
Defined.

Lemma sensor_string_is_stored_verbatim_witness :
  Sensor.update unused_float_repr (answering (Hub.Registers [16706; 17220]))
    (text_sensor, [])
  = stored text_sensor [] "ABCD".
Proof.
  exact (proj1 (sensor_string_is_stored_verbatim unused_float_repr
                  (answering (Hub.Registers [16706; 17220])) text_sensor []
                  [16706; 17220] eq_refl eq_refl eq_refl eq_refl)).
Defined.

Lemma sensor_bit_index_out_of_range_witness :
  let hub := answering (Hub.Registers [5]) in
  Sensor.update unused_float_repr hub (bit_sensor 19, [])
  = stored (bit_sensor 19) [] "1" /\
  Method.outcome (Sensor.update unused_float_repr hub (bit_sensor 33, []))
  = Raise IndexError.
Proof.
  intros hub. split.
  - refine (proj1 (sensor_bit_index_out_of_range unused_float_repr hub
                     (bit_sensor 19) [] [5] 19 eq_refl eq_refl eq_refl) _).
    cbn. lia.
  - refine (f_equal snd
              (proj2 (sensor_bit_index_out_of_range unused_float_repr hub
                        (bit_sensor 33) [] [5] 33 eq_refl eq_refl eq_refl) _)).
    right. cbn. lia.
Defined.

Lemma sensor_update_is_atomic_witness :
  let failed :=
    Sensor.update unused_float_repr (answering Hub.ConnectionException)
      (Sensor.set_value "19" (int_sensor 0), []) in
  let broken :=
    Sensor.update unused_float_repr (answering (Hub.Registers []))
      (Sensor.set_value "19" (int_sensor 0), []) in
  Sensor._value (Method.entity failed) = Some "19" /\
  Method.entity broken = Sensor.set_value "19" (int_sensor 0).
Proof.
  intros failed broken. split.
  - destruct (sensor_update_is_atomic unused_float_repr
                (answering Hub.ConnectionException)
                (Sensor.set_value "19" (int_sensor 0)) [])
      as (_ & _ & _ & H).
    destruct (H eq_refl) as [(_ & _ & Hv) | (Ha & _)].
    + exact Hv.
    + discriminate Ha.
  - exact (proj1 (proj2 (proj2 (sensor_update_is_atomic unused_float_repr
             (answering (Hub.Registers []))
             (Sensor.set_value "19" (int_sensor 0)) []))) StructError eq_refl).
Defined.

Lemma sensor_degenerate_replies_witness :
  Sensor.update unused_float_repr (answering (Hub.Registers []))
    (text_sensor, [])
  = stored text_sensor [] "" /\
  Method.outcome
    (Sensor.update unused_float_repr (answering (Hub.Registers []))
       (int_sensor 0, []))
  = Raise StructError /\
  Method.outcome
    (Sensor.update unused_float_repr (answering (Hub.Registers [70000]))
       (int_sensor 0, []))
  = Raise OverflowError.
Proof.
  split; [|split].
  - exact (proj1 (proj1 (sensor_degenerate_replies unused_float_repr
             (answering (Hub.Registers [])) text_sensor []) eq_refl)
             eq_refl eq_refl).
  - exact (f_equal snd
             (proj2 (proj2 (proj1 (sensor_degenerate_replies unused_float_repr
                (answering (Hub.Registers [])) (int_sensor 0) []) eq_refl))
                true 1%nat eq_refl eq_refl eq_refl)).
  - exact (f_equal snd
             (proj2 (sensor_degenerate_replies unused_float_repr
                (answering (Hub.Registers [70000])) (int_sensor 0) [])
                [70000] eq_refl eq_refl)).
Defined.

Lemma switch_setup_is_all_or_nothing_witness :
  let hubs := registry echoing in
  SwitchSetup.async_setup_platform hubs switches
  = SwitchSetup.Added
      [SwitchSetup.Coil echoing coil_switch;
       SwitchSetup.Register echoing switch] /\
  SwitchSetup.async_setup_platform hubs switches_malformed
  = SwitchSetup.Raised ValueError.
Proof.
  intros hubs. split.
  - reflexivity.
  - refine (proj2 (switch_setup_is_all_or_nothing hubs switches_malformed _) _).
    + split.
      * intros coils c [= <-] [<- | []]. discriminate.
      * intros registers e [= <-] [<- | [<- | []]]; discriminate.
    + intros H. inversion H as [|? ? _ H']. inversion H' as [|? ? Hm _].
      destruct Hm as ((ls & d1 & d2 & _ & _ & _ & _ & _ & [Hs | Hs]) & _);
        discriminate Hs.
Defined.

Lemma switch_setup_unknown_hub_witness :
  SwitchSetup.async_setup_platform (registry echoing) switches_unknown_hub
  = SwitchSetup.KeyError "elsewhere".
Proof.
  refine (switch_setup_unknown_hub (registry echoing) switches_unknown_hub
            [("modbus_hub", switch_config)] ("elsewhere", unverified_config)
            [("modbus_hub", malformed_config)] _ eq_refl _ _ eq_refl).
  - intros c [<- | []]. discriminate.
  - intros e [<- | []]. discriminate.
  - constructor; [|constructor]. split.
    + exists "MX", "401", "5".
      repeat (split; [reflexivity || short_groups|]). left. reflexivity.
    + exists "QX", "4", "7".
      repeat (split; [reflexivity || short_groups|]). left. reflexivity.
Defined.

Lemma sensor_setup_adds_only_sized_sensors_witness :
  let hubs := registry echoing in
  let registers :=
    [entry "level" "int" 1 None "modbus_hub";
     entry "odd" "int" 3 None "modbus_hub";
     entry "pair" "custom" 2 (Some ">hh") "modbus_hub"] in
  exists made,
    snd (SensorSetup.setup_platform formats hubs ssize_max registers)
    = SensorSetup.Added made /\
    Forall (fun m => exists register,
                       In register registers /\
                       accepted hubs ssize_max register m) made.
Proof.
  intros hubs registers. eexists. split; [reflexivity|].
  exact (proj2 (sensor_setup_adds_only_sized_sensors formats hubs ssize_max
                  registers _ _ eq_refl)).
Defined.

Lemma sensor_setup_accepts_string_entries_witness :
  let hubs := registry echoing in
  let register := entry "label" "string" 2 None "modbus_hub" in
  SensorSetup.consider formats hubs ssize_max register
  = SensorSetup.Append echoing (SensorSetup.sensor_of register "4s") /\
  SensorSetup.calcsize ssize_max "4s" = Ret 4.
Proof.
  intros hubs register.
  destruct (sensor_setup_accepts_string_entries formats hubs ssize_max
              register echoing eq_refl) as (H1 & H2 & _).
  - cbn. unfold ssize_max. lia.
  - apply Z.ltb_lt. vm_compute. reflexivity.
  - reflexivity.
  - exact (conj H1 H2).
Defined.

Lemma sensor_setup_skips_bad_structure_witness :
  let hubs := registry echoing in
  let level := entry "level" "int" 1 None "modbus_hub" in
  let short := entry "short" "custom" 2 (Some ">h") "modbus_hub" in
  let wrong := entry "wrong" "custom" 2 (Some ">z") "modbus_hub" in
  (snd (SensorSetup.setup_platform formats hubs ssize_max [level; short])
   = snd (SensorSetup.setup_platform formats hubs ssize_max [level]) /\
   In (SensorSetup.SizeMismatch 2 2)
      (fst (SensorSetup.setup_platform formats hubs ssize_max [level; short]))) /\
  In (SensorSetup.StructureError "wrong")
     (fst (SensorSetup.setup_platform formats hubs ssize_max [level; wrong])).
Proof.
  intros hubs level short wrong. split.
  - refine (sensor_setup_skips_bad_structure formats hubs ssize_max short
              ">h" (SensorSetup.SizeMismatch 2 2) [level] []
              eq_refl eq_refl eq_refl _).
    right. exists 2. split; [reflexivity|]. split; [discriminate|reflexivity].
  - refine (proj2 (sensor_setup_skips_bad_structure formats hubs ssize_max
                     wrong ">z" (SensorSetup.StructureError "wrong") [level] []
                     eq_refl eq_refl eq_refl _)).
    left. split; reflexivity.
Defined.

Lemma sensor_setup_custom_needs_structure_witness :
  match
    snd (SensorSetup.setup_platform formats (registry echoing) ssize_max
           [entry "level" "int" 1 None "modbus_hub";
            entry "bare" "custom" 2 None "modbus_hub"])
  with
  | SensorSetup.ReturnedFalse | SensorSetup.Added _ => False
  | SensorSetup.KeyError _ | SensorSetup.Raised _ => True
  end.
Proof.
  exact (sensor_setup_custom_needs_structure formats (registry echoing)
           ssize_max (entry "bare" "custom" 2 None "modbus_hub")
           [entry "level" "int" 1 None "modbus_hub"] []
           eq_refl eq_refl eq_refl).
Defined.

End MoreRuns.
